(** * Financial_API: ingestion and scheduling engine

    A shallow embedding of [src/services/PriceService.ts] and
    [src/services/SchedulerService.ts].

    The two services are asynchronous TypeScript that talks to three
    collaborators: the Yahoo chart endpoint (through axios), a PostgreSQL
    database (through Prisma) and the timer / cron facilities of Node.
    Every [await] in the source is sequential, so the code is embedded in a
    state-and-exception monad over a [World] that holds the two tables, the
    wall clock, the provider's answers and a chronological trace of the
    observable effects (HTTP requests, database statements, pauses and
    [console.error] / [console.warn] lines).  [console.log] lines carry no
    behaviour and are left out, except the daily summary counters. *)

From Stdlib Require Import ZArith QArith List String Ascii Bool Lia.
From Stdlib Require Import Sorting.Sorted.
Import ListNotations.

Local Open Scope Z_scope.
Local Open Scope string_scope.

(** ** JavaScript values that travel through the services *)

(** The numeric fields of the provider's document are only ever copied
    into rows, never computed with; the quote arrays may hold [null]
    (non-trading periods) and reading past the end of an array gives
    [undefined]. *)
Inductive JsValue : Type :=
| JsNull
| JsUndefined
| JsNumber (q : Q).

(** [v !== null] *)
Definition strict_neq_null (v : JsValue) : bool :=
  match v with
  | JsNull => false
  | _ => true
  end.

(** [a[i]] on a JavaScript array. *)
Definition js_index (a : list JsValue) (i : nat) : JsValue :=
  nth i a JsUndefined.

(** What a [throw] (or a rejected promise) carries: an [Error] object with
    its message, or any other value. *)
Inductive Thrown : Type :=
| JsError (message : string)
| JsNonError.

(** [error instanceof Error ? error.message : 'Error desconocido'] *)
Definition error_message_or_unknown (e : Thrown) : string :=
  match e with
  | JsError m => m
  | JsNonError => "Error desconocido"
  end.

(** [String.prototype.toUpperCase] as it is on ASCII text: the letters a-z
    are mapped to A-Z.  Bytes outside ASCII are left as they are, which is
    not what JavaScript does with letters such as [ñ]; what is proved about
    letter case is stated for ASCII symbols. *)
Definition toUpperCase_ascii (c : ascii) : ascii :=
  let n := nat_of_ascii c in
  if andb (Nat.leb 97 n) (Nat.leb n 122) then ascii_of_nat (n - 32) else c.

Fixpoint toUpperCase (s : string) : string :=
  match s with
  | EmptyString => EmptyString
  | String c r => String (toUpperCase_ascii c) (toUpperCase r)
  end.

(** ** The provider's document (interfaces [YahooChartResult] and
       [YahooFinanceResponse]) *)

Module Meta.
Record t : Type := mk {
  currency : string;
  symbol : string;
  regularMarketPrice : JsValue;
  regularMarketDayHigh : JsValue;
  regularMarketDayLow : JsValue;
  regularMarketVolume : JsValue;
  previousClose : JsValue;
  regularMarketTime : Z
}.
End Meta.

Module Quote.
Record t : Type := mk {
  open : list JsValue;
  high : list JsValue;
  low : list JsValue;
  close : list JsValue;
  volume : list JsValue
}.
End Quote.

(** A result as the interface declares it: [timestamp] is an array and
    [indicators.quote] is an array, either of which may be empty. *)
Module YahooChartResult.
Record t : Type := mk {
  meta : Meta.t;
  timestamp : list Z;
  quote : list Quote.t   (* indicators.quote *)
}.
End YahooChartResult.

(** [chart] and [chart.result] may be missing, hence the options read by
    the optional chaining [data.chart?.result?.[0]]. *)
Module YahooFinanceResponse.
Record t : Type := mk {
  chart : option (option (list YahooChartResult.t))
}.
End YahooFinanceResponse.

(** [data.chart?.result?.[0]] *)
Definition first_result (data : YahooFinanceResponse.t)
  : option YahooChartResult.t :=
  match YahooFinanceResponse.chart data with
  | Some (Some (r :: _)) => Some r
  | _ => None
  end.

(** The answer of [axios.get]: a document, or a rejected promise. *)
Inductive HttpReply : Type :=
| HttpOk (data : YahooFinanceResponse.t)
| HttpRejected (e : Thrown).

(** ** Objects built by [PriceService] *)

(** The object literal [priceData] of [getDailyPrices]; dates are
    milliseconds since the epoch. *)
Module PriceData.
Record t : Type := mk {
  symbol : string;
  regularMarketPrice : JsValue;
  regularMarketDayHigh : JsValue;
  regularMarketDayLow : JsValue;
  regularMarketVolume : JsValue;
  previousClose : JsValue;
  regularMarketTime : Z;
  currency : string
}.
End PriceData.

(** One element of [historicalData] in [getHistoricalPrices]. *)
Module HistoricalItem.
Record t : Type := mk {
  date : Z;
  open : JsValue;
  high : JsValue;
  low : JsValue;
  close : JsValue;
  volume : JsValue
}.
End HistoricalItem.

(** [interface BulkLoadResult] *)
Module Status.
Inductive t : Type := success | failed.
End Status.

Module BulkLoadResult.
Record t : Type := mk {
  symbol : string;
  records : option nat;
  status : Status.t;
  error : option string
}.
End BulkLoadResult.

(** [interface DateRangeConfig] *)
Module DateRangeConfig.
Record t : Type := mk {
  range : string;
  interval : string
}.
End DateRangeConfig.

(** ** The persisted schema *)

(** Modelled from the spec: [prisma/schema.prisma] is not among the
    sources.  The spec gives the logical schema
    [Asset(id, symbol UNIQUE, name, type)] and
    [Price(id, date, open, high, low, close, volume, assetId,
    UNIQUE(assetId, date))], and says that a daily row is dated the call
    time, so [date] defaults to the insertion time when the statement gives
    none.  Identifiers come from a sequence per table. *)
Module Asset.
Record t : Type := mk {
  id : Z;
  symbol : string;
  name : string;
  type : string
}.
End Asset.

Module Price.
Record t : Type := mk {
  id : Z;
  date : Z;
  open : JsValue;
  high : JsValue;
  low : JsValue;
  close : JsValue;
  volume : JsValue;
  assetId : Z
}.
End Price.

(** The [data] argument of [prisma.price.create] / [createMany]. *)
Module PriceInput.
Record t : Type := mk {
  date : option Z;
  open : JsValue;
  high : JsValue;
  low : JsValue;
  close : JsValue;
  volume : JsValue;
  assetId : Z
}.
End PriceInput.

(** ** Observable effects *)

(** The statements the services send through Prisma. *)
Inductive DbStatement : Type :=
| AssetUpsert (symbol : string)
| AssetFindMany
| AssetCount
| PriceCreate
| PriceCreateMany (rows : nat)
| PriceCount.

(** What a test double would record of a run, in order: requests to the
    provider, statements to the database, pauses, and the lines written
    with [console.error] and [console.warn] (by their first argument). *)
Inductive Event : Type :=
| EvHttpGet (url : string)
| EvDb (st : DbStatement)
| EvSleep (ms : Z)
| EvConsoleError (msg : string)
| EvConsoleWarn (msg : string)
| EvDailySummary (processed failed : nat).

(** ** The world the services run in *)

(** The two callbacks that [SchedulerService.start] hands to
    [cron.schedule], and a task as node-cron keeps it. *)
Inductive Callback : Type :=
| MarketCloseCallback
| HealthCheckCallback.

Record ScheduledTask : Type := mkTask {
  expression : string;
  callback : Callback
}.

(** The clock only moves in pauses: requests and statements are taken to
    be instantaneous, the least time they can take. *)
Record World : Type := mkWorld {
  assets : list Asset.t;          (* table Asset, in insertion order *)
  prices : list Price.t;          (* table Price, in insertion order *)
  asset_seq : Z;                  (* next Asset.id *)
  price_seq : Z;                  (* next Price.id *)
  now : Z;                        (* wall clock, milliseconds *)
  provider : string -> HttpReply; (* what the chart endpoint answers *)
  db_faults : list (option Thrown); (* per statement: storage failure? *)
  trace : list Event;             (* oldest first *)
  isRunning : bool;               (* SchedulerService.isRunning *)
  cron_tasks : list ScheduledTask (* tasks node-cron has scheduled *)
}.

Definition set_assets (w : World) (a : list Asset.t) (seq : Z) : World :=
  mkWorld a (prices w) seq (price_seq w) (now w) (provider w)
          (db_faults w) (trace w) (isRunning w) (cron_tasks w).

Definition set_prices (w : World) (p : list Price.t) (seq : Z) : World :=
  mkWorld (assets w) p (asset_seq w) seq (now w) (provider w)
          (db_faults w) (trace w) (isRunning w) (cron_tasks w).

Definition set_now (w : World) (t : Z) : World :=
  mkWorld (assets w) (prices w) (asset_seq w) (price_seq w) t (provider w)
          (db_faults w) (trace w) (isRunning w) (cron_tasks w).

Definition set_db_faults (w : World) (f : list (option Thrown)) : World :=
  mkWorld (assets w) (prices w) (asset_seq w) (price_seq w) (now w)
          (provider w) f (trace w) (isRunning w) (cron_tasks w).

Definition set_isRunning (w : World) (b : bool) : World :=
  mkWorld (assets w) (prices w) (asset_seq w) (price_seq w) (now w)
          (provider w) (db_faults w) (trace w) b (cron_tasks w).

Definition set_cron_tasks (w : World) (l : list ScheduledTask) : World :=
  mkWorld (assets w) (prices w) (asset_seq w) (price_seq w) (now w)
          (provider w) (db_faults w) (trace w) (isRunning w) l.

Definition emit (w : World) (e : Event) : World :=
  mkWorld (assets w) (prices w) (asset_seq w) (price_seq w) (now w)
          (provider w) (db_faults w) (trace w ++ [e])
          (isRunning w) (cron_tasks w).

(** ** Sequential asynchronous code: state and exceptions *)

Inductive Completion (A : Type) : Type :=
| Normal (a : A)
| Abrupt (e : Thrown).
Arguments Normal {A} a.
Arguments Abrupt {A} e.

Definition Async (A : Type) : Type := World -> Completion A * World.

Definition ret {A} (a : A) : Async A := fun w => (Normal a, w).

Definition bind {A B} (m : Async A) (k : A -> Async B) : Async B :=
  fun w =>
    match m w with
    | (Normal a, w1) => k a w1
    | (Abrupt e, w1) => (Abrupt e, w1)
    end.

Definition throw {A} (e : Thrown) : Async A := fun w => (Abrupt e, w).

(** [try { m } catch (error) { h error }] *)
Definition try_catch {A} (m : Async A) (h : Thrown -> Async A) : Async A :=
  fun w =>
    match m w with
    | (Normal a, w1) => (Normal a, w1)
    | (Abrupt e, w1) => h e w1
    end.

Declare Scope async_scope.
Delimit Scope async_scope with async.
Notation "x <- m ;; k" := (bind m (fun x => k))
  (at level 61, m at next level, right associativity) : async_scope.
Notation "m ;; k" := (bind m (fun _ => k))
  (at level 61, right associativity) : async_scope.
Local Open Scope async_scope.

Definition log (e : Event) : Async unit := fun w => (Normal tt, emit w e).

(** [console.error(msg, error)] *)
Definition console_error (msg : string) : Async unit :=
  log (EvConsoleError msg).

(** [console.warn(msg)] *)
Definition console_warn (msg : string) : Async unit :=
  log (EvConsoleWarn msg).

(** [await new Promise(resolve => setTimeout(resolve, ms))] *)
Definition sleep (ms : Z) : Async unit :=
  fun w => (Normal tt, set_now (emit w (EvSleep ms)) (now w + ms)).

(** [await axios.get(url)] *)
Definition axios_get (url : string) : Async YahooFinanceResponse.t :=
  fun w =>
    let w1 := emit w (EvHttpGet url) in
    match provider w url with
    | HttpOk data => (Normal data, w1)
    | HttpRejected e => (Abrupt e, w1)
    end.

(** ** The Prisma client against the schema above *)

(** Every statement is one round trip to the database; the database may be
    unavailable for it, in which case the client's promise is rejected and
    the tables are left as they were.  [db_faults] says, statement by
    statement, whether that happens. *)
Definition db_statement (st : DbStatement) : Async unit :=
  fun w =>
    let w1 := set_db_faults (emit w (EvDb st)) (tl (db_faults w)) in
    match hd None (db_faults w) with
    | None => (Normal tt, w1)
    | Some e => (Abrupt e, w1)
    end.

Definition find_asset (symbol : string) (l : list Asset.t) : option Asset.t :=
  find (fun a => String.eqb (Asset.symbol a) symbol) l.

Definition symbol_violation : Thrown :=
  JsError "Unique constraint failed on the fields: (`symbol`)".

(** [prisma.asset.upsert({ where: { symbol }, update: {}, create })]: a
    single statement that returns the row with that symbol, inserting
    [create] first when there is none ([UNIQUE(symbol)] permitting). *)
Definition prisma_asset_upsert (where_symbol : string)
    (create_symbol create_name create_type : string) : Async Asset.t :=
  db_statement (AssetUpsert where_symbol) ;;
  fun w =>
    match find_asset where_symbol (assets w) with
    | Some a => (Normal a, w)
    | None =>
        match find_asset create_symbol (assets w) with
        | Some _ => (Abrupt symbol_violation, w)
        | None =>
            let a := Asset.mk (asset_seq w) create_symbol create_name
                              create_type in
            (Normal a, set_assets w (assets w ++ [a]) (asset_seq w + 1))
        end
    end.

(** [prisma.asset.findMany({ select: { symbol: true } })] *)
Definition prisma_asset_findMany_symbols : Async (list string) :=
  db_statement AssetFindMany ;;
  fun w => (Normal (map Asset.symbol (assets w)), w).

(** [prisma.asset.count()] and [prisma.price.count()] *)
Definition prisma_asset_count : Async nat :=
  db_statement AssetCount ;;
  fun w => (Normal (List.length (assets w)), w).

Definition prisma_price_count : Async nat :=
  db_statement PriceCount ;;
  fun w => (Normal (List.length (prices w)), w).

(** The unique key of a Price row. *)
Definition price_key (p : Price.t) : Z * Z := (Price.assetId p, Price.date p).

Definition same_key (k1 k2 : Z * Z) : bool :=
  andb (Z.eqb (fst k1) (fst k2)) (Z.eqb (snd k1) (snd k2)).

Definition key_taken (k : Z * Z) (rows : list Price.t) : bool :=
  existsb (fun p => same_key (price_key p) k) rows.

(** The row a statement's [data] becomes: a missing [date] takes the
    time of insertion. *)
Definition row_of_input (id : Z) (clock : Z) (d : PriceInput.t) : Price.t :=
  Price.mk id
           (match PriceInput.date d with Some t => t | None => clock end)
           (PriceInput.open d) (PriceInput.high d) (PriceInput.low d)
           (PriceInput.close d) (PriceInput.volume d) (PriceInput.assetId d).

Definition unique_violation : Thrown :=
  JsError "Unique constraint failed on the fields: (`assetId`,`date`)".

(** [prisma.price.create({ data })]: rejected when the key is taken. *)
Definition prisma_price_create (data : PriceInput.t) : Async Price.t :=
  db_statement PriceCreate ;;
  fun w =>
    let row := row_of_input (price_seq w) (now w) data in
    if key_taken (price_key row) (prices w)
    then (Abrupt unique_violation, w)
    else (Normal row, set_prices w (prices w ++ [row]) (price_seq w + 1)).

(** The rows of one [INSERT ... ON CONFLICT DO NOTHING]: each input row in
    turn is inserted unless its key is already in the table (or was
    inserted earlier by the same statement). *)
Fixpoint insert_skipping (clock : Z) (data : list PriceInput.t)
    (rows : list Price.t) (seq : Z) : list Price.t * Z :=
  match data with
  | [] => (rows, seq)
  | d :: rest =>
      let row := row_of_input seq clock d in
      if key_taken (price_key row) rows
      then insert_skipping clock rest rows seq
      else insert_skipping clock rest (rows ++ [row]) (seq + 1)
  end.

(** The rows of a plain multi-row [INSERT]: all of them, or none when one
    key collides. *)
Fixpoint insert_all (clock : Z) (data : list PriceInput.t)
    (rows : list Price.t) (seq : Z) : option (list Price.t * Z) :=
  match data with
  | [] => Some (rows, seq)
  | d :: rest =>
      let row := row_of_input seq clock d in
      if key_taken (price_key row) rows
      then None
      else insert_all clock rest (rows ++ [row]) (seq + 1)
  end.

(** [prisma.price.createMany({ data, skipDuplicates })], returning the
    number of rows inserted. *)
Definition prisma_price_createMany (data : list PriceInput.t)
    (skipDuplicates : bool) : Async nat :=
  db_statement (PriceCreateMany (List.length data)) ;;
  fun w =>
    if skipDuplicates then
      let '(rows, seq) := insert_skipping (now w) data (prices w) (price_seq w) in
      (Normal (List.length rows - List.length (prices w))%nat, set_prices w rows seq)
    else
      match insert_all (now w) data (prices w) (price_seq w) with
      | Some (rows, seq) =>
          (Normal (List.length data), set_prices w rows seq)
      | None => (Abrupt unique_violation, w)
      end.

(** ** [class PriceService] *)

(** [dateRangeConfigs] *)
Definition dateRangeConfigs : list (string * DateRangeConfig.t) :=
  [ ("1d",  DateRangeConfig.mk "1d" "15m");
    ("5d",  DateRangeConfig.mk "5d" "1d");
    ("1mo", DateRangeConfig.mk "1mo" "1d");
    ("3mo", DateRangeConfig.mk "3mo" "1d");
    ("6mo", DateRangeConfig.mk "6mo" "1d");
    ("1y",  DateRangeConfig.mk "1y" "1d");
    ("2y",  DateRangeConfig.mk "2y" "1d");
    ("5y",  DateRangeConfig.mk "5y" "1wk");
    ("10y", DateRangeConfig.mk "10y" "1mo");
    ("max", DateRangeConfig.mk "max" "1mo") ].

Fixpoint lookup_config (key : string)
    (table : list (string * DateRangeConfig.t)) : option DateRangeConfig.t :=
  match table with
  | [] => None
  | (k, c) :: rest => if String.eqb k key then Some c else lookup_config key rest
  end.

(** The table is an object literal, so besides its own keys it answers to
    the property names of [Object.prototype] (ECMAScript 20.1.3 and the
    accessors of Annex B.2.2): reading one of them gives a function, or
    for [__proto__] the prototype object itself. *)
Definition object_prototype_keys : list string :=
  [ "constructor"; "__defineGetter__"; "__defineSetter__"; "hasOwnProperty";
    "__lookupGetter__"; "__lookupSetter__"; "isPrototypeOf";
    "propertyIsEnumerable"; "toString"; "valueOf"; "__proto__";
    "toLocaleString" ].

(** A truthy value read from the table: one of its configurations, or a
    member of [Object.prototype], which has no [range] and no [interval]. *)
Inductive ConfigValue : Type :=
| Config (config : DateRangeConfig.t)
| PrototypeMember (key : string).

(** [this.dateRangeConfigs[key]]; [None] is [undefined]. *)
Definition table_get (key : string) : option ConfigValue :=
  match lookup_config key dateRangeConfigs with
  | Some c => Some (Config c)
  | None =>
      if existsb (String.eqb key) object_prototype_keys
      then Some (PrototypeMember key)
      else None
  end.

(** [this.dateRangeConfigs[rangeKey] || this.dateRangeConfigs['1mo']] *)
Definition getDateRangeConfig (rangeKey : string) : ConfigValue :=
  match table_get rangeKey with
  | Some v => v
  | None => Config (DateRangeConfig.mk "1mo" "1d")
  end.

(** [${config.range}] and [${config.interval}] in a template literal: a
    property that is not there reads [undefined]. *)
Definition range_text (config : ConfigValue) : string :=
  match config with
  | Config c => DateRangeConfig.range c
  | PrototypeMember _ => "undefined"
  end.

Definition interval_text (config : ConfigValue) : string :=
  match config with
  | Config c => DateRangeConfig.interval c
  | PrototypeMember _ => "undefined"
  end.

Definition getAvailableDateRanges : list string := map fst dateRangeConfigs.

(** [ensureAssetExists]: the handler logs and rethrows. *)
Definition ensureAssetExists (symbol : string) : Async Asset.t :=
  try_catch
    (asset <- prisma_asset_upsert symbol symbol symbol "STOCK" ;;
     ret asset)
    (fun error =>
       console_error ("Error gestionando asset " ++ symbol ++ ":") ;;
       throw error).

(** The [data] object that [saveDailyPriceToDatabase] gives to [create]:
    no [date]. *)
Definition daily_record (priceData : PriceData.t) (asset : Asset.t)
  : PriceInput.t :=
  PriceInput.mk None
    (PriceData.regularMarketPrice priceData)
    (PriceData.regularMarketDayHigh priceData)
    (PriceData.regularMarketDayLow priceData)
    (PriceData.regularMarketPrice priceData)
    (PriceData.regularMarketVolume priceData)
    (Asset.id asset).

(** [saveDailyPriceToDatabase] *)
Definition saveDailyPriceToDatabase (priceData : PriceData.t) : Async unit :=
  try_catch
    (asset <- ensureAssetExists (PriceData.symbol priceData) ;;
     _ <- prisma_price_create (daily_record priceData asset) ;;
     ret tt)
    (fun error =>
       console_error ("Error guardando precio diario para "
                      ++ PriceData.symbol priceData ++ ":")).

(** [priceRecords] of [saveHistoricalPricesToDatabase]. *)
Definition priceRecords (historicalData : list HistoricalItem.t)
    (asset : Asset.t) : list PriceInput.t :=
  map (fun data =>
         PriceInput.mk (Some (HistoricalItem.date data))
           (HistoricalItem.open data) (HistoricalItem.high data)
           (HistoricalItem.low data) (HistoricalItem.close data)
           (HistoricalItem.volume data) (Asset.id asset))
      historicalData.

(** [saveHistoricalPricesToDatabase] *)
Definition saveHistoricalPricesToDatabase (symbol : string)
    (historicalData : list HistoricalItem.t) : Async unit :=
  try_catch
    (asset <- ensureAssetExists symbol ;;
     if Nat.eqb (List.length historicalData) 0 then ret tt
     else
       _ <- prisma_price_createMany (priceRecords historicalData asset)
                                    true ;;
       ret tt)
    (fun error =>
       console_error ("Error guardando precios históricos para "
                      ++ symbol ++ ":")).

(** The template literal [url] of [getDailyPrices]. *)
Definition daily_url (symbol : string) : string :=
  "https://query1.finance.yahoo.com/v8/finance/chart/" ++ symbol.

(** [getDailyPrices] *)
Definition getDailyPrices (symbol : string) : Async PriceData.t :=
  try_catch
    (let url := daily_url symbol in
     data <- axios_get url ;;
     match first_result data with
     | None =>
         throw (JsError ("No se encontraron datos para el símbolo: " ++ symbol))
     | Some result =>
         let meta := YahooChartResult.meta result in
         let priceData :=
           PriceData.mk (toUpperCase symbol)
             (Meta.regularMarketPrice meta)
             (Meta.regularMarketDayHigh meta)
             (Meta.regularMarketDayLow meta)
             (Meta.regularMarketVolume meta)
             (Meta.previousClose meta)
             (Meta.regularMarketTime meta * 1000)
             (Meta.currency meta) in
         saveDailyPriceToDatabase priceData ;;
         ret priceData
     end)
    (fun error =>
       console_error ("Error extrayendo precio diario para " ++ symbol ++ ":") ;;
       throw (JsError ("Fallo al obtener precio diario para " ++ symbol))).

(** [array.map((x, index) => f x index)], from index [i] on. *)
Fixpoint map_with_index {A B} (f : A -> nat -> B) (i : nat) (l : list A)
  : list B :=
  match l with
  | [] => []
  | x :: rest => f x i :: map_with_index f (S i) rest
  end.

(** The callback of [timestamps.map] in [getHistoricalPrices]. *)
Definition zip_point (quotes : Quote.t) (timestamp : Z) (index : nat)
  : HistoricalItem.t :=
  HistoricalItem.mk (timestamp * 1000)
    (js_index (Quote.open quotes) index)
    (js_index (Quote.high quotes) index)
    (js_index (Quote.low quotes) index)
    (js_index (Quote.close quotes) index)
    (js_index (Quote.volume quotes) index).

(** [timestamps.map(...).filter(item => item.open !== null)], where
    [quotes] is [result.indicators.quote[0]]: with no quote object the
    callback's [quotes.open] is a TypeError, unless there is no timestamp
    to call it on. *)
Definition normalize (timestamps : list Z) (quotes : option Quote.t)
  : Completion (list HistoricalItem.t) :=
  match timestamps, quotes with
  | [], _ => Normal []
  | _ :: _, None =>
      Abrupt (JsError "Cannot read properties of undefined (reading 'open')")
  | _ :: _, Some q =>
      Normal (filter (fun item => strict_neq_null (HistoricalItem.open item))
                     (map_with_index (zip_point q) 0 timestamps))
  end.

Definition lift_completion {A} (c : Completion A) : Async A :=
  fun w => (c, w).

(** The template literal [url] of [getHistoricalPrices]. *)
Definition historical_url (symbol : string) (config : ConfigValue)
  : string :=
  "https://query1.finance.yahoo.com/v8/finance/chart/" ++ symbol
  ++ "?range=" ++ range_text config
  ++ "&interval=" ++ interval_text config.

(** A parameter with a default value: [None] when the caller leaves the
    argument out. *)
Definition or_default (arg : option string) (default : string) : string :=
  match arg with
  | Some v => v
  | None => default
  end.

(** [getHistoricalPrices(symbol, rangeKey = '1mo')] *)
Definition getHistoricalPrices (symbol : string) (rangeKey : option string)
  : Async (list HistoricalItem.t) :=
  let rangeKey := or_default rangeKey "1mo" in
  try_catch
    (let config := getDateRangeConfig rangeKey in
     let url := historical_url symbol config in
     data <- axios_get url ;;
     match first_result data with
     | None =>
         throw (JsError ("No se encontraron datos históricos para el símbolo: "
                         ++ symbol))
     | Some result =>
         let timestamps := YahooChartResult.timestamp result in
         let quotes := hd_error (YahooChartResult.quote result) in
         historicalData <- lift_completion (normalize timestamps quotes) ;;
         saveHistoricalPricesToDatabase symbol historicalData ;;
         ret historicalData
     end)
    (fun error =>
       console_error ("Error extrayendo precios históricos para " ++ symbol ++ ":") ;;
       throw (JsError ("Fallo al obtener precios históricos para " ++ symbol))).

(** The body of [for (const symbol of symbols)] in
    [loadBulkHistoricalData]; [results] is the array built so far.  The
    pause is the last statement of the [try] block, after the push. *)
Definition bulk_step (range : string) (symbol : string)
    (results : list BulkLoadResult.t) : Async (list BulkLoadResult.t) :=
  try_catch
    (historicalData <- getHistoricalPrices symbol (Some range) ;;
     let pushed :=
       (results ++ [BulkLoadResult.mk symbol (Some (List.length historicalData))
                                      Status.success None])%list in
     sleep 1000 ;;
     ret pushed)
    (fun error =>
       let errorMessage := error_message_or_unknown error in
       console_error ("Error procesando " ++ symbol ++ ":") ;;
       ret (results ++ [BulkLoadResult.mk symbol None Status.failed
                                          (Some errorMessage)])%list).

Fixpoint bulk_loop (range : string) (symbols : list string)
    (results : list BulkLoadResult.t) : Async (list BulkLoadResult.t) :=
  match symbols with
  | [] => ret results
  | symbol :: rest =>
      results' <- bulk_step range symbol results ;;
      bulk_loop range rest results'
  end.

(** [loadBulkHistoricalData(symbols, range = '5y')] *)
Definition loadBulkHistoricalData (symbols : list string)
    (range : option string) : Async (list BulkLoadResult.t) :=
  let range := or_default range "5y" in
  try_catch
    (results <- bulk_loop range symbols [] ;;
     ret results)
    (fun error =>
       console_error "Error en carga masiva:" ;;
       throw error).

(** ** [class SchedulerService] *)

(** The body of [for (const symbol of symbols)] in [executeDailyClose];
    the pause comes after the [try] / [catch], on both paths. *)
Definition daily_step (symbol : string) (counters : nat * nat)
  : Async (nat * nat) :=
  let '(processed, failed) := counters in
  counters' <- try_catch
                 (result <- getDailyPrices symbol ;;
                  ret (S processed, failed))
                 (fun error => ret (processed, S failed)) ;;
  sleep 1000 ;;
  ret counters'.

Fixpoint daily_loop (symbols : list string) (counters : nat * nat)
  : Async (nat * nat) :=
  match symbols with
  | [] => ret counters
  | symbol :: rest =>
      counters' <- daily_step symbol counters ;;
      daily_loop rest counters'
  end.

(** [executeDailyClose] *)
Definition executeDailyClose : Async unit :=
  try_catch
    (symbols <- prisma_asset_findMany_symbols ;;
     if Nat.eqb (List.length symbols) 0 then ret tt
     else
       counters <- daily_loop symbols (0%nat, 0%nat) ;;
       log (EvDailySummary (fst counters) (snd counters)))
    (fun error => console_error "Error en executeDailyClose:").

(** [runDailyCloseNow] *)
Definition runDailyCloseNow : Async unit := executeDailyClose.

(** The callback scheduled for ['30 21 * * 1-5']. *)
Definition market_close_callback : Async unit :=
  try_catch
    (executeDailyClose ;; ret tt)
    (fun error => console_error "Error en cierre diario:").

(** The callback scheduled for ['0 * * * *']. *)
Definition health_check_callback : Async unit :=
  try_catch
    (assetCount <- prisma_asset_count ;;
     priceCount <- prisma_price_count ;;
     ret tt)
    (fun error => console_error "Health check falló:").

Definition run_callback (c : Callback) : Async unit :=
  match c with
  | MarketCloseCallback => market_close_callback
  | HealthCheckCallback => health_check_callback
  end.

(** [cron.schedule(expression, callback)]: node-cron adds one more task,
    whatever is scheduled already. *)
Definition cron_schedule (expr : string) (c : Callback) : Async unit :=
  fun w => (Normal tt, set_cron_tasks w (cron_tasks w ++ [mkTask expr c])).

(** [start] *)
Definition start : Async unit :=
  fun w =>
    if isRunning w then console_warn "Scheduler está en ejecución" w
    else
      (cron_schedule "30 21 * * 1-5" MarketCloseCallback ;;
       cron_schedule "0 * * * *" HealthCheckCallback ;;
       fun w1 => (Normal tt, set_isRunning w1 true)) w.

(** [stop] *)
Definition stop : Async unit :=
  fun w => (Normal tt, set_isRunning w false).

(** A minute of the calendar as cron sees it. *)
Record CronTime : Type := mkCronTime {
  minute : Z;
  hour : Z;
  dayOfMonth : Z;
  month : Z;
  dayOfWeek : Z   (* 0 = Sunday *)
}.

(** node-cron's matching, for the two expressions the scheduler uses. *)
Definition cron_matches (expr : string) (t : CronTime) : bool :=
  if String.eqb expr "30 21 * * 1-5" then
    ((minute t =? 30) && (hour t =? 21)
     && (1 <=? dayOfWeek t) && (dayOfWeek t <=? 5))%Z
  else if String.eqb expr "0 * * * *" then
    (minute t =? 0)%Z
  else false.

(** The callbacks node-cron invokes at minute [t], one per matching task. *)
Definition firing (t : CronTime) (w : World) : list Callback :=
  map callback (filter (fun k => cron_matches (expression k) t) (cron_tasks w)).

(** ** [scripts/load-stocks.js] *)

(** [allStocks] *)
Definition allStocks : list string :=
  [ "AAPL"; "MSFT"; "GOOGL"; "AMZN"; "META"; "TSLA"; "NVDA";
    "AVGO"; "ADBE"; "CRM"; "ORCL"; "CSCO"; "INTC"; "AMD";
    "QCOM"; "IBM"; "TXN"; "NOW"; "INTU"; "UBER";
    "JPM"; "BAC"; "WFC"; "C"; "GS"; "MS"; "SCHW";
    "V"; "MA"; "AXP"; "PYPL"; "COIN";
    "JNJ"; "UNH"; "PFE"; "ABT"; "TMO"; "DHR"; "LLY";
    "MRK"; "BMY"; "ABBV"; "GILD"; "CVS"; "CI";
    "WMT"; "PG"; "KO"; "PEP"; "COST"; "MCD"; "SBUX";
    "NKE"; "TGT"; "HD"; "LOW"; "AMT"; "NEE";
    "BA"; "CAT"; "GE"; "HON"; "MMM"; "RTX"; "LMT";
    "XOM"; "CVX"; "COP"; "SLB"; "EOG" ]%list.

(** [array.slice(i, j)] for [i <= j]. *)
Definition slice {A} (l : list A) (i j : nat) : list A :=
  firstn (j - i) (skipn i l).

(** [for (let i = start; i < bound; i += step) body], threading what the
    body updates.  The loop runs its body at most [fuel] times; with a
    positive [step], [bound] turns are all it can take. *)
Fixpoint for_step {T} (fuel : nat) (i bound step : nat)
    (body : nat -> T -> Async T) (s : T) : Async T :=
  match fuel with
  | O => ret s
  | S fuel' =>
      if Nat.ltb i bound
      then s' <- body i s ;; for_step fuel' (i + step) bound step body s'
      else ret s
  end.

(** [for (const symbol of batch)] of step 1: the [catch] only writes a
    [console.log] line. *)
Fixpoint register_batch (batch : list string) : Async unit :=
  match batch with
  | nil => ret tt
  | (symbol :: rest)%list =>
      try_catch (_ <- ensureAssetExists symbol ;; ret tt)
                (fun error => ret tt) ;;
      register_batch rest
  end.

(** Step 1 of [loadAllStocks], over the list [stocks]. *)
Definition register_assets (stocks : list string) : Async unit :=
  let batchSize := 10%nat in
  for_step (List.length stocks) 0 (List.length stocks) batchSize
    (fun i _ =>
       let batch := slice stocks i (i + batchSize) in
       register_batch batch ;;
       if Nat.ltb (i + batchSize) (List.length stocks)
       then sleep 1000
       else ret tt)
    tt.

(** [error.message] inside a template literal. *)
Definition message_text (e : Thrown) : string :=
  match e with
  | JsError m => m
  | JsNonError => "undefined"
  end.

(** Step 2 of [loadAllStocks], over the list [stocks]: the array
    [results]. *)
Definition load_history (stocks : list string)
  : Async (list BulkLoadResult.t) :=
  let dataBatchSize := 5%nat in
  for_step (List.length stocks) 0 (List.length stocks) dataBatchSize
    (fun i results =>
       let batch := slice stocks i (i + dataBatchSize) in
       try_catch
         (batchResults <- loadBulkHistoricalData batch (Some "5y") ;;
          let pushed := (results ++ batchResults)%list in
          (if Nat.ltb (i + dataBatchSize) (List.length stocks)
           then sleep 3000
           else ret tt) ;;
          ret pushed)
         (fun error =>
            console_error ("      Error en lote: " ++ message_text error) ;;
            ret results))
    nil.

(** The figures of the final report. *)
Definition successful (results : list BulkLoadResult.t) : nat :=
  List.length
    (filter (fun r => match BulkLoadResult.status r with
                      | Status.success => true
                      | Status.failed => false
                      end) results).

Definition failed_count (results : list BulkLoadResult.t) : nat :=
  List.length
    (filter (fun r => match BulkLoadResult.status r with
                      | Status.success => false
                      | Status.failed => true
                      end) results).

(** [results.reduce((sum, r) => sum + (r.records || 0), 0)] *)
Definition totalRecords (results : list BulkLoadResult.t) : nat :=
  fold_left (fun sum r =>
               (sum + match BulkLoadResult.records r with
                      | Some n => n
                      | None => 0
                      end)%nat)
            results 0%nat.

(** [loadAllStocks] over the list [stocks]; the report is printed with
    [console.log] from [results] and the two counts. *)
Definition loadAllStocks_on (stocks : list string) : Async unit :=
  try_catch
    (register_assets stocks ;;
     results <- load_history stocks ;;
     assetCount <- prisma_asset_count ;;
     priceCount <- prisma_price_count ;;
     ret tt)
    (fun error =>
       console_error (String (ascii_of_nat 10) "ERROR GENERAL:")).

(** [loadAllStocks] *)
Definition loadAllStocks : Async unit := loadAllStocks_on allStocks.

(** * Vocabulary of the properties *)

Local Open Scope list_scope.

(** ** Historical series *)

(** [filter] callback of [getHistoricalPrices]. *)
Definition open_not_null (item : HistoricalItem.t) : bool :=
  strict_neq_null (HistoricalItem.open item).

(** K: how many of the raw points, one per timestamp, have a [null] open. *)
Definition null_open_count (timestamps : list Z) (q : Quote.t) : nat :=
  List.length
    (filter (fun i => negb (strict_neq_null (js_index (Quote.open q) i)))
            (seq 0 (List.length timestamps))).

(** Ascending order of a sequence of timestamps or dates. *)
Definition ascending (dates : list Z) : Prop := StronglySorted Z.le dates.

(** The URL [getHistoricalPrices] requests for an optional range key. *)
Definition request_url (symbol : string) (rangeKey : option string) : string :=
  historical_url symbol (getDateRangeConfig (or_default rangeKey "1mo")).

(** ** Batch outcomes *)

(** An outcome carries what its tag promises: a record count and no error
    when it succeeded, an error message and no count when it failed. *)
Definition well_tagged (r : BulkLoadResult.t) : Prop :=
  match BulkLoadResult.status r with
  | Status.success =>
      BulkLoadResult.records r <> None /\ BulkLoadResult.error r = None
  | Status.failed =>
      BulkLoadResult.records r = None /\ BulkLoadResult.error r <> None
  end.

(** ** Storage invariants *)

(** [UNIQUE(assetId, date)] on table Price. *)
Definition unique_prices (w : World) : Prop :=
  NoDup (map price_key (prices w)).

(** [UNIQUE(symbol)] on table Asset. *)
Definition unique_symbols (w : World) : Prop :=
  NoDup (map Asset.symbol (assets w)).

(** Rows are only ever added after the ones [w0] has: none is deleted,
    moved or rewritten. *)
Definition keeps_rows_of (w0 w : World) : Prop :=
  (exists added, prices w = prices w0 ++ added)
  /\ (exists added, assets w = assets w0 ++ added).

(** The key of an input row that carries its own date. *)
Definition input_key (d : PriceInput.t) : option (Z * Z) :=
  match PriceInput.date d with
  | Some t => Some (PriceInput.assetId d, t)
  | None => None
  end.

(** A computation preserves a property of the world, however it ends. *)
Definition preserves (P : World -> Prop) {A} (m : Async A) : Prop :=
  forall w, P w -> P (snd (m w)).

(** A property of the world that every primitive effect of the services
    preserves. *)
Record invariant (P : World -> Prop) : Prop := mk_invariant {
  inv_log : forall e, preserves P (log e);
  inv_sleep : forall ms, preserves P (sleep ms);
  inv_axios_get : forall url, preserves P (axios_get url);
  inv_findMany : preserves P prisma_asset_findMany_symbols;
  inv_upsert :
    forall ws cs cn ct, preserves P (prisma_asset_upsert ws cs cn ct);
  inv_create :
    forall d, preserves P (prisma_price_create d);
  inv_createMany :
    forall d skip, preserves P (prisma_price_createMany d skip)
}.

(** A property that only reads the two tables. *)
Definition tables_only (P : World -> Prop) : Prop :=
  forall w w', assets w = assets w' -> prices w = prices w' -> P w -> P w'.

(** ** Asset registration *)

(** The rows of the Asset table that carry [symbol]. *)
Definition assets_with (symbol : string) (w : World) : list Asset.t :=
  filter (fun a => String.eqb (Asset.symbol a) symbol) (assets w).

(** [n] calls of [ensureAssetExists] in a row, by a caller that carries on
    after a rejected one. *)
Fixpoint ensure_repeatedly (n : nat) (symbol : string) (w : World) : World :=
  match n with
  | O => w
  | S k => ensure_repeatedly k symbol (snd (ensureAssetExists symbol w))
  end.

Definition is_db_event (e : Event) : bool :=
  match e with
  | EvDb _ => true
  | _ => false
  end.

(** The statements sent to the database from the end of [before] on. *)
Definition statements_since (before : World) (after : World)
  : list Event :=
  filter is_db_event (skipn (List.length (trace before)) (trace after)).

(** ** What the provider has for a request *)

(** The snapshot [getDailyPrices] builds from the provider's answer, when
    the answer has a result. *)
Definition fetch_daily (p : string -> HttpReply) (symbol : string)
  : option PriceData.t :=
  match p (daily_url symbol) with
  | HttpOk data =>
      match first_result data with
      | Some result =>
          let meta := YahooChartResult.meta result in
          Some (PriceData.mk (toUpperCase symbol)
                  (Meta.regularMarketPrice meta)
                  (Meta.regularMarketDayHigh meta)
                  (Meta.regularMarketDayLow meta)
                  (Meta.regularMarketVolume meta)
                  (Meta.previousClose meta)
                  (Meta.regularMarketTime meta * 1000)
                  (Meta.currency meta))
      | None => None
      end
  | HttpRejected _ => None
  end.

(** The series [getHistoricalPrices] normalises from the provider's
    answer, when the answer has a result that can be normalised. *)
Definition fetch_historical (p : string -> HttpReply) (symbol : string)
    (rangeKey : option string) : option (list HistoricalItem.t) :=
  match p (request_url symbol rangeKey) with
  | HttpOk data =>
      match first_result data with
      | Some result =>
          match normalize (YahooChartResult.timestamp result)
                          (hd_error (YahooChartResult.quote result)) with
          | Normal historicalData => Some historicalData
          | Abrupt _ => None
          end
      | None => None
      end
  | HttpRejected _ => None
  end.

(** The calendar day (UTC) of a date in milliseconds. *)
Definition day_of (ms : Z) : Z := ms / 86400000.

(** ** Daily rows *)

(** The row a daily-close ingestion writes for a snapshot [meta] at call
    time [clock], as the source maps the fields. *)
Definition daily_row_of (meta : Meta.t) (clock : Z) (row : Price.t) : Prop :=
  Price.open row = Meta.regularMarketPrice meta
  /\ Price.close row = Meta.regularMarketPrice meta
  /\ Price.high row = Meta.regularMarketDayHigh meta
  /\ Price.low row = Meta.regularMarketDayLow meta
  /\ Price.volume row = Meta.regularMarketVolume meta
  /\ Price.date row = clock.

(** ** Pacing *)

(** The trace only grows. *)
Definition trace_extends (w0 w : World) : Prop :=
  exists later, trace w = trace w0 ++ later.

(** Scanning a trace: [slept] is the total of the pauses since the last
    request, [None] before the first request.  Every request after the
    first must find at least [delay] milliseconds slept. *)
Fixpoint paced_from (delay : Z) (slept : option Z) (tr : list Event) : bool :=
  match tr with
  | [] => true
  | EvHttpGet _ :: rest =>
      match slept with
      | Some s => (delay <=? s)%Z && paced_from delay (Some 0) rest
      | None => paced_from delay (Some 0) rest
      end
  | EvSleep ms :: rest => paced_from delay (option_map (Z.add ms) slept) rest
  | _ :: rest => paced_from delay slept rest
  end.

(** Between any two consecutive requests of the trace at least [delay]
    milliseconds of pause. *)
Definition paced (delay : Z) (tr : list Event) : bool :=
  paced_from delay None tr.

(** ** Scheduler *)

Definition market_close_task : ScheduledTask :=
  mkTask "30 21 * * 1-5" MarketCloseCallback.

Definition health_check_task : ScheduledTask :=
  mkTask "0 * * * *" HealthCheckCallback.

Definition is_market_close (c : Callback) : bool :=
  match c with
  | MarketCloseCallback => true
  | HealthCheckCallback => false
  end.

Definition is_health_check (c : Callback) : bool :=
  match c with
  | MarketCloseCallback => false
  | HealthCheckCallback => true
  end.

(** How many market-close (health-check) callbacks fire at minute [t]. *)
Definition market_close_firings (t : CronTime) (w : World) : nat :=
  List.length (filter is_market_close (firing t w)).

Definition health_check_firings (t : CronTime) (w : World) : nat :=
  List.length (filter is_health_check (firing t w)).

(** ** Test doubles *)

Definition number (n : Z) (d : positive) : JsValue := JsNumber (Qmake n d).

Definition document (results : list YahooChartResult.t)
  : YahooFinanceResponse.t :=
  YahooFinanceResponse.mk (Some (Some results)).

(** An empty database at clock [t], no scheduler started, a database
    that never fails, and [p] as the provider. *)
Definition fresh_world (p : string -> HttpReply) (t : Z) : World :=
  mkWorld [] [] 1 1 t p [] [] false [].

(** A provider whose series comes back newest first. *)
Definition descending_result : YahooChartResult.t :=
  YahooChartResult.mk
    (Meta.mk "USD" "AAPL" (number 3 1) (number 4 1) (number 2 1)
             (number 30 1) (number 1 1) 200)
    [200; 100]
    [Quote.mk [number 3 1; number 1 1] [number 4 1; number 2 1]
              [number 2 1; number 1 1] [number 3 1; number 1 1]
              [number 30 1; number 10 1]].

Definition descending_provider (url : string) : HttpReply :=
  HttpOk (document [descending_result]).

(** A provider that knows AAPL, in either letter case: a snapshot at
    150.25 with a day range of 149 to 151, and a three-point series whose
    middle point has no quotes.  For any other symbol it answers with an
    empty result set. *)
Definition aapl_meta : Meta.t :=
  Meta.mk "USD" "AAPL" (number 601 4) (number 151 1) (number 149 1)
          (number 1000 1) (number 150 1) 1700000000.

Definition aapl_quote : Quote.t :=
  Quote.mk [number 1 1; JsNull; number 3 1] [number 2 1; JsNull; number 4 1]
           [number 1 1; JsNull; number 2 1] [number 1 1; JsNull; number 3 1]
           [number 10 1; JsNull; number 30 1].

Definition aapl_result : YahooChartResult.t :=
  YahooChartResult.mk aapl_meta [100; 200; 300] [aapl_quote].

Definition stub_provider (url : string) : HttpReply :=
  if String.prefix "https://query1.finance.yahoo.com/v8/finance/chart/AAPL" url
  then HttpOk (document [aapl_result])
  else if String.prefix "https://query1.finance.yahoo.com/v8/finance/chart/aapl" url
  then HttpOk (document [aapl_result])
  else HttpOk (document []).

(** An empty database with AAPL registered, at clock 5000. *)
Definition registered_world : World :=
  snd (ensureAssetExists "AAPL" (fresh_world stub_provider 5000)).

(** An empty database that cannot be reached for the next statement. *)
Definition unreachable_world : World :=
  mkWorld [] [] 1 1 5000 stub_provider
          [Some (JsError "Can't reach database server")] [] false [].

(** An empty database with ZZZZ and AAPL registered, at clock 0. *)
Definition two_assets_world : World :=
  snd ((_ <- ensureAssetExists "ZZZZ" ;; ensureAssetExists "AAPL")
         (fresh_world stub_provider 0)).

(** Monday, 21:30. *)
Definition monday_close : CronTime := mkCronTime 30 21 2 11 1.

(** ** Runs of the drivers *)

(** Events that are neither a request to the provider nor a pause. *)
Definition quiet (e : Event) : bool :=
  match e with
  | EvHttpGet _ => false
  | EvSleep _ => false
  | _ => true
  end.

(** What a run added to the trace. *)
Definition events_since (before after : World) : list Event :=
  skipn (List.length (trace before)) (trace after).

(** The URLs requested, in order. *)
Definition requests (evs : list Event) : list string :=
  flat_map (fun e => match e with EvHttpGet url => [url] | _ => [] end) evs.

(** The pauses taken, in order. *)
Definition pauses (evs : list Event) : list Z :=
  flat_map (fun e => match e with EvSleep ms => [ms] | _ => [] end) evs.

(** The statements sent to the database, in order. *)
Definition statements (evs : list Event) : list DbStatement :=
  flat_map (fun e => match e with EvDb st => [st] | _ => [] end) evs.

(** The lines written with [console.error], in order. *)
Definition errors_logged (evs : list Event) : list string :=
  flat_map (fun e => match e with EvConsoleError m => [m] | _ => [] end) evs.

(** Whether the provider has a snapshot for [symbol]. *)
Definition has_snapshot (p : string -> HttpReply) (symbol : string) : bool :=
  match fetch_daily p symbol with
  | Some _ => true
  | None => false
  end.

(** Whether the provider has a series for [symbol] that can be
    normalised. *)
Definition has_series (p : string -> HttpReply) (symbol : string)
    (rangeKey : option string) : bool :=
  match fetch_historical p symbol rangeKey with
  | Some _ => true
  | None => false
  end.

(** The string is ASCII text: every byte is below 128.  On such a string
    [toUpperCase] is what [String.prototype.toUpperCase] computes. *)
Fixpoint is_ascii (s : string) : bool :=
  match s with
  | EmptyString => true
  | String c rest => Nat.ltb (nat_of_ascii c) 128 && is_ascii rest
  end.

(** Every registered symbol is ASCII text in upper case already. *)
Definition all_upper (w : World) : Prop :=
  Forall (fun a => is_ascii (Asset.symbol a) = true
                   /\ toUpperCase (Asset.symbol a) = Asset.symbol a)
         (assets w).

(** A series of two points, both without quotes. *)
Definition closed_market_result : YahooChartResult.t :=
  YahooChartResult.mk aapl_meta [100; 200]
    [Quote.mk [JsNull; JsNull] [JsNull; JsNull] [JsNull; JsNull]
              [JsNull; JsNull] [JsNull; JsNull]].

(** The state of the pacing scan allows a request right away: no request
    was seen yet, or at least a second of pause since the last one. *)
Definition rested (slept : option Z) : Prop :=
  match slept with
  | None => True
  | Some s => 1000 <= s
  end.

(** How many of [symbols] the provider has a snapshot for. *)
Definition snapshots_available (p : string -> HttpReply)
    (symbols : list string) : nat :=
  List.length (filter (has_snapshot p) symbols).

(** The outcome the bulk loader pushes for [symbol], read off the
    provider's answer alone. *)
Definition outcome_of (p : string -> HttpReply) (range : string)
    (symbol : string) : BulkLoadResult.t :=
  match fetch_historical p symbol (Some range) with
  | Some historicalData =>
      BulkLoadResult.mk symbol (Some (List.length historicalData))
                        Status.success None
  | None =>
      BulkLoadResult.mk symbol None Status.failed
        (Some ("Fallo al obtener precios históricos para " ++ symbol)%string)
  end.

(** How many of [symbols] the provider has a series for. *)
Definition series_available (p : string -> HttpReply) (range : string)
    (symbols : list string) : nat :=
  List.length (filter (fun s => has_series p s (Some range)) symbols).

(** Every point of a series has its row: the symbol is registered and the
    Price table has the key (asset, date) of each point. *)
Definition covered (symbol : string) (historicalData : list HistoricalItem.t)
    (w : World) : Prop :=
  exists a,
    find_asset symbol (assets w) = Some a
    /\ Forall (fun item =>
                 In (Asset.id a, HistoricalItem.date item)
                    (map price_key (prices w)))
              historicalData.

(** The series the provider has for each of [symbols] is covered. *)
Definition all_covered (symbols : list string) (range : string) (w : World)
  : Prop :=
  Forall (fun s =>
            match fetch_historical (provider w) s (Some range) with
            | Some historicalData => covered s historicalData w
            | None => True
            end)
         symbols.

(** [n] rounds of [start(); stop()] on the scheduler. *)
Fixpoint start_stop_cycles (n : nat) : Async unit :=
  match n with
  | O => ret tt
  | S k => _ <- start ;; _ <- stop ;; start_stop_cycles k
  end.

(** 1 when the cron expression matches the minute, else 0. *)
Definition matching (expr : string) (t : CronTime) : nat :=
  if cron_matches expr t then 1%nat else 0%nat.

(** ** The manual drivers *)

(** The symbol has an Asset. *)
Definition registered (symbol : string) (w : World) : Prop :=
  exists a, find_asset symbol (assets w) = Some a.

(** How many batches of [size] follow the first one in a list of [n]
    items: the number of pauses between batches. *)
Definition batches_after_first (n size : nat) : nat := ((n - 1) / size)%nat.

(** * Properties *)

(** ** The monad's control flow *)

Lemma try_catch_console_error (m : Async unit) (msg : string) (w : World) :
  fst (try_catch m (fun _ => console_error msg) w) = Normal tt.
Proof.
  unfold try_catch. destruct (m w) as [[[]|e] w1]; reflexivity.
Qed.

Lemma saveHistoricalPricesToDatabase_returns symbol historicalData w :
  fst (saveHistoricalPricesToDatabase symbol historicalData w) = Normal tt.
Proof. apply try_catch_console_error. Qed.

Lemma saveDailyPriceToDatabase_returns priceData w :
  fst (saveDailyPriceToDatabase priceData w) = Normal tt.
Proof. apply try_catch_console_error. Qed.

(** ** Normalisation of a historical series *)

Section Normalisation.

Variable q : Quote.t.

Lemma map_with_index_nth_error {A B} (f : A -> nat -> B) l i n x :
  nth_error l n = Some x ->
  nth_error (map_with_index f i l) n = Some (f x (i + n)%nat).
Proof.
  revert i n. induction l as [|y l IH]; intros i n H.
  - destruct n; discriminate.
  - destruct n as [|n]; simpl in *.
    + inversion H; subst. now rewrite Nat.add_0_r.
    + rewrite (IH (S i) n H). f_equal. f_equal. lia.
Qed.

(** Kept points plus dropped points make up the raw series. *)
Lemma kept_plus_null ts i :
  (List.length (filter open_not_null (map_with_index (zip_point q) i ts))
   + List.length
       (filter (fun k => negb (strict_neq_null (js_index (Quote.open q) k)))
               (seq i (List.length ts)))
   = List.length ts)%nat.
Proof.
  revert i. induction ts as [|t ts IH]; intro i; simpl; [reflexivity|].
  unfold open_not_null at 1. simpl.
  specialize (IH (S i)).
  destruct (strict_neq_null (js_index (Quote.open q) i)); simpl; lia.
Qed.

Lemma zipped_dates_bounded ts i lo :
  Forall (Z.le lo) ts ->
  Forall (Z.le (lo * 1000))
    (map HistoricalItem.date
         (filter open_not_null (map_with_index (zip_point q) i ts))).
Proof.
  revert i. induction ts as [|t ts IH]; intros i H; simpl; [constructor|].
  inversion H; subst.
  destruct (open_not_null (zip_point q t i)); simpl; auto.
  constructor; auto. lia.
Qed.

(** The filter keeps the provider's order. *)
Lemma kept_dates_ascending ts i :
  ascending ts ->
  ascending (map HistoricalItem.date
               (filter open_not_null (map_with_index (zip_point q) i ts))).
Proof.
  unfold ascending. revert i.
  induction ts as [|t ts IH]; intros i H; simpl; [constructor|].
  inversion H; subst.
  destruct (open_not_null (zip_point q t i)); simpl; auto.
  constructor; auto.
  now apply zipped_dates_bounded.
Qed.

End Normalisation.

(** What a historical fetch does on a document with a quote object. *)
Lemma getHistoricalPrices_on_document w symbol rangeKey data result q rest :
  provider w (request_url symbol rangeKey) = HttpOk data ->
  first_result data = Some result ->
  YahooChartResult.quote result = q :: rest ->
  let historicalData :=
    filter open_not_null
      (map_with_index (zip_point q) 0 (YahooChartResult.timestamp result)) in
  getHistoricalPrices symbol rangeKey w =
    (Normal historicalData,
     snd (saveHistoricalPricesToDatabase symbol historicalData
            (emit w (EvHttpGet (request_url symbol rangeKey))))).
Proof.
  intros Hp Hr Hq historicalData.
  unfold getHistoricalPrices, try_catch, bind, axios_get.
  fold (request_url symbol rangeKey). rewrite Hp, Hr, Hq. simpl hd_error.
  assert (Hn : normalize (YahooChartResult.timestamp result) (Some q)
               = Normal historicalData).
  { unfold normalize, historicalData.
    destruct (YahooChartResult.timestamp result); reflexivity. }
  unfold lift_completion. rewrite Hn.
  pose proof (saveHistoricalPricesToDatabase_returns symbol historicalData
                (emit w (EvHttpGet (request_url symbol rangeKey)))) as Hs.
  destruct (saveHistoricalPricesToDatabase symbol historicalData
              (emit w (EvHttpGet (request_url symbol rangeKey))))
    as [c w1].
  simpl in Hs. subst c. reflexivity.
Qed.

(** C4 (as amended): a historical fetch whose raw series has N timestamps,
    K of them with a null open, returns and hands to the storage step
    exactly N-K points, each one the positional zip of the timestamp array
    with the OHLCV arrays; a bulk load reports that count; the points stay
    in the provider's order, so they ascend when the provider's timestamps
    do. *)
Theorem C4_normalized_series w symbol rangeKey data result q rest :
  provider w (request_url symbol rangeKey) = HttpOk data ->
  first_result data = Some result ->
  YahooChartResult.quote result = q :: rest ->
  let ts := YahooChartResult.timestamp result in
  let zipped := map_with_index (zip_point q) 0 ts in
  let historicalData := filter open_not_null zipped in
  let kept := (List.length ts - null_open_count ts q)%nat in
  getHistoricalPrices symbol rangeKey w =
    (Normal historicalData,
     snd (saveHistoricalPricesToDatabase symbol historicalData
            (emit w (EvHttpGet (request_url symbol rangeKey)))))
  /\ List.length historicalData = kept
  /\ (forall i t, nth_error ts i = Some t ->
        nth_error zipped i =
          Some (HistoricalItem.mk (t * 1000)
                  (js_index (Quote.open q) i) (js_index (Quote.high q) i)
                  (js_index (Quote.low q) i) (js_index (Quote.close q) i)
                  (js_index (Quote.volume q) i)))
  /\ (forall range, rangeKey = Some (or_default range "5y") ->
        fst (loadBulkHistoricalData [symbol] range w) =
          Normal [BulkLoadResult.mk symbol (Some kept) Status.success None])
  /\ (ascending ts ->
      ascending (map HistoricalItem.date historicalData)).
Proof.
  intros Hp Hr Hq ts zipped historicalData kept.
  pose proof (getHistoricalPrices_on_document w symbol rangeKey data result
                q rest Hp Hr Hq) as Hget.
  cbv zeta in Hget. fold ts in Hget. fold zipped in Hget.
  fold historicalData in Hget.
  assert (Hlen : List.length historicalData = kept).
  { unfold kept, null_open_count, historicalData, zipped.
    pose proof (kept_plus_null q ts 0). lia. }
  split; [exact Hget|]. split; [exact Hlen|]. split; [|split].
  - intros i t Hi. unfold zipped.
    rewrite (map_with_index_nth_error (zip_point q) ts 0 i t Hi).
    reflexivity.
  - intros range ->.
    unfold loadBulkHistoricalData, try_catch, bind. simpl bulk_loop.
    unfold bind, bulk_step, try_catch, bind.
    rewrite Hget. unfold sleep, ret. simpl. now rewrite Hlen.
  - apply kept_dates_ascending.
Qed.

(** C4, as first stated, fails on a series the provider sends newest
    first: both points are kept and come back in that order. *)
Lemma C4_counterexample_unsorted_provider :
  exists historicalData,
    fst (getHistoricalPrices "AAPL" (Some "5y")
           (fresh_world descending_provider 0)) = Normal historicalData
    /\ List.length historicalData = 2%nat
    /\ ~ ascending (map HistoricalItem.date historicalData).
Proof.
  eexists. split; [vm_compute; reflexivity|]. split; [reflexivity|].
  unfold ascending. simpl. intro H.
  inversion H as [|a l _ Hall]; subst.
  inversion Hall as [|b l' Hle _]; subst. lia.
Qed.

(** The AAPL series of the stub: three points in ascending order, the
    middle one without quotes; two are kept, in ascending order, and the
    bulk load counts two records. *)
Lemma C4_witness :
  let w := fresh_world stub_provider 0 in
  (exists historicalData,
     fst (getHistoricalPrices "AAPL" (Some "5y") w) = Normal historicalData
     /\ List.length historicalData = 2%nat
     /\ ascending (map HistoricalItem.date historicalData))
  /\ fst (loadBulkHistoricalData ["AAPL"] None w) =
       Normal [BulkLoadResult.mk "AAPL" (Some 2%nat) Status.success None].
Proof.
  intro w.
  destruct (C4_normalized_series w "AAPL" (Some "5y") (document [aapl_result])
              aapl_result aapl_quote [] eq_refl eq_refl eq_refl)
    as (Hget & Hlen & _ & Hbulk & Hasc).
  split.
  - eexists. rewrite Hget. split; [reflexivity|]. split; [exact Hlen|].
    apply Hasc. repeat constructor; lia.
  - apply (Hbulk None). reflexivity.
Defined.

(** ** The bulk loop *)

(** One turn of the loop pushes exactly one outcome, whatever the fetch
    does, and neither the outcome nor the world it leaves depends on what
    was pushed before. *)
Lemma bulk_step_pushes_one range symbol w :
  exists r w',
    BulkLoadResult.symbol r = symbol
    /\ well_tagged r
    /\ forall acc,
         bulk_step range symbol acc w = (Normal (acc ++ [r]), w').
Proof.
  unfold bulk_step, try_catch, bind.
  destruct (getHistoricalPrices symbol (Some range) w) as [[data|e] w1].
  - exists (BulkLoadResult.mk symbol (Some (List.length data))
                              Status.success None).
    eexists. repeat split; try discriminate.
  - exists (BulkLoadResult.mk symbol None Status.failed
                              (Some (error_message_or_unknown e))).
    eexists. repeat split; try discriminate.
Qed.

Lemma bulk_loop_pushes_all range symbols : forall w,
  exists rs w',
    map BulkLoadResult.symbol rs = symbols
    /\ Forall well_tagged rs
    /\ forall acc,
         bulk_loop range symbols acc w = (Normal (acc ++ rs), w').
Proof.
  induction symbols as [|s symbols IH]; intro w.
  - exists [], w. repeat split; [constructor|].
    intro acc. simpl. unfold ret. now rewrite app_nil_r.
  - destruct (bulk_step_pushes_one range s w) as (r & w1 & Hs & Ht & Hstep).
    destruct (IH w1) as (rs & w2 & Hm & Hf & Hloop).
    exists (r :: rs), w2. split; [simpl; now rewrite Hs, Hm|].
    split; [now constructor|].
    intro acc. simpl. unfold bind.
    rewrite (Hstep acc), (Hloop (acc ++ [r])).
    now rewrite <- app_assoc.
Qed.

Lemma bulk_loop_app range s1 : forall s2 acc w,
  bulk_loop range (s1 ++ s2) acc w =
    (acc' <- bulk_loop range s1 acc ;; bulk_loop range s2 acc') w.
Proof.
  induction s1 as [|s s1 IH]; intros s2 acc w; simpl.
  - reflexivity.
  - unfold bind.
    destruct (bulk_step range s acc w) as [[acc1|e] w1]; [|reflexivity].
    rewrite IH. reflexivity.
Qed.

Lemma loadBulkHistoricalData_is_loop symbols range w :
  loadBulkHistoricalData symbols range w =
    bulk_loop (or_default range "5y") symbols [] w.
Proof.
  unfold loadBulkHistoricalData, try_catch, bind.
  destruct (bulk_loop_pushes_all (or_default range "5y") symbols w)
    as (rs & w' & _ & _ & Hloop).
  rewrite (Hloop []). reflexivity.
Qed.

(** C3: a bulk load returns normally, with one outcome per input symbol, in
    input order, each tagged success (with a count) or failed (with a
    message); and whatever happened to these symbols, outcomes for any
    further symbols follow theirs, produced from where this batch left
    the world: no failure cuts a batch short.  Holds for the empty list as
    well. *)
Theorem C3_one_outcome_per_symbol symbols range w :
  (exists results,
     fst (loadBulkHistoricalData symbols range w) = Normal results
     /\ map BulkLoadResult.symbol results = symbols
     /\ List.length results = List.length symbols
     /\ Forall well_tagged results)
  /\ (forall further,
        exists results1 results2,
          fst (loadBulkHistoricalData symbols range w) = Normal results1
          /\ fst (loadBulkHistoricalData further range
                    (snd (loadBulkHistoricalData symbols range w)))
             = Normal results2
          /\ map BulkLoadResult.symbol results2 = further
          /\ fst (loadBulkHistoricalData (symbols ++ further) range w)
             = Normal (results1 ++ results2)).
Proof.
  set (r := or_default range "5y").
  destruct (bulk_loop_pushes_all r symbols w) as (rs & w1 & Hm & Hf & Hloop).
  assert (Hrun : loadBulkHistoricalData symbols range w = (Normal rs, w1)).
  { rewrite loadBulkHistoricalData_is_loop. fold r. now rewrite (Hloop []). }
  rewrite Hrun. simpl. split.
  - exists rs. split; [reflexivity|]. split; [exact Hm|].
    split; [rewrite <- Hm; now rewrite length_map|exact Hf].
  - intro further.
    destruct (bulk_loop_pushes_all r further w1) as (r2 & w2 & Hm2 & _ & H2).
    exists rs, r2.
    rewrite !loadBulkHistoricalData_is_loop. fold r.
    rewrite (H2 []). simpl.
    split; [reflexivity|]. split; [reflexivity|]. split; [exact Hm2|].
    rewrite (bulk_loop_app r symbols further [] w).
    unfold bind. rewrite (Hloop []). simpl.
    now rewrite (H2 rs).
Qed.

(** ** Keys of the Price table *)

Lemma same_key_eq k1 k2 : same_key k1 k2 = true <-> k1 = k2.
Proof.
  destruct k1 as [a1 d1], k2 as [a2 d2]. unfold same_key. simpl.
  rewrite andb_true_iff, !Z.eqb_eq. split.
  - intros [-> ->]. reflexivity.
  - intro H. inversion H. auto.
Qed.

Lemma key_taken_In k rows :
  key_taken k rows = true <-> In k (map price_key rows).
Proof.
  unfold key_taken. rewrite existsb_exists, in_map_iff. split.
  - intros (p & Hin & Hk). apply same_key_eq in Hk. eauto.
  - intros (p & Hk & Hin). exists p. split; [exact Hin|].
    now apply same_key_eq.
Qed.

Lemma key_free_not_In k rows :
  key_taken k rows = false <-> ~ In k (map price_key rows).
Proof.
  rewrite <- key_taken_In. destruct (key_taken k rows); split; intro H;
    try discriminate; try reflexivity; try (intro; discriminate).
  exfalso. now apply H.
Qed.

Lemma NoDup_keys_snoc rows row :
  NoDup (map price_key rows) ->
  key_taken (price_key row) rows = false ->
  NoDup (map price_key (rows ++ [row])).
Proof.
  intros Hnd Hfree. apply key_free_not_In in Hfree.
  rewrite map_app. simpl.
  apply NoDup_app; [exact Hnd| |].
  - constructor; [intros []|constructor].
  - intros k Hk [<-|[]]. contradiction.
Qed.

(** ** One [INSERT ... ON CONFLICT DO NOTHING] *)

Lemma insert_skipping_extends clock data : forall rows seq,
  exists added, fst (insert_skipping clock data rows seq) = rows ++ added.
Proof.
  induction data as [|d data IH]; intros rows seq; simpl.
  - exists []. now rewrite app_nil_r.
  - destruct (key_taken _ rows).
    + apply IH.
    + destruct (IH (rows ++ [row_of_input seq clock d]) (seq + 1))
        as (added & ->).
      eexists. now rewrite <- app_assoc.
Qed.

Lemma insert_skipping_unique clock data : forall rows seq,
  NoDup (map price_key rows) ->
  NoDup (map price_key (fst (insert_skipping clock data rows seq))).
Proof.
  induction data as [|d data IH]; intros rows seq Hnd; simpl; [exact Hnd|].
  destruct (key_taken _ rows) eqn:Hk.
  - now apply IH.
  - apply IH. now apply NoDup_keys_snoc.
Qed.

Lemma insert_all_extends clock data : forall rows seq rows' seq',
  insert_all clock data rows seq = Some (rows', seq') ->
  exists added, rows' = rows ++ added.
Proof.
  induction data as [|d data IH]; intros rows seq rows' seq' H; simpl in H.
  - inversion H; subst. exists []. now rewrite app_nil_r.
  - destruct (key_taken _ rows); [discriminate|].
    destruct (IH _ _ _ _ H) as (added & ->).
    eexists. now rewrite <- app_assoc.
Qed.

Lemma insert_all_unique clock data : forall rows seq rows' seq',
  NoDup (map price_key rows) ->
  insert_all clock data rows seq = Some (rows', seq') ->
  NoDup (map price_key rows').
Proof.
  induction data as [|d data IH]; intros rows seq rows' seq' Hnd H;
    simpl in H.
  - inversion H; subst. exact Hnd.
  - destruct (key_taken _ rows) eqn:Hk; [discriminate|].
    eapply IH; [|exact H]. now apply NoDup_keys_snoc.
Qed.

Lemma row_of_input_key id clock d k :
  input_key d = Some k -> price_key (row_of_input id clock d) = k.
Proof.
  unfold input_key, price_key, row_of_input. simpl.
  destruct (PriceInput.date d); intro H; inversion H. reflexivity.
Qed.

(** Rows whose keys are all in the table already: nothing is inserted. *)
Lemma insert_skipping_all_taken clock data : forall rows seq,
  Forall (fun d => exists k, input_key d = Some k
                             /\ In k (map price_key rows)) data ->
  insert_skipping clock data rows seq = (rows, seq).
Proof.
  induction data as [|d data IH]; intros rows seq H; simpl; [reflexivity|].
  inversion H as [|? ? (k & Hk & Hin) Hrest]; subst.
  rewrite (row_of_input_key seq clock d k Hk).
  apply key_taken_In in Hin. rewrite Hin. now apply IH.
Qed.

(** After the statement every dated input row has its key in the table. *)
Lemma insert_skipping_covers clock data : forall rows seq,
  Forall (fun d => input_key d <> None) data ->
  Forall (fun d => exists k, input_key d = Some k
                             /\ In k (map price_key
                                        (fst (insert_skipping clock data rows seq))))
         data.
Proof.
  induction data as [|d data IH]; intros rows seq H; [constructor|].
  inversion H as [|? ? Hd Hrest]; subst.
  destruct (input_key d) as [k|] eqn:Hk; [|contradiction].
  simpl. rewrite (row_of_input_key seq clock d k Hk).
  destruct (key_taken k rows) eqn:Htaken.
  - constructor; [|now apply IH].
    exists k. split; [exact Hk|].
    destruct (insert_skipping_extends clock data rows seq) as (added & ->).
    rewrite map_app, in_app_iff. left. now apply key_taken_In.
  - constructor; [|now apply IH].
    exists k. split; [exact Hk|].
    destruct (insert_skipping_extends clock data
                (rows ++ [row_of_input seq clock d]) (seq + 1))
      as (added & ->).
    rewrite !map_app, !in_app_iff. left. right. simpl.
    left. now apply row_of_input_key.
Qed.

(** ** Preservation through the control flow *)

Lemma preserves_ret P {A} (a : A) : preserves P (ret a).
Proof. intros w H. exact H. Qed.

Lemma preserves_throw P {A} e : preserves P (@throw A e).
Proof. intros w H. exact H. Qed.

Lemma preserves_lift_completion P {A} (c : Completion A) :
  preserves P (lift_completion c).
Proof. intros w H. exact H. Qed.

Lemma preserves_bind P {A B} (m : Async A) (k : A -> Async B) :
  preserves P m -> (forall a, preserves P (k a)) -> preserves P (bind m k).
Proof.
  intros Hm Hk w H. unfold bind.
  specialize (Hm w H). destruct (m w) as [[a|e] w1]; simpl in *.
  - now apply Hk.
  - exact Hm.
Qed.

Lemma preserves_try_catch P {A} (m : Async A) (h : Thrown -> Async A) :
  preserves P m -> (forall e, preserves P (h e)) ->
  preserves P (try_catch m h).
Proof.
  intros Hm Hh w H. unfold try_catch.
  specialize (Hm w H). destruct (m w) as [[a|e] w1]; simpl in *.
  - exact Hm.
  - now apply Hh.
Qed.

Lemma preserves_if P {A} (b : bool) (m1 m2 : Async A) :
  preserves P m1 -> preserves P m2 -> preserves P (if b then m1 else m2).
Proof. destruct b; auto. Qed.

Create HintDb preserve.
#[local] Hint Resolve preserves_ret preserves_throw preserves_lift_completion
  preserves_bind preserves_try_catch preserves_if : preserve.

Section Invariant.

Variable P : World -> Prop.
Hypothesis P_inv : invariant P.

Lemma preserves_log e : preserves P (log e).
Proof. apply (inv_log P P_inv). Qed.

Lemma preserves_console_error msg : preserves P (console_error msg).
Proof. apply preserves_log. Qed.

Lemma preserves_console_warn msg : preserves P (console_warn msg).
Proof. apply preserves_log. Qed.

Lemma preserves_sleep ms : preserves P (sleep ms).
Proof. apply (inv_sleep P P_inv). Qed.

Lemma preserves_axios_get url : preserves P (axios_get url).
Proof. apply (inv_axios_get P P_inv). Qed.

Lemma preserves_findMany : preserves P prisma_asset_findMany_symbols.
Proof. apply (inv_findMany P P_inv). Qed.

Lemma preserves_upsert ws cs cn ct :
  preserves P (prisma_asset_upsert ws cs cn ct).
Proof. apply (inv_upsert P P_inv). Qed.

Lemma preserves_create d : preserves P (prisma_price_create d).
Proof. apply (inv_create P P_inv). Qed.

Lemma preserves_createMany d skip :
  preserves P (prisma_price_createMany d skip).
Proof. apply (inv_createMany P P_inv). Qed.

#[local] Hint Resolve preserves_log preserves_console_error preserves_console_warn
  preserves_sleep preserves_axios_get preserves_findMany
  preserves_upsert preserves_create preserves_createMany : preserve.

Lemma preserves_ensureAssetExists symbol :
  preserves P (ensureAssetExists symbol).
Proof. unfold ensureAssetExists. auto 10 with preserve. Qed.
#[local] Hint Resolve preserves_ensureAssetExists : preserve.

Lemma preserves_saveDailyPriceToDatabase priceData :
  preserves P (saveDailyPriceToDatabase priceData).
Proof. unfold saveDailyPriceToDatabase. auto 10 with preserve. Qed.

Lemma preserves_saveHistoricalPricesToDatabase symbol historicalData :
  preserves P (saveHistoricalPricesToDatabase symbol historicalData).
Proof.
  unfold saveHistoricalPricesToDatabase.
  apply preserves_try_catch; [|auto with preserve].
  apply preserves_bind; [auto with preserve|]. intro asset.
  apply preserves_if; auto 10 with preserve.
Qed.
#[local] Hint Resolve preserves_saveDailyPriceToDatabase
  preserves_saveHistoricalPricesToDatabase : preserve.

Lemma preserves_getDailyPrices symbol : preserves P (getDailyPrices symbol).
Proof.
  unfold getDailyPrices.
  apply preserves_try_catch; [|auto with preserve].
  apply preserves_bind; [auto with preserve|]. intro data.
  destruct (first_result data); auto 10 with preserve.
Qed.

Lemma preserves_getHistoricalPrices symbol rangeKey :
  preserves P (getHistoricalPrices symbol rangeKey).
Proof.
  unfold getHistoricalPrices.
  apply preserves_try_catch; [|auto with preserve].
  apply preserves_bind; [auto with preserve|]. intro data.
  destruct (first_result data); auto 10 with preserve.
Qed.
#[local] Hint Resolve preserves_getDailyPrices preserves_getHistoricalPrices
  : preserve.

Lemma preserves_bulk_step range symbol results :
  preserves P (bulk_step range symbol results).
Proof. unfold bulk_step. auto 10 with preserve. Qed.
#[local] Hint Resolve preserves_bulk_step : preserve.

Lemma preserves_bulk_loop range symbols : forall results,
  preserves P (bulk_loop range symbols results).
Proof.
  induction symbols as [|s symbols IH]; intro results; simpl;
    auto with preserve.
Qed.
#[local] Hint Resolve preserves_bulk_loop : preserve.

Lemma preserves_loadBulkHistoricalData symbols range :
  preserves P (loadBulkHistoricalData symbols range).
Proof. unfold loadBulkHistoricalData. auto 10 with preserve. Qed.

Lemma preserves_daily_step symbol counters :
  preserves P (daily_step symbol counters).
Proof.
  unfold daily_step. destruct counters as [processed failed].
  auto 10 with preserve.
Qed.
#[local] Hint Resolve preserves_daily_step : preserve.

Lemma preserves_daily_loop symbols : forall counters,
  preserves P (daily_loop symbols counters).
Proof.
  induction symbols as [|s symbols IH]; intro counters; simpl;
    auto with preserve.
Qed.
#[local] Hint Resolve preserves_daily_loop : preserve.

Lemma preserves_executeDailyClose : preserves P executeDailyClose.
Proof.
  unfold executeDailyClose.
  apply preserves_try_catch; [|auto with preserve].
  apply preserves_bind; [auto with preserve|].
  intro symbols. apply preserves_if; auto 10 with preserve.
Qed.

End Invariant.

(** ** What each statement does to the tables *)

Lemma find_asset_none symbol l :
  find_asset symbol l = None -> ~ In symbol (map Asset.symbol l).
Proof.
  unfold find_asset. intros H Hin. apply in_map_iff in Hin.
  destruct Hin as (a & Ha & Hin).
  pose proof (find_none _ _ H a Hin) as Hf. simpl in Hf.
  rewrite Ha, String.eqb_refl in Hf. discriminate.
Qed.

(** The upsert leaves the Asset table alone or appends the created row;
    it never touches the Price table. *)
Lemma upsert_tables ws cs cn ct w :
  let w' := snd (prisma_asset_upsert ws cs cn ct w) in
  prices w' = prices w
  /\ (assets w' = assets w
      \/ (find_asset cs (assets w) = None
          /\ assets w' = assets w ++ [Asset.mk (asset_seq w) cs cn ct])).
Proof.
  unfold prisma_asset_upsert, bind, db_statement.
  destruct (hd None (db_faults w)); simpl; [auto|].
  destruct (find_asset ws (assets w)); simpl; [auto|].
  destruct (find_asset cs (assets w)) eqn:Hf; simpl; auto.
Qed.

(** A single-row insert leaves the Price table alone or appends the row,
    whose key was free; it never touches the Asset table. *)
Lemma create_tables d w :
  let w' := snd (prisma_price_create d w) in
  assets w' = assets w
  /\ (prices w' = prices w
      \/ (key_taken (price_key (row_of_input (price_seq w) (now w) d))
                    (prices w) = false
          /\ prices w' = prices w ++ [row_of_input (price_seq w) (now w) d])).
Proof.
  unfold prisma_price_create, bind, db_statement.
  destruct (hd None (db_faults w)); simpl; [auto|].
  destruct (key_taken _ (prices w)) eqn:Hk; simpl; auto.
Qed.

(** A bulk insert appends rows with fresh, distinct keys. *)
Lemma createMany_tables d skip w :
  let w' := snd (prisma_price_createMany d skip w) in
  assets w' = assets w
  /\ (exists added, prices w' = prices w ++ added)
  /\ (NoDup (map price_key (prices w)) -> NoDup (map price_key (prices w'))).
Proof.
  unfold prisma_price_createMany, bind, db_statement.
  destruct (hd None (db_faults w)); simpl.
  { split; [reflexivity|]. split; [|auto]. exists []. now rewrite app_nil_r. }
  destruct skip.
  - pose proof (insert_skipping_extends (now w) d (prices w) (price_seq w))
      as Hext.
    pose proof (insert_skipping_unique (now w) d (prices w) (price_seq w))
      as Hnd.
    destruct (insert_skipping (now w) d (prices w) (price_seq w))
      as [rows seq].
    simpl in *. auto.
  - destruct (insert_all (now w) d (prices w) (price_seq w))
      as [[rows seq]|] eqn:Hall; simpl.
    + split; [reflexivity|]. split.
      * eapply insert_all_extends; exact Hall.
      * intro Hnd. eapply insert_all_unique; [exact Hnd|exact Hall].
    + split; [reflexivity|]. split; [|auto].
      exists []. now rewrite app_nil_r.
Qed.

(** ** The invariants of the schema *)

(** A property of the tables alone is an invariant as soon as the three
    writing statements preserve it. *)
Lemma invariant_of_tables P :
  tables_only P ->
  (forall ws cs cn ct, preserves P (prisma_asset_upsert ws cs cn ct)) ->
  (forall d, preserves P (prisma_price_create d)) ->
  (forall d skip, preserves P (prisma_price_createMany d skip)) ->
  invariant P.
Proof.
  intros Ht Hu Hc Hm. constructor; auto.
  - intros e w H. now apply (Ht w).
  - intros ms w H. now apply (Ht w).
  - intros url w H. unfold axios_get.
    destruct (provider w url); now apply (Ht w).
  - intros w H. unfold prisma_asset_findMany_symbols, bind, db_statement.
    destruct (hd None (db_faults w)); now apply (Ht w).
Qed.

Lemma unique_prices_invariant : invariant unique_prices.
Proof.
  apply invariant_of_tables; unfold tables_only, preserves, unique_prices.
  - intros w w' _ Hp H. now rewrite <- Hp.
  - intros ws cs cn ct w H.
    destruct (upsert_tables ws cs cn ct w) as [Hp _]. now rewrite Hp.
  - intros d w H.
    destruct (create_tables d w) as [_ [Hp|[Hfree Hp]]]; rewrite Hp.
    + exact H.
    + now apply NoDup_keys_snoc.
  - intros d skip w H.
    destruct (createMany_tables d skip w) as (_ & _ & Hnd). now apply Hnd.
Qed.

Lemma unique_symbols_invariant : invariant unique_symbols.
Proof.
  apply invariant_of_tables; unfold tables_only, preserves, unique_symbols.
  - intros w w' Ha _ H. now rewrite <- Ha.
  - intros ws cs cn ct w H.
    destruct (upsert_tables ws cs cn ct w) as [_ [Ha|[Hnone Ha]]];
      rewrite Ha; [exact H|].
    apply find_asset_none in Hnone.
    rewrite map_app. simpl. apply NoDup_app; [exact H| |].
    + constructor; [intros []|constructor].
    + intros s Hs [<-|[]]. contradiction.
  - intros d w H.
    destruct (create_tables d w) as [Ha _]. now rewrite Ha.
  - intros d skip w H.
    destruct (createMany_tables d skip w) as (Ha & _). now rewrite Ha.
Qed.

Lemma keeps_rows_refl w : keeps_rows_of w w.
Proof. split; exists []; now rewrite app_nil_r. Qed.

Lemma keeps_rows_invariant w0 : invariant (keeps_rows_of w0).
Proof.
  apply invariant_of_tables; unfold tables_only, preserves, keeps_rows_of.
  - intros w w' Ha Hp H. now rewrite <- Ha, <- Hp.
  - intros ws cs cn ct w [Hp (added & Ha)].
    destruct (upsert_tables ws cs cn ct w) as [Hp' [Ha'|[_ Ha']]];
      rewrite Hp', Ha'; split; auto.
    + eauto.
    + rewrite Ha, <- app_assoc. eauto.
  - intros d w [(added & Hp) Ha].
    destruct (create_tables d w) as [Ha' [Hp'|[_ Hp']]];
      rewrite Ha', Hp'; split; auto.
    + eauto.
    + rewrite Hp, <- app_assoc. eauto.
  - intros d skip w [(added & Hp) Ha].
    destruct (createMany_tables d skip w) as (Ha' & (added' & Hp') & _).
    rewrite Ha', Hp'. split; auto.
    rewrite Hp, <- app_assoc. eauto.
Qed.

(** The provider and a database that never fails stay what they are. *)
Lemma provider_invariant p : invariant (fun w => provider w = p).
Proof.
  constructor; unfold preserves.
  - intros e [a pz aseq pseq t pr f tr run cron] H. exact H.
  - intros ms [a pz aseq pseq t pr f tr run cron] H. exact H.
  - intros url [a pz aseq pseq t pr f tr run cron] H.
    unfold axios_get. simpl. destruct (pr url); exact H.
  - intros [a pz aseq pseq t pr f tr run cron] H.
    unfold prisma_asset_findMany_symbols, bind, db_statement. simpl.
    destruct (hd None f); exact H.
  - intros ws cs cn ct [a pz aseq pseq t pr f tr run cron] H.
    unfold prisma_asset_upsert, bind, db_statement. simpl.
    destruct (hd None f); simpl; [exact H|].
    destruct (find_asset ws a); simpl; [exact H|].
    destruct (find_asset cs a); exact H.
  - intros d [a pz aseq pseq t pr f tr run cron] H.
    unfold prisma_price_create, bind, db_statement. simpl.
    destruct (hd None f); simpl; [exact H|].
    destruct (key_taken _ pz); exact H.
  - intros d skip [a pz aseq pseq t pr f tr run cron] H.
    unfold prisma_price_createMany, bind, db_statement. simpl.
    destruct (hd None f); simpl; [exact H|].
    destruct skip.
    + destruct (insert_skipping t d pz pseq); exact H.
    + destruct (insert_all t d pz pseq) as [[? ?]|]; exact H.
Qed.

Lemma healthy_invariant : invariant (fun w => db_faults w = []).
Proof.
  constructor; unfold preserves.
  - intros e [a pz aseq pseq t pr f tr run cron] H. exact H.
  - intros ms [a pz aseq pseq t pr f tr run cron] H. exact H.
  - intros url [a pz aseq pseq t pr f tr run cron] H.
    unfold axios_get. simpl. destruct (pr url); exact H.
  - intros [a pz aseq pseq t pr f tr run cron] H. simpl in H. subst f.
    reflexivity.
  - intros ws cs cn ct [a pz aseq pseq t pr f tr run cron] H.
    simpl in H. subst f.
    unfold prisma_asset_upsert, bind, db_statement. simpl.
    destruct (find_asset ws a); simpl; [reflexivity|].
    destruct (find_asset cs a); reflexivity.
  - intros d [a pz aseq pseq t pr f tr run cron] H. simpl in H. subst f.
    unfold prisma_price_create, bind, db_statement. simpl.
    destruct (key_taken _ pz); reflexivity.
  - intros d skip [a pz aseq pseq t pr f tr run cron] H.
    simpl in H. subst f.
    unfold prisma_price_createMany, bind, db_statement. simpl.
    destruct skip.
    + destruct (insert_skipping t d pz pseq); reflexivity.
    + destruct (insert_all t d pz pseq) as [[? ?]|]; reflexivity.
Qed.

(** ** The two fetches, case by case *)

(** A daily fetch either has a snapshot, returns it and runs the storage
    step on it, or fails with its one message and leaves both tables as
    they were. *)
Lemma getDailyPrices_cases symbol w :
  match fetch_daily (provider w) symbol with
  | Some priceData =>
      getDailyPrices symbol w =
        (Normal priceData,
         snd (saveDailyPriceToDatabase priceData
                (emit w (EvHttpGet (daily_url symbol)))))
  | None =>
      fst (getDailyPrices symbol w) =
        Abrupt (JsError ("Fallo al obtener precio diario para " ++ symbol)%string)
      /\ assets (snd (getDailyPrices symbol w)) = assets w
      /\ prices (snd (getDailyPrices symbol w)) = prices w
      /\ now (snd (getDailyPrices symbol w)) = now w
      /\ trace (snd (getDailyPrices symbol w)) =
           trace w ++ [EvHttpGet (daily_url symbol);
                       EvConsoleError ("Error extrayendo precio diario para "
                                       ++ symbol ++ ":")%string]
  end.
Proof.
  unfold fetch_daily, getDailyPrices, try_catch, bind, axios_get.
  destruct (provider w (daily_url symbol)) as [data|e]; simpl;
    [|rewrite <- app_assoc; auto].
  destruct (first_result data) as [result|]; simpl;
    [|rewrite <- app_assoc; auto].
  match goal with
  | |- context [saveDailyPriceToDatabase ?pd ?w0] =>
      pose proof (saveDailyPriceToDatabase_returns pd w0) as Hs;
      destruct (saveDailyPriceToDatabase pd w0) as [c w1]
  end.
  simpl in Hs. subst c. reflexivity.
Qed.

Lemma getHistoricalPrices_cases symbol rangeKey w :
  match fetch_historical (provider w) symbol rangeKey with
  | Some historicalData =>
      getHistoricalPrices symbol rangeKey w =
        (Normal historicalData,
         snd (saveHistoricalPricesToDatabase symbol historicalData
                (emit w (EvHttpGet (request_url symbol rangeKey)))))
  | None =>
      fst (getHistoricalPrices symbol rangeKey w) =
        Abrupt (JsError ("Fallo al obtener precios históricos para "
                         ++ symbol)%string)
      /\ assets (snd (getHistoricalPrices symbol rangeKey w)) = assets w
      /\ prices (snd (getHistoricalPrices symbol rangeKey w)) = prices w
      /\ now (snd (getHistoricalPrices symbol rangeKey w)) = now w
      /\ trace (snd (getHistoricalPrices symbol rangeKey w)) =
           trace w ++ [EvHttpGet (request_url symbol rangeKey);
                       EvConsoleError
                         ("Error extrayendo precios históricos para "
                          ++ symbol ++ ":")%string]
  end.
Proof.
  unfold fetch_historical, getHistoricalPrices, try_catch, bind, axios_get.
  fold (request_url symbol rangeKey).
  destruct (provider w (request_url symbol rangeKey)) as [data|e]; simpl;
    [|rewrite <- app_assoc; auto].
  destruct (first_result data) as [result|]; simpl;
    [|rewrite <- app_assoc; auto].
  unfold lift_completion.
  destruct (normalize _ _) as [historicalData|e]; simpl;
    [|rewrite <- app_assoc; auto].
  match goal with
  | |- context [saveHistoricalPricesToDatabase ?s ?d ?w0] =>
      pose proof (saveHistoricalPricesToDatabase_returns s d w0) as Hs;
      destruct (saveHistoricalPricesToDatabase s d w0) as [c w1]
  end.
  simpl in Hs. subst c. reflexivity.
Qed.

(** ** Asset registration *)

Lemma find_asset_app symbol l a :
  find_asset symbol (l ++ [a]) =
    match find_asset symbol l with
    | Some x => Some x
    | None => if String.eqb (Asset.symbol a) symbol then Some a else None
    end.
Proof.
  unfold find_asset. induction l as [|x l IH]; simpl.
  - destruct (String.eqb (Asset.symbol a) symbol); reflexivity.
  - destruct (String.eqb (Asset.symbol x) symbol); [reflexivity|exact IH].
Qed.

(** Everything one call of [ensureAssetExists] does. *)
Lemma ensureAssetExists_cases symbol w :
  let r := ensureAssetExists symbol w in
  prices (snd r) = prices w
  /\ price_seq (snd r) = price_seq w
  /\ now (snd r) = now w
  /\ provider (snd r) = provider w
  /\ db_faults (snd r) = tl (db_faults w)
  /\ match hd None (db_faults w) with
     | Some e =>
         fst r = Abrupt e
         /\ assets (snd r) = assets w
         /\ trace (snd r) =
              trace w ++ [EvDb (AssetUpsert symbol);
                          EvConsoleError ("Error gestionando asset "
                                          ++ symbol ++ ":")%string]
     | None =>
         trace (snd r) = trace w ++ [EvDb (AssetUpsert symbol)]
         /\ match find_asset symbol (assets w) with
            | Some a => fst r = Normal a /\ assets (snd r) = assets w
            | None =>
                let a := Asset.mk (asset_seq w) symbol symbol "STOCK" in
                fst r = Normal a /\ assets (snd r) = assets w ++ [a]
            end
     end.
Proof.
  destruct w as [a p aseq pseq t pr f tr run cron].
  unfold ensureAssetExists, try_catch, bind, prisma_asset_upsert, bind,
    db_statement.
  simpl. destruct (hd None f) as [e|]; simpl.
  - rewrite <- app_assoc. simpl. repeat split.
  - destruct (find_asset symbol a) eqn:Hf; simpl; repeat split.
Qed.

(** Under [UNIQUE(symbol)] the rows with a symbol are the one that the
    lookup finds, if any. *)
Lemma assets_with_found symbol w a :
  unique_symbols w ->
  find_asset symbol (assets w) = Some a ->
  assets_with symbol w = [a].
Proof.
  unfold unique_symbols, assets_with, find_asset.
  induction (assets w) as [|x l IH]; intros Hnd Hf; [discriminate|].
  simpl in *. inversion Hnd as [|? ? Hnotin Hnd']; subst.
  destruct (String.eqb (Asset.symbol x) symbol) eqn:Hx.
  - inversion Hf; subst. f_equal. apply String.eqb_eq in Hx. subst symbol.
    destruct (filter _ l) as [|y ys] eqn:Hfl; [reflexivity|].
    exfalso. apply Hnotin.
    assert (Hy : In y (filter (fun x0 => String.eqb (Asset.symbol x0)
                                           (Asset.symbol a)) l))
      by (rewrite Hfl; now left).
    apply filter_In in Hy. destruct Hy as [Hin Heq].
    apply String.eqb_eq in Heq. rewrite <- Heq. now apply in_map.
  - now apply IH.
Qed.

Lemma assets_with_absent symbol w :
  find_asset symbol (assets w) = None -> assets_with symbol w = [].
Proof.
  unfold assets_with, find_asset.
  induction (assets w) as [|x l IH]; intro Hf; [reflexivity|].
  simpl in *. destruct (String.eqb (Asset.symbol x) symbol);
    [discriminate|now apply IH].
Qed.

Lemma assets_with_at_most_one symbol w :
  unique_symbols w -> (List.length (assets_with symbol w) <= 1)%nat.
Proof.
  intro H. destruct (find_asset symbol (assets w)) as [a|] eqn:Hf.
  - rewrite (assets_with_found symbol w a H Hf). simpl. lia.
  - rewrite (assets_with_absent symbol w Hf). simpl. lia.
Qed.

Lemma ensure_repeatedly_unique n symbol : forall w,
  unique_symbols w -> unique_symbols (ensure_repeatedly n symbol w).
Proof.
  induction n as [|n IH]; intros w H; simpl; [exact H|].
  apply IH.
  now apply (preserves_ensureAssetExists _ unique_symbols_invariant).
Qed.

Lemma ensure_repeatedly_registered n symbol a : forall w,
  find_asset symbol (assets w) = Some a ->
  assets (ensure_repeatedly n symbol w) = assets w
  /\ find_asset symbol (assets (ensure_repeatedly n symbol w)) = Some a.
Proof.
  induction n as [|n IH]; intros w Hf; simpl; [auto|].
  assert (Ha : assets (snd (ensureAssetExists symbol w)) = assets w).
  { destruct (ensureAssetExists_cases symbol w) as (_ & _ & _ & _ & _ & H).
    destruct (hd None (db_faults w)).
    - now destruct H as (_ & -> & _).
    - destruct H as (_ & H). rewrite Hf in H. now destruct H as (_ & ->). }
  destruct (IH (snd (ensureAssetExists symbol w))) as [H1 H2].
  - now rewrite Ha.
  - split; [now rewrite H1, Ha|exact H2].
Qed.

(** C6: one call of [ensureAssetExists] sends a single upsert statement;
    when it returns, the row it returns is the only Asset with that symbol,
    the one that was there or else a new one named after the symbol and
    of type STOCK; any number of further calls leave the table as it is.
    So with a database that answers, one call or more leave exactly one
    Asset for the symbol, and however calls end there is never more than
    one. *)
Theorem C6_ensureAssetExists_get_or_create symbol w :
  unique_symbols w ->
  let w1 := snd (ensureAssetExists symbol w) in
  statements_since w w1 = [EvDb (AssetUpsert symbol)]
  /\ (forall a, fst (ensureAssetExists symbol w) = Normal a ->
        assets_with symbol w1 = [a]
        /\ match find_asset symbol (assets w) with
           | Some a0 => a = a0 /\ assets w1 = assets w
           | None =>
               a = Asset.mk (asset_seq w) symbol symbol "STOCK"
               /\ assets w1 = assets w ++ [a]
           end
        /\ forall n,
             assets (ensure_repeatedly n symbol w1) = assets w1
             /\ assets_with symbol (ensure_repeatedly n symbol w1) = [a])
  /\ (db_faults w = [] ->
      forall n,
        List.length (assets_with symbol (ensure_repeatedly (S n) symbol w))
          = 1%nat)
  /\ (forall n,
        (List.length (assets_with symbol (ensure_repeatedly n symbol w)) <= 1)%nat).
Proof.
  intros Hu w1.
  pose proof (ensureAssetExists_cases symbol w) as Hc. cbv zeta in Hc.
  fold w1 in Hc. destruct Hc as (_ & _ & _ & _ & _ & Hc).
  assert (Hu1 : unique_symbols w1)
    by now apply (preserves_ensureAssetExists _ unique_symbols_invariant).
  assert (Hget : forall a, fst (ensureAssetExists symbol w) = Normal a ->
            assets_with symbol w1 = [a]
            /\ match find_asset symbol (assets w) with
               | Some a0 => a = a0 /\ assets w1 = assets w
               | None =>
                   a = Asset.mk (asset_seq w) symbol symbol "STOCK"
                   /\ assets w1 = assets w ++ [a]
               end
            /\ forall n,
                 assets (ensure_repeatedly n symbol w1) = assets w1
                 /\ assets_with symbol (ensure_repeatedly n symbol w1) = [a]);
    [|split; [|split; [exact Hget|split]]].
  - intros a Ha.
    destruct (hd None (db_faults w)).
    { destruct Hc as (Hr & _). rewrite Hr in Ha. discriminate. }
    destruct Hc as (_ & Hc).
    assert (Hf1 : find_asset symbol (assets w1) = Some a).
    { destruct (find_asset symbol (assets w)) as [a0|] eqn:Hf.
      - destruct Hc as (Hr & ->). rewrite Hr in Ha. inversion Ha; subst.
        exact Hf.
      - destruct Hc as (Hr & ->). rewrite Hr in Ha. inversion Ha; subst.
        rewrite find_asset_app, Hf. simpl. now rewrite String.eqb_refl. }
    split; [now apply assets_with_found|]. split.
    + destruct (find_asset symbol (assets w)) as [a0|].
      * destruct Hc as (Hr & Hw). rewrite Hr in Ha. inversion Ha. auto.
      * destruct Hc as (Hr & Hw). rewrite Hr in Ha. inversion Ha; subst a.
        auto.
    + intro n.
      destruct (ensure_repeatedly_registered n symbol a w1 Hf1) as [H1 H2].
      split; [exact H1|].
      apply assets_with_found; [|exact H2].
      now apply ensure_repeatedly_unique.
  - unfold statements_since.
    destruct (hd None (db_faults w)).
    + destruct Hc as (_ & _ & ->).
      rewrite skipn_app, skipn_all, Nat.sub_diag. reflexivity.
    + destruct Hc as (-> & _).
      rewrite skipn_app, skipn_all, Nat.sub_diag. reflexivity.
  - intros Hhealthy n. simpl.
    rewrite Hhealthy in Hc. simpl in Hc. destruct Hc as (_ & Hc).
    assert (Hret : exists a, fst (ensureAssetExists symbol w) = Normal a).
    { destruct (find_asset symbol (assets w)); destruct Hc as (Hr & _); eauto. }
    destruct Hret as (a & Ha).
    destruct (Hget a Ha) as (_ & _ & Hn).
    destruct (Hn n) as [_ Hone]. fold w1. now rewrite Hone.
  - intro n. apply assets_with_at_most_one.
    now apply ensure_repeatedly_unique.
Qed.

(** On an empty database: the first call creates AAPL, named AAPL, of type
    STOCK, and three more calls leave that single row. *)
Lemma C6_witness :
  let w := fresh_world stub_provider 0 in
  unique_symbols w
  /\ assets (ensure_repeatedly 4 "AAPL" w) = [Asset.mk 1 "AAPL" "AAPL" "STOCK"]
  /\ statements_since w (snd (ensureAssetExists "AAPL" w))
       = [EvDb (AssetUpsert "AAPL")].
Proof.
  intro w.
  assert (Hu : unique_symbols w) by constructor.
  destruct (C6_ensureAssetExists_get_or_create "AAPL" w Hu)
    as (Hst & Hget & _ & _).
  split; [exact Hu|]. split; [|exact Hst].
  destruct (Hget (Asset.mk 1 "AAPL" "AAPL" "STOCK") eq_refl)
    as (_ & _ & Hn).
  destruct (Hn 3%nat) as [Ha _]. vm_compute in Ha. vm_compute. exact Ha.
Defined.

(** ** Running a storage step again *)

Lemma priceRecords_dated historicalData asset :
  Forall (fun d => input_key d <> None) (priceRecords historicalData asset).
Proof.
  unfold priceRecords. apply Forall_forall. intros d Hin.
  apply in_map_iff in Hin. destruct Hin as (x & <- & _). discriminate.
Qed.

(** The historical storage step against a database that answers. *)
Lemma saveHistoricalPricesToDatabase_healthy symbol historicalData w :
  db_faults w = [] ->
  let w' := snd (saveHistoricalPricesToDatabase symbol historicalData w) in
  exists a,
    find_asset symbol (assets w') = Some a
    /\ (forall a0, find_asset symbol (assets w) = Some a0 -> a0 = a)
    /\ prices w' =
         if Nat.eqb (List.length historicalData) 0 then prices w
         else fst (insert_skipping (now w) (priceRecords historicalData a)
                                   (prices w) (price_seq w)).
Proof.
  destruct w as [a p aseq pseq t pr f tr run cron]. simpl. intros ->.
  unfold saveHistoricalPricesToDatabase, try_catch, bind, ensureAssetExists,
    try_catch, bind, prisma_asset_upsert, bind, db_statement.
  simpl.
  destruct (find_asset symbol a) as [a0|] eqn:Hf; simpl.
  - exists a0. destruct (Nat.eqb (List.length historicalData) 0); simpl.
    + repeat split; auto. intros a1 H. now inversion H.
    + unfold prisma_price_createMany, bind, db_statement. simpl.
      destruct (insert_skipping t (priceRecords historicalData a0) p pseq)
        as [rows seq]; simpl.
      repeat split; auto. intros a1 H. now inversion H.
  - exists (Asset.mk aseq symbol symbol "STOCK").
    destruct (Nat.eqb (List.length historicalData) 0); simpl.
    + rewrite find_asset_app, Hf. simpl. rewrite String.eqb_refl.
      repeat split; auto. discriminate.
    + unfold prisma_price_createMany, bind, db_statement. simpl.
      destruct (insert_skipping t _ p pseq) as [rows seq]; simpl.
      rewrite find_asset_app, Hf. simpl. rewrite String.eqb_refl.
      repeat split; auto. discriminate.
Qed.

Lemma daily_record_key seq clock priceData asset :
  price_key (row_of_input seq clock (daily_record priceData asset))
    = (Asset.id asset, clock).
Proof. reflexivity. Qed.

(** The daily storage step against a database that answers: the key
    (asset, call time) is in the table afterwards, through this call or
    from before. *)
Lemma saveDailyPriceToDatabase_healthy priceData w :
  db_faults w = [] ->
  let w' := snd (saveDailyPriceToDatabase priceData w) in
  exists a,
    find_asset (PriceData.symbol priceData) (assets w') = Some a
    /\ (forall a0, find_asset (PriceData.symbol priceData) (assets w) = Some a0
                   -> a0 = a)
    /\ now w' = now w
    /\ prices w' =
         (if key_taken (Asset.id a, now w) (prices w) then prices w
          else prices w ++ [row_of_input (price_seq w) (now w)
                                         (daily_record priceData a)])
    /\ key_taken (Asset.id a, now w) (prices w') = true.
Proof.
  destruct w as [a p aseq pseq t pr f tr run cron]. simpl. intros ->.
  unfold saveDailyPriceToDatabase, try_catch, bind, ensureAssetExists,
    try_catch, bind, prisma_asset_upsert, bind, db_statement.
  simpl.
  destruct (find_asset (PriceData.symbol priceData) a) as [a0|] eqn:Hf; simpl.
  - exists a0. unfold prisma_price_create, bind, db_statement. simpl.
    rewrite daily_record_key.
    destruct (key_taken (Asset.id a0, t) p) eqn:Hk; simpl.
    + repeat split; auto. intros a1 H. now inversion H.
    + repeat split; auto.
      * intros a1 H. now inversion H.
      * apply key_taken_In. rewrite map_app, in_app_iff. right. now left.
  - exists (Asset.mk aseq (PriceData.symbol priceData)
                     (PriceData.symbol priceData) "STOCK").
    unfold prisma_price_create, bind, db_statement. simpl.
    rewrite daily_record_key. simpl Asset.id.
    destruct (key_taken (aseq, t) p) eqn:Hk; simpl.
    + rewrite find_asset_app, Hf. simpl. rewrite String.eqb_refl.
      repeat split; auto. discriminate.
    + rewrite find_asset_app, Hf. simpl. rewrite String.eqb_refl.
      repeat split; auto; [discriminate|].
      apply key_taken_In. rewrite map_app, in_app_iff. right. now left.
Qed.

(** ** Uniqueness of (asset, date) *)

Lemma keeps_rows_trans w1 w2 w3 :
  keeps_rows_of w1 w2 -> keeps_rows_of w2 w3 -> keeps_rows_of w1 w3.
Proof.
  intros [(p1 & Hp1) (a1 & Ha1)] [(p2 & Hp2) (a2 & Ha2)].
  split; [exists (p1 ++ p2)|exists (a1 ++ a2)].
  - now rewrite Hp2, Hp1, app_assoc.
  - now rewrite Ha2, Ha1, app_assoc.
Qed.

Lemma fetch_daily_symbol p symbol priceData :
  fetch_daily p symbol = Some priceData ->
  PriceData.symbol priceData = toUpperCase symbol.
Proof.
  unfold fetch_daily. destruct (p (daily_url symbol)) as [data|e];
    [|discriminate].
  destruct (first_result data); [|discriminate].
  intro H. inversion H. reflexivity.
Qed.

Lemma getDailyPrices_clock symbol w :
  now (snd (getDailyPrices symbol w)) = now w.
Proof.
  pose proof (getDailyPrices_cases symbol w) as H.
  destruct (fetch_daily (provider w) symbol) as [pd|].
  - rewrite H. simpl.
    unfold saveDailyPriceToDatabase, try_catch, bind, ensureAssetExists,
      try_catch, bind, prisma_asset_upsert, bind, db_statement,
      prisma_price_create, bind, db_statement.
    destruct w as [a p aseq pseq t pr f tr run cron]. simpl.
    destruct (hd None f); simpl; [reflexivity|].
    destruct (find_asset _ a); simpl.
    + destruct (hd None (tl f)); simpl; [reflexivity|].
      destruct (key_taken _ p); reflexivity.
    + destruct (hd None (tl f)); simpl; [reflexivity|].
      destruct (key_taken _ p); reflexivity.
  - now destruct H as (_ & _ & _ & -> & _).
Qed.

(** A row the daily storage step adds is keyed by the asset it finds for
    the snapshot's symbol and by the time of the insertion. *)
Lemma saveDailyPriceToDatabase_new_row priceData w row :
  let w' := snd (saveDailyPriceToDatabase priceData w) in
  In row (prices w') -> ~ In row (prices w) ->
  exists a,
    find_asset (PriceData.symbol priceData) (assets w') = Some a
    /\ price_key row = (Asset.id a, now w).
Proof.
  destruct w as [a p aseq pseq t pr f tr run cron].
  unfold saveDailyPriceToDatabase, try_catch, bind, ensureAssetExists,
    try_catch, bind, prisma_asset_upsert, bind, db_statement,
    prisma_price_create, bind, db_statement.
  simpl.
  destruct (hd None f); simpl; [contradiction|].
  destruct (find_asset (PriceData.symbol priceData) a) as [a0|] eqn:Hf; simpl.
  - destruct (hd None (tl f)); simpl; [contradiction|].
    destruct (key_taken _ p); simpl; [contradiction|].
    intros Hin Hnot. apply in_app_iff in Hin.
    destruct Hin as [Hin|[<-|[]]]; [contradiction|].
    exists a0. split; [exact Hf|reflexivity].
  - destruct (hd None (tl f)); simpl; [contradiction|].
    destruct (key_taken _ p); simpl; [contradiction|].
    intros Hin Hnot. apply in_app_iff in Hin.
    destruct Hin as [Hin|[<-|[]]]; [contradiction|].
    eexists. rewrite find_asset_app, Hf. simpl. rewrite String.eqb_refl.
    split; reflexivity.
Qed.

(** Whatever the database does, the daily storage step adds no row when
    the asset has one dated this very instant. *)
Lemma saveDailyPriceToDatabase_key_taken priceData w a :
  find_asset (PriceData.symbol priceData) (assets w) = Some a ->
  key_taken (Asset.id a, now w) (prices w) = true ->
  prices (snd (saveDailyPriceToDatabase priceData w)) = prices w.
Proof.
  destruct w as [al p aseq pseq t pr f tr run cron]. simpl.
  intros Hf Hk.
  unfold saveDailyPriceToDatabase, try_catch, bind, ensureAssetExists,
    try_catch, bind, prisma_asset_upsert, bind, db_statement,
    prisma_price_create, bind, db_statement.
  simpl.
  destruct (hd None f); simpl; [reflexivity|].
  rewrite Hf. simpl.
  destruct (hd None (tl f)); simpl; [reflexivity|].
  rewrite daily_record_key, Hk. reflexivity.
Qed.

(** With a database that answers, it adds one when the asset has none
    dated this instant. *)
Lemma saveDailyPriceToDatabase_key_free priceData w a :
  db_faults w = [] ->
  find_asset (PriceData.symbol priceData) (assets w) = Some a ->
  key_taken (Asset.id a, now w) (prices w) = false ->
  prices (snd (saveDailyPriceToDatabase priceData w))
    = prices w ++ [row_of_input (price_seq w) (now w)
                                (daily_record priceData a)].
Proof.
  intros Hw Hf Hk.
  destruct (saveDailyPriceToDatabase_healthy priceData w Hw)
    as (a' & _ & Hsame & _ & Hrows & _).
  rewrite <- (Hsame a Hf) in Hrows. now rewrite Hrows, Hk.
Qed.

(** ** The daily storage step *)

(** Whatever the database does, the daily storage step leaves the Price
    table alone or appends the one row built from the snapshot, dated the
    call time. *)
Lemma saveDailyPriceToDatabase_rows priceData w :
  let w' := snd (saveDailyPriceToDatabase priceData w) in
  prices w' = prices w
  \/ exists a,
       prices w' = prices w ++ [row_of_input (price_seq w) (now w)
                                             (daily_record priceData a)].
Proof.
  destruct w as [a p aseq pseq t pr f tr run cron].
  unfold saveDailyPriceToDatabase, try_catch, bind, ensureAssetExists,
    try_catch, bind, prisma_asset_upsert, bind, db_statement,
    prisma_price_create, bind, db_statement.
  simpl.
  destruct (hd None f); simpl; [auto|].
  destruct (find_asset _ a); simpl;
    (destruct (hd None (tl f)); simpl; [auto|]);
    (destruct (key_taken _ p); simpl; [auto|]); eauto.
Qed.

(** A storage failure on either statement: nothing is written, and the
    last thing the step does is log the failure. *)
Lemma saveDailyPriceToDatabase_fault priceData w e rest :
  db_faults w = Some e :: rest \/ db_faults w = None :: Some e :: rest ->
  let w' := snd (saveDailyPriceToDatabase priceData w) in
  prices w' = prices w
  /\ exists before,
       trace w' =
         trace w ++ before
         ++ [EvConsoleError ("Error guardando precio diario para "
                             ++ PriceData.symbol priceData ++ ":")%string].
Proof.
  destruct w as [a p aseq pseq t pr f tr run cron]. simpl.
  unfold saveDailyPriceToDatabase, try_catch, bind, ensureAssetExists,
    try_catch, bind, prisma_asset_upsert, bind, db_statement,
    prisma_price_create, bind, db_statement.
  intros [->| ->]; simpl.
  - split; [reflexivity|]. rewrite <- !app_assoc. simpl.
    eexists [_; _]. reflexivity.
  - destruct (find_asset _ a); simpl; (split; [reflexivity|]);
      rewrite <- !app_assoc; simpl; eexists [_; _]; reflexivity.
Qed.

Lemma key_free_on_new_date i t rows :
  Forall (fun p => Price.date p <> t) rows -> key_taken (i, t) rows = false.
Proof.
  intro H. apply key_free_not_In. intro Hin.
  apply in_map_iff in Hin. destruct Hin as (p & Hk & Hp).
  rewrite Forall_forall in H. apply (H p Hp).
  unfold price_key in Hk. now inversion Hk.
Qed.

Lemma fetch_daily_on_document p symbol data result :
  p (daily_url symbol) = HttpOk data ->
  first_result data = Some result ->
  exists priceData,
    fetch_daily p symbol = Some priceData
    /\ PriceData.symbol priceData = toUpperCase symbol
    /\ PriceData.regularMarketPrice priceData
       = Meta.regularMarketPrice (YahooChartResult.meta result)
    /\ PriceData.regularMarketDayHigh priceData
       = Meta.regularMarketDayHigh (YahooChartResult.meta result)
    /\ PriceData.regularMarketDayLow priceData
       = Meta.regularMarketDayLow (YahooChartResult.meta result)
    /\ PriceData.regularMarketVolume priceData
       = Meta.regularMarketVolume (YahooChartResult.meta result).
Proof.
  intros Hp Hr. unfold fetch_daily. rewrite Hp, Hr.
  eexists. split; [reflexivity|]. repeat split.
Qed.

(** C2 (as amended): when the provider has a snapshot for the symbol, the
    daily-close ingestion writes at most one row, dated the call time,
    whose open and close are the snapshot's regularMarketPrice, whose high
    is its regularMarketDayHigh and whose low is its regularMarketDayLow;
    the row is written whenever the database answers and the asset has no
    row at that instant yet. *)
Theorem C2_daily_row_fields symbol w data result :
  provider w (daily_url symbol) = HttpOk data ->
  first_result data = Some result ->
  let meta := YahooChartResult.meta result in
  let w' := snd (getDailyPrices symbol w) in
  (prices w' = prices w
   \/ exists row, prices w' = prices w ++ [row] /\ daily_row_of meta (now w) row)
  /\ (db_faults w = [] ->
      Forall (fun p => Price.date p <> now w) (prices w) ->
      exists row,
        prices w' = prices w ++ [row] /\ daily_row_of meta (now w) row).
Proof.
  intros Hp Hr meta w'.
  destruct (fetch_daily_on_document (provider w) symbol data result Hp Hr)
    as (pd & Hfd & _ & Ho & Hh & Hl & Hv).
  pose proof (getDailyPrices_cases symbol w) as Hc. rewrite Hfd in Hc.
  assert (E : w' = snd (saveDailyPriceToDatabase pd
                          (emit w (EvHttpGet (daily_url symbol)))))
    by (unfold w'; now rewrite Hc).
  assert (Hrow : forall a,
             daily_row_of meta (now w)
               (row_of_input (price_seq w) (now w) (daily_record pd a))).
  { intro a. unfold daily_row_of, meta. simpl.
    rewrite Ho, Hh, Hl, Hv. repeat split. }
  split.
  - destruct (saveDailyPriceToDatabase_rows pd
                (emit w (EvHttpGet (daily_url symbol)))) as [H|(a & H)];
      rewrite <- E in H; simpl in H; [now left|].
    right. eexists. split; [exact H|apply Hrow].
  - intros Hf Hfree.
    destruct (saveDailyPriceToDatabase_healthy pd
                (emit w (EvHttpGet (daily_url symbol))))
      as (a & _ & _ & _ & H & _); [exact Hf|].
    rewrite <- E in H. simpl in H.
    rewrite (key_free_on_new_date _ _ _ Hfree) in H.
    eexists. split; [exact H|apply Hrow].
Qed.

(** The scenario of the spec, with a day range around the price: the row
    for AAPL has open and close 150.25, high 151 and low 149. *)
Lemma C2_witness :
  exists row,
    prices (snd (getDailyPrices "AAPL" (fresh_world stub_provider 5000)))
      = [row]
    /\ daily_row_of aapl_meta 5000 row.
Proof.
  destruct (C2_daily_row_fields "AAPL" (fresh_world stub_provider 5000)
              (document [aapl_result]) aapl_result eq_refl eq_refl)
    as [_ H].
  apply H; [reflexivity|constructor].
Defined.

(** C2, as first stated, fails on that snapshot: high and low are not the
    regularMarketPrice. *)
Lemma C2_counterexample_high_low :
  exists row,
    fst (getDailyPrices "AAPL" (fresh_world stub_provider 5000))
      = Normal (PriceData.mk "AAPL" (number 601 4) (number 151 1)
                  (number 149 1) (number 1000 1) (number 150 1)
                  1700000000000 "USD")
    /\ prices (snd (getDailyPrices "AAPL" (fresh_world stub_provider 5000)))
       = [row]
    /\ Price.open row = Meta.regularMarketPrice aapl_meta
    /\ Price.high row <> Meta.regularMarketPrice aapl_meta
    /\ Price.low row <> Meta.regularMarketPrice aapl_meta.
Proof.
  eexists. split; [vm_compute; reflexivity|].
  split; [vm_compute; reflexivity|].
  split; [reflexivity|]. split; discriminate.
Qed.

(** C5: a daily save never throws; when the provider has a snapshot,
    [getDailyPrices] returns it whatever the database does, and the daily
    driver counts the symbol as processed; when the database fails on the
    upsert or on the insert the failure is logged by the save and no row is
    written, although the caller got its snapshot. *)
Theorem C5_daily_write_failure_swallowed symbol w data result :
  provider w (daily_url symbol) = HttpOk data ->
  first_result data = Some result ->
  let meta := YahooChartResult.meta result in
  let w' := snd (getDailyPrices symbol w) in
  (forall priceData w0, fst (saveDailyPriceToDatabase priceData w0) = Normal tt)
  /\ (exists priceData,
        fst (getDailyPrices symbol w) = Normal priceData
        /\ PriceData.symbol priceData = toUpperCase symbol
        /\ PriceData.regularMarketPrice priceData = Meta.regularMarketPrice meta)
  /\ (forall processed failed,
        fst (daily_step symbol (processed, failed) w)
          = Normal (S processed, failed))
  /\ (forall e rest,
        db_faults w = Some e :: rest \/ db_faults w = None :: Some e :: rest ->
        prices w' = prices w
        /\ exists before,
             trace w' =
               trace w ++ before
               ++ [EvConsoleError ("Error guardando precio diario para "
                                   ++ toUpperCase symbol ++ ":")%string]).
Proof.
  intros Hp Hr meta w'.
  destruct (fetch_daily_on_document (provider w) symbol data result Hp Hr)
    as (pd & Hfd & Hs & Ho & _).
  pose proof (getDailyPrices_cases symbol w) as Hc. rewrite Hfd in Hc.
  split; [apply saveDailyPriceToDatabase_returns|]. split; [|split].
  - exists pd. rewrite Hc. auto.
  - intros processed failed.
    unfold daily_step, bind, try_catch, bind. rewrite Hc. reflexivity.
  - intros e rest Hf. unfold w'. rewrite Hc. simpl.
    destruct (saveDailyPriceToDatabase_fault pd
                (emit w (EvHttpGet (daily_url symbol))) e rest Hf)
      as (Hprices & before & Htrace).
    split; [exact Hprices|].
    exists (EvHttpGet (daily_url symbol) :: before).
    rewrite Htrace, Hs. simpl. rewrite <- app_assoc. reflexivity.
Qed.

(** With the database out of reach the caller still gets the AAPL
    snapshot, and the Price table stays empty. *)
Lemma C5_witness :
  (exists priceData,
     fst (getDailyPrices "AAPL" unreachable_world) = Normal priceData
     /\ PriceData.symbol priceData = "AAPL"
     /\ PriceData.regularMarketPrice priceData = number 601 4)
  /\ prices (snd (getDailyPrices "AAPL" unreachable_world)) = [].
Proof.
  destruct (C5_daily_write_failure_swallowed "AAPL" unreachable_world
              (document [aapl_result]) aapl_result eq_refl eq_refl)
    as (_ & Hret & _ & Hfault).
  split; [exact Hret|].
  destruct (Hfault (JsError "Can't reach database server") [])
    as [Hprices _]; [now left|exact Hprices].
Defined.

(** ** A symbol the provider has nothing for *)

Lemma trace_extends_invariant w0 : invariant (trace_extends w0).
Proof.
  constructor; unfold preserves, trace_extends;
    intros; destruct w as [a p aseq pseq t pr f tr run cron];
    simpl in *; destruct H as (later & ->).
  - rewrite <- app_assoc. eauto.
  - rewrite <- app_assoc. eauto.
  - unfold axios_get. simpl.
    destruct (pr url); simpl; rewrite <- app_assoc; eauto.
  - unfold prisma_asset_findMany_symbols, bind, db_statement. simpl.
    destruct (hd None f); simpl; rewrite <- app_assoc; eauto.
  - unfold prisma_asset_upsert, bind, db_statement. simpl.
    destruct (hd None f); simpl; [rewrite <- app_assoc; eauto|].
    destruct (find_asset ws a); simpl; [rewrite <- app_assoc; eauto|].
    destruct (find_asset cs a); simpl; rewrite <- app_assoc; eauto.
  - unfold prisma_price_create, bind, db_statement. simpl.
    destruct (hd None f); simpl; [rewrite <- app_assoc; eauto|].
    destruct (key_taken _ p); simpl; rewrite <- app_assoc; eauto.
  - unfold prisma_price_createMany, bind, db_statement. simpl.
    destruct (hd None f); simpl; [rewrite <- app_assoc; eauto|].
    destruct skip.
    + destruct (insert_skipping t d p pseq); simpl.
      rewrite <- app_assoc; eauto.
    + destruct (insert_all t d p pseq) as [[? ?]|]; simpl;
        rewrite <- app_assoc; eauto.
Qed.

Lemma trace_extends_refl w : trace_extends w w.
Proof. exists []. now rewrite app_nil_r. Qed.

(** One turn of the bulk loop on a symbol whose fetch fails: a failed
    outcome with the one message of [getHistoricalPrices], both tables as
    they were, nothing sent to the database, and no pause. *)
Lemma bulk_step_on_failed_fetch range symbol results w :
  fetch_historical (provider w) symbol (Some range) = None ->
  let message :=
    ("Fallo al obtener precios históricos para " ++ symbol)%string in
  let r := bulk_step range symbol results w in
  fst r = Normal (results ++ [BulkLoadResult.mk symbol None Status.failed
                                                (Some message)])
  /\ assets (snd r) = assets w
  /\ prices (snd r) = prices w
  /\ now (snd r) = now w
  /\ provider (snd r) = provider w
  /\ trace (snd r) =
       trace w ++ [EvHttpGet (request_url symbol (Some range));
                   EvConsoleError ("Error extrayendo precios históricos para "
                                   ++ symbol ++ ":")%string;
                   EvConsoleError ("Error procesando " ++ symbol ++ ":")%string].
Proof.
  intros Hf message r.
  pose proof (getHistoricalPrices_cases symbol (Some range) w) as Hc.
  rewrite Hf in Hc. destruct Hc as (Hr & Ha & Hp & Ht & Htr).
  assert (Hpr : provider (snd (getHistoricalPrices symbol (Some range) w))
                = provider w)
    by now apply (preserves_getHistoricalPrices _ (provider_invariant _)).
  unfold r, bulk_step, try_catch, bind.
  destruct (getHistoricalPrices symbol (Some range) w) as [c w1].
  simpl in *. subst c. simpl.
  rewrite Ha, Hp, Ht, Hpr, Htr, <- app_assoc. repeat split.
Qed.

Lemma fetch_historical_empty p symbol rangeKey data :
  p (request_url symbol rangeKey) = HttpOk data ->
  first_result data = None ->
  fetch_historical p symbol rangeKey = None.
Proof. intros Hp Hr. unfold fetch_historical. now rewrite Hp, Hr. Qed.

Lemma fetch_historical_rejected p symbol rangeKey e :
  p (request_url symbol rangeKey) = HttpRejected e ->
  fetch_historical p symbol rangeKey = None.
Proof. intros Hp. unfold fetch_historical. now rewrite Hp. Qed.

Lemma find_asset_extends symbol a l added :
  find_asset symbol l = Some a -> find_asset symbol (l ++ added) = Some a.
Proof.
  unfold find_asset. induction l as [|x l IH]; simpl; [discriminate|].
  destruct (String.eqb (Asset.symbol x) symbol); auto.
Qed.

(** C8 (as amended): in a bulk load, a symbol for which the provider
    returns an empty result set gets a failed outcome, at its place in the
    results, with the message "Fallo al obtener precios históricos para
    <symbol>" (the message a rejected request gets too); processing it
    sends nothing to the database, so no Price row is written and the
    Asset table is as it was when the loop reached the symbol; an Asset
    registered for the symbol before the run is still there after it. *)
Theorem C8_empty_result_set before symbol after range w data :
  let rangeKey := Some (or_default range "5y") in
  provider w (request_url symbol rangeKey) = HttpOk data ->
  first_result data = None ->
  let outcome :=
    BulkLoadResult.mk symbol None Status.failed
      (Some ("Fallo al obtener precios históricos para " ++ symbol)%string) in
  let reached := snd (loadBulkHistoricalData before range w) in
  let left := snd (loadBulkHistoricalData (before ++ [symbol]) range w) in
  (exists results,
     fst (loadBulkHistoricalData (before ++ symbol :: after) range w)
       = Normal results
     /\ nth_error results (List.length before) = Some outcome)
  /\ prices left = prices reached
  /\ assets left = assets reached
  /\ statements_since reached left = []
  /\ (forall a,
        find_asset symbol (assets w) = Some a ->
        find_asset symbol
          (assets (snd (loadBulkHistoricalData (before ++ symbol :: after)
                                               range w))) = Some a)
  /\ (forall w2 e,
        provider w2 (request_url symbol rangeKey) = HttpRejected e ->
        fst (loadBulkHistoricalData [symbol] range w2) = Normal [outcome]).
Proof.
  intros rangeKey Hp Hr outcome reached left.
  set (r := or_default range "5y") in *.
  destruct (bulk_loop_pushes_all r before w) as (rs & w1 & Hm & _ & Hloop).
  assert (Hreached : reached = w1).
  { unfold reached. rewrite loadBulkHistoricalData_is_loop. fold r.
    now rewrite (Hloop []). }
  assert (Hp1 : provider w1 = provider w).
  { rewrite <- Hreached.
    now apply (preserves_loadBulkHistoricalData _ (provider_invariant _)). }
  assert (Hf : fetch_historical (provider w1) symbol (Some r) = None).
  { rewrite Hp1. eapply fetch_historical_empty; eauto. }
  destruct (bulk_step_on_failed_fetch r symbol rs w1 Hf)
    as (Hres & Ha & Hpz & _ & _ & Htr).
  destruct (bulk_step r symbol rs w1) as [c w2] eqn:Hstep.
  simpl in Hres, Ha, Hpz, Htr. subst c.
  assert (Hleft : left = w2).
  { unfold left. rewrite loadBulkHistoricalData_is_loop. fold r.
    rewrite bulk_loop_app. unfold bind. rewrite (Hloop []). simpl.
    unfold bind. now rewrite Hstep. }
  rewrite Hreached, Hleft.
  split; [|split; [exact Hpz|split; [exact Ha|split; [|split]]]].
  - destruct (bulk_loop_pushes_all r after w2) as (rs2 & w3 & _ & _ & Hloop2).
    exists (rs ++ outcome :: rs2). split.
    + rewrite loadBulkHistoricalData_is_loop. fold r.
      rewrite bulk_loop_app. unfold bind. rewrite (Hloop []). simpl.
      unfold bind. rewrite Hstep, Hloop2. simpl.
      now rewrite <- app_assoc.
    + rewrite <- Hm, length_map, nth_error_app2, Nat.sub_diag; auto.
  - unfold statements_since. rewrite Htr, skipn_app, skipn_all, Nat.sub_diag.
    reflexivity.
  - intros a Hfound.
    destruct (preserves_loadBulkHistoricalData _ (keeps_rows_invariant w)
                (before ++ symbol :: after) range w (keeps_rows_refl w))
      as (_ & added & ->).
    now apply find_asset_extends.
  - intros w0 e He.
    assert (Hf0 : fetch_historical (provider w0) symbol (Some r) = None)
      by (eapply fetch_historical_rejected; eauto).
    destruct (bulk_step_on_failed_fetch r symbol [] w0 Hf0) as (Hres0 & _).
    rewrite loadBulkHistoricalData_is_loop. fold r. simpl. unfold bind.
    destruct (bulk_step r symbol [] w0) as [c0 w4]. simpl in Hres0.
    subst c0. reflexivity.
Qed.

(** ZZZZ, between two loads of AAPL, on an empty database. *)
Lemma C8_witness :
  let w := fresh_world stub_provider 0 in
  (exists results,
     fst (loadBulkHistoricalData ["AAPL"; "ZZZZ"; "AAPL"] None w)
       = Normal results
     /\ nth_error results 1 =
          Some (BulkLoadResult.mk "ZZZZ" None Status.failed
                  (Some "Fallo al obtener precios históricos para ZZZZ")))
  /\ assets (snd (loadBulkHistoricalData ["AAPL"; "ZZZZ"] None w))
     = assets (snd (loadBulkHistoricalData ["AAPL"] None w)).
Proof.
  intro w.
  destruct (C8_empty_result_set ["AAPL"] "ZZZZ" ["AAPL"] None w (document [])
              eq_refl eq_refl) as (Hres & _ & Ha & _).
  split; [exact Hres|exact Ha].
Defined.

(** C8, as first stated, fails on an empty database: after the run the
    Asset table has no row for ZZZZ. *)
Lemma C8_counterexample_not_registered :
  let r := loadBulkHistoricalData ["ZZZZ"] None (fresh_world stub_provider 0) in
  fst r = Normal [BulkLoadResult.mk "ZZZZ" None Status.failed
                    (Some "Fallo al obtener precios históricos para ZZZZ")]
  /\ prices (snd r) = []
  /\ find_asset "ZZZZ" (assets (snd r)) = None.
Proof. vm_compute. repeat split. Qed.

(** ** Letter case of symbols *)

(** C9 (the code departs from it): with the symbol given as "aapl", the
    historical path registers "aapl" as it is and the daily path registers
    "AAPL", so the one ticker ends up as two Assets, one of them not in
    upper case. *)
Theorem C9_mixed_case_two_assets :
  let w := snd ((_ <- getHistoricalPrices "aapl" (Some "5y") ;;
                 getDailyPrices "aapl") (fresh_world stub_provider 5000)) in
  assets w = [Asset.mk 1 "aapl" "aapl" "STOCK";
              Asset.mk 2 "AAPL" "AAPL" "STOCK"]
  /\ map (fun a => toUpperCase (Asset.symbol a)) (assets w) = ["AAPL"; "AAPL"]
  /\ map Price.assetId (prices w) = [1; 1; 2].
Proof. vm_compute. repeat split. Qed.

(** ** Pauses between requests *)

Lemma getHistoricalPrices_starts_with_request symbol rangeKey w :
  exists later,
    trace (snd (getHistoricalPrices symbol rangeKey w)) =
      trace w ++ EvHttpGet (request_url symbol rangeKey) :: later.
Proof.
  pose proof (getHistoricalPrices_cases symbol rangeKey w) as Hc.
  destruct (fetch_historical (provider w) symbol rangeKey) as [hd|].
  - rewrite Hc. simpl.
    destruct (preserves_saveHistoricalPricesToDatabase _
                (trace_extends_invariant
                   (emit w (EvHttpGet (request_url symbol rangeKey))))
                symbol hd _ (trace_extends_refl _)) as (later & ->).
    simpl. rewrite <- app_assoc. exists later. reflexivity.
  - destruct Hc as (_ & _ & _ & _ & ->). eauto.
Qed.

Lemma getDailyPrices_starts_with_request symbol w :
  exists later,
    trace (snd (getDailyPrices symbol w)) =
      trace w ++ EvHttpGet (daily_url symbol) :: later.
Proof.
  pose proof (getDailyPrices_cases symbol w) as Hc.
  destruct (fetch_daily (provider w) symbol) as [pd|].
  - rewrite Hc. simpl.
    destruct (preserves_saveDailyPriceToDatabase _
                (trace_extends_invariant
                   (emit w (EvHttpGet (daily_url symbol))))
                pd _ (trace_extends_refl _)) as (later & ->).
    simpl. rewrite <- app_assoc. exists later. reflexivity.
  - destruct Hc as (_ & _ & _ & _ & ->). eauto.
Qed.

(** The daily driver pauses after every symbol, fetched or not. *)
Lemma daily_step_ends_with_pause symbol counters w :
  exists between,
    trace (snd (daily_step symbol counters w)) =
      trace w ++ EvHttpGet (daily_url symbol) :: between ++ [EvSleep 1000].
Proof.
  destruct (getDailyPrices_starts_with_request symbol w) as (later & Ht).
  unfold daily_step. destruct counters as [processed failed].
  unfold bind, try_catch, bind.
  destruct (getDailyPrices symbol w) as [[pd|e] w1]; simpl in *;
    rewrite Ht, <- app_assoc; exists later; reflexivity.
Qed.

(** The bulk loader pauses after a symbol only when its fetch succeeded. *)
Lemma bulk_step_starts_with_request range symbol results w :
  exists later,
    trace (snd (bulk_step range symbol results w)) =
      trace w ++ EvHttpGet (request_url symbol (Some range)) :: later.
Proof.
  destruct (getHistoricalPrices_starts_with_request symbol (Some range) w)
    as (later & Ht).
  unfold bulk_step, try_catch, bind.
  destruct (getHistoricalPrices symbol (Some range) w) as [[hd|e] w1];
    simpl in *; rewrite Ht, <- app_assoc; simpl; eexists; reflexivity.
Qed.

(** A request, two log lines and the next request: a trace with that in
    it is not paced. *)
Lemma unpaced_pattern delay u1 m1 m2 u2 later :
  0 < delay ->
  forall before slept,
    paced_from delay slept
      (before ++ [EvHttpGet u1; EvConsoleError m1; EvConsoleError m2;
                  EvHttpGet u2] ++ later) = false.
Proof.
  intros Hd.
  assert (Hz : (delay <=? 0)%Z = false) by (apply Z.leb_gt; lia).
  induction before as [|e before IH]; intro slept; simpl.
  - rewrite Hz. simpl. destruct slept; [apply andb_false_r|reflexivity].
  - destruct e; auto. destruct slept; rewrite IH; [apply andb_false_r|].
    reflexivity.
Qed.

(** Whenever the fetch of a symbol fails and another symbol follows, the
    bulk loader sends the next request without any pause. *)
Lemma bulk_loop_no_pause_after_failure range symbol next rest results w :
  fetch_historical (provider w) symbol (Some range) = None ->
  paced 1000
    (trace (snd (bulk_loop range (symbol :: next :: rest) results w)))
    = false.
Proof.
  intro Hf.
  destruct (bulk_step_on_failed_fetch range symbol results w Hf)
    as (Hres & _ & _ & _ & _ & Htr).
  simpl bulk_loop. unfold bind at 1.
  destruct (bulk_step range symbol results w) as [c w1].
  simpl in Hres, Htr. subst c.
  destruct (bulk_step_starts_with_request range next
              (results ++ [BulkLoadResult.mk symbol None Status.failed
                             (Some ("Fallo al obtener precios históricos para "
                                    ++ symbol)%string)]) w1)
    as (later & Ht2).
  unfold bind.
  destruct (bulk_step range next _ w1) as [[acc|e] w2]; simpl in Ht2.
  - destruct (preserves_bulk_loop _ (trace_extends_invariant w2) range rest
                acc w2 (trace_extends_refl w2)) as (later3 & ->).
    rewrite Ht2, Htr. unfold paced.
    rewrite <- !app_assoc. simpl.
    apply (unpaced_pattern 1000 _ _ _ _ (later ++ later3)). lia.
  - simpl. rewrite Ht2, Htr. unfold paced.
    rewrite <- !app_assoc. simpl.
    apply (unpaced_pattern 1000 _ _ _ _ later). lia.
Qed.

(** C7 (the code departs from it): loading ZZZZ, for which the provider
    has nothing, and then AAPL, the bulk loader requests AAPL right after
    the failure of ZZZZ, with no pause in between; its only pause comes
    after AAPL.  The daily driver, on the same two symbols, pauses after
    each. *)
Theorem C7_bulk_load_no_pause_after_failure :
  let bulk :=
    snd (loadBulkHistoricalData ["ZZZZ"; "AAPL"] None
           (fresh_world stub_provider 0)) in
  let daily := snd (executeDailyClose two_assets_world) in
  trace bulk =
    [EvHttpGet "https://query1.finance.yahoo.com/v8/finance/chart/ZZZZ?range=5y&interval=1wk";
     EvConsoleError "Error extrayendo precios históricos para ZZZZ:";
     EvConsoleError "Error procesando ZZZZ:";
     EvHttpGet "https://query1.finance.yahoo.com/v8/finance/chart/AAPL?range=5y&interval=1wk";
     EvDb (AssetUpsert "AAPL");
     EvDb (PriceCreateMany 2);
     EvSleep 1000]
  /\ paced 1000 (trace bulk) = false
  /\ filter (fun e => match e with EvHttpGet _ | EvSleep _ => true | _ => false end)
       (trace daily) =
       [EvHttpGet "https://query1.finance.yahoo.com/v8/finance/chart/ZZZZ";
        EvSleep 1000;
        EvHttpGet "https://query1.finance.yahoo.com/v8/finance/chart/AAPL";
        EvSleep 1000]
  /\ paced 1000 (trace daily) = true.
Proof. vm_compute. repeat split. Qed.

(** ** Scheduler life cycle *)

Lemma start_when_stopped w :
  isRunning w = false ->
  cron_tasks (snd (start w)) =
    cron_tasks w ++ [market_close_task; health_check_task]
  /\ isRunning (snd (start w)) = true.
Proof.
  intro H. unfold start. rewrite H.
  unfold bind, cron_schedule. simpl.
  rewrite <- app_assoc. split; reflexivity.
Qed.

Lemma start_when_running w :
  isRunning w = true ->
  cron_tasks (snd (start w)) = cron_tasks w
  /\ isRunning (snd (start w)) = true
  /\ trace (snd (start w)) =
       trace w ++ [EvConsoleWarn "Scheduler está en ejecución"].
Proof.
  intro H. unfold start. rewrite H. simpl. auto.
Qed.

Lemma stop_keeps_tasks w :
  cron_tasks (snd (stop w)) = cron_tasks w
  /\ isRunning (snd (stop w)) = false.
Proof. split; reflexivity. Qed.

(** C10: [stop] clears the running flag and leaves node-cron's tasks as
    they are, so [start(); stop(); start()] schedules a second market-close
    task and a second health-check task next to the first ones, and from
    then on every tick fires twice as many of each as after one [start]
    (two of each when nothing else was scheduled); a second [start] while
    running only warns. *)
Theorem C10_restart_duplicates_jobs w :
  isRunning w = false ->
  let started := snd (start w) in
  let stopped := snd (stop started) in
  let restarted := snd (start stopped) in
  (cron_tasks stopped = cron_tasks started /\ isRunning stopped = false)
  /\ cron_tasks started =
       cron_tasks w ++ [market_close_task; health_check_task]
  /\ cron_tasks restarted =
       cron_tasks w ++ [market_close_task; health_check_task;
                        market_close_task; health_check_task]
  /\ (cron_tasks (snd (start started)) = cron_tasks started
      /\ trace (snd (start started)) =
           trace started ++ [EvConsoleWarn "Scheduler está en ejecución"])
  /\ (cron_tasks w = [] ->
      forall t,
        market_close_firings t restarted = (2 * market_close_firings t started)%nat
        /\ health_check_firings t restarted = (2 * health_check_firings t started)%nat
        /\ (cron_matches "30 21 * * 1-5" t = true ->
            market_close_firings t restarted = 2%nat)
        /\ (cron_matches "0 * * * *" t = true ->
            health_check_firings t restarted = 2%nat)).
Proof.
  intros Hstopped started stopped restarted.
  destruct (start_when_stopped w Hstopped) as [Htasks Hrun].
  fold started in Htasks, Hrun.
  destruct (stop_keeps_tasks started) as [Hkeep Hflag].
  fold stopped in Hkeep, Hflag.
  destruct (start_when_stopped stopped Hflag) as [Htasks2 _].
  fold restarted in Htasks2.
  destruct (start_when_running started Hrun) as (Hsame & _ & Hwarn).
  split; [auto|]. split; [exact Htasks|]. split; [|split; [auto|]].
  - rewrite Htasks2, Hkeep, Htasks, <- app_assoc. reflexivity.
  - intros Hnone t.
    rewrite Hkeep, Htasks, Hnone in Htasks2. rewrite Hnone in Htasks.
    unfold market_close_firings, health_check_firings, firing.
    rewrite Htasks2, Htasks. simpl.
    destruct (cron_matches "30 21 * * 1-5" t) eqn:Hm;
      destruct (cron_matches "0 * * * *" t) eqn:Hh; simpl;
      repeat split; auto; discriminate.
Qed.

(** A process that starts, stops and starts its scheduler: on a Monday at
    21:30 the market-close callback fires twice. *)
Lemma C10_witness :
  let w := fresh_world stub_provider 0 in
  isRunning w = false
  /\ market_close_firings monday_close
       (snd ((_ <- start ;; _ <- stop ;; start) w)) = 2%nat.
Proof.
  intro w. split; [reflexivity|].
  destruct (C10_restart_duplicates_jobs w eq_refl)
    as (_ & _ & _ & _ & H).
  destruct (H eq_refl monday_close) as (_ & _ & Hm & _).
  apply Hm. reflexivity.
Defined.

(** * Further properties of the services *)

(** ** What a run adds to the trace *)

Lemma events_since_app w w' evs :
  trace w' = trace w ++ evs -> events_since w w' = evs.
Proof.
  intro H. unfold events_since. rewrite H, skipn_app, skipn_all, Nat.sub_diag.
  reflexivity.
Qed.

Lemma requests_app l1 l2 : requests (l1 ++ l2) = requests l1 ++ requests l2.
Proof. apply flat_map_app. Qed.

Lemma pauses_app l1 l2 : pauses (l1 ++ l2) = pauses l1 ++ pauses l2.
Proof. apply flat_map_app. Qed.

Lemma statements_app l1 l2 :
  statements (l1 ++ l2) = statements l1 ++ statements l2.
Proof. apply flat_map_app. Qed.

Lemma requests_quiet l :
  Forall (fun e => quiet e = true) l -> requests l = [].
Proof.
  induction 1 as [|e l He _ IH]; [reflexivity|].
  destruct e; simpl in *; try discriminate; exact IH.
Qed.

Lemma pauses_quiet l :
  Forall (fun e => quiet e = true) l -> pauses l = [].
Proof.
  induction 1 as [|e l He _ IH]; [reflexivity|].
  destruct e; simpl in *; try discriminate; exact IH.
Qed.

Lemma paced_from_quiet delay l : forall slept rest,
  Forall (fun e => quiet e = true) l ->
  paced_from delay slept (l ++ rest) = paced_from delay slept rest.
Proof.
  induction l as [|e l IH]; intros slept rest H; [reflexivity|].
  inversion H as [|? ? He Hl]; subst.
  destruct e; simpl in *; try discriminate; now apply IH.
Qed.

(** Closes [exists later, tr ++ ... = tr ++ later /\ Forall quiet later]
    once the trace is explicit. *)
Ltac quiet_tail :=
  rewrite <- ?app_assoc; simpl;
  eexists; split; [reflexivity|repeat constructor].

(** The storage steps only talk to the database and to the console. *)
Lemma saveDailyPriceToDatabase_quiet priceData w :
  exists later,
    trace (snd (saveDailyPriceToDatabase priceData w)) = trace w ++ later
    /\ Forall (fun e => quiet e = true) later.
Proof.
  destruct w as [a p aseq pseq t pr f tr run cron].
  unfold saveDailyPriceToDatabase, try_catch, bind, ensureAssetExists,
    try_catch, bind, prisma_asset_upsert, bind, db_statement,
    prisma_price_create, bind, db_statement.
  simpl.
  destruct (hd None f); simpl; [quiet_tail|].
  destruct (find_asset _ a); simpl;
    (destruct (hd None (tl f)); simpl; [quiet_tail|]);
    (destruct (key_taken _ p); simpl; quiet_tail).
Qed.

Lemma saveHistoricalPricesToDatabase_quiet symbol historicalData w :
  exists later,
    trace (snd (saveHistoricalPricesToDatabase symbol historicalData w))
      = trace w ++ later
    /\ Forall (fun e => quiet e = true) later.
Proof.
  destruct w as [a p aseq pseq t pr f tr run cron].
  unfold saveHistoricalPricesToDatabase, try_catch, bind, ensureAssetExists,
    try_catch, bind, prisma_asset_upsert, bind, db_statement.
  simpl.
  destruct (hd None f); simpl; [quiet_tail|].
  destruct (find_asset symbol a); simpl;
    (destruct (Nat.eqb (List.length historicalData) 0); simpl;
     [quiet_tail|]);
    unfold prisma_price_createMany, bind, db_statement; simpl;
    (destruct (hd None (tl f)); simpl; [quiet_tail|]);
    (destruct (insert_skipping t _ p pseq); simpl; quiet_tail).
Qed.

(** A daily fetch: one request, then only the database and the console. *)
Lemma getDailyPrices_trace symbol w :
  exists later,
    trace (snd (getDailyPrices symbol w)) =
      trace w ++ EvHttpGet (daily_url symbol) :: later
    /\ Forall (fun e => quiet e = true) later.
Proof.
  pose proof (getDailyPrices_cases symbol w) as Hc.
  destruct (fetch_daily (provider w) symbol) as [pd|].
  - rewrite Hc. simpl.
    destruct (saveDailyPriceToDatabase_quiet pd
                (emit w (EvHttpGet (daily_url symbol)))) as (later & -> & Hq).
    simpl. rewrite <- app_assoc. exists later. split; [reflexivity|exact Hq].
  - destruct Hc as (_ & _ & _ & _ & ->).
    eexists. split; [reflexivity|repeat constructor].
Qed.

Lemma getHistoricalPrices_trace symbol rangeKey w :
  exists later,
    trace (snd (getHistoricalPrices symbol rangeKey w)) =
      trace w ++ EvHttpGet (request_url symbol rangeKey) :: later
    /\ Forall (fun e => quiet e = true) later.
Proof.
  pose proof (getHistoricalPrices_cases symbol rangeKey w) as Hc.
  destruct (fetch_historical (provider w) symbol rangeKey) as [hd|].
  - rewrite Hc. simpl.
    destruct (saveHistoricalPricesToDatabase_quiet symbol hd
                (emit w (EvHttpGet (request_url symbol rangeKey))))
      as (later & -> & Hq).
    simpl. rewrite <- app_assoc. exists later. split; [reflexivity|exact Hq].
  - destruct Hc as (_ & _ & _ & _ & ->).
    eexists. split; [reflexivity|repeat constructor].
Qed.

(** ** The daily-close driver *)

Lemma scheduler_state_invariant b l :
  invariant (fun w => isRunning w = b /\ cron_tasks w = l).
Proof.
  constructor; unfold preserves.
  - intros e [a pz aseq pseq t pr f tr run cron] H. exact H.
  - intros ms [a pz aseq pseq t pr f tr run cron] H. exact H.
  - intros url [a pz aseq pseq t pr f tr run cron] H.
    unfold axios_get. simpl. destruct (pr url); exact H.
  - intros [a pz aseq pseq t pr f tr run cron] H.
    unfold prisma_asset_findMany_symbols, bind, db_statement. simpl.
    destruct (hd None f); exact H.
  - intros ws cs cn ct [a pz aseq pseq t pr f tr run cron] H.
    unfold prisma_asset_upsert, bind, db_statement. simpl.
    destruct (hd None f); simpl; [exact H|].
    destruct (find_asset ws a); simpl; [exact H|].
    destruct (find_asset cs a); exact H.
  - intros d [a pz aseq pseq t pr f tr run cron] H.
    unfold prisma_price_create, bind, db_statement. simpl.
    destruct (hd None f); simpl; [exact H|].
    destruct (key_taken _ pz); exact H.
  - intros d skip [a pz aseq pseq t pr f tr run cron] H.
    unfold prisma_price_createMany, bind, db_statement. simpl.
    destruct (hd None f); simpl; [exact H|].
    destruct skip.
    + destruct (insert_skipping t d pz pseq); exact H.
    + destruct (insert_all t d pz pseq) as [[? ?]|]; exact H.
Qed.

(** One turn of the daily loop. *)
Lemma daily_step_spec symbol processed failed w :
  exists later w',
    daily_step symbol (processed, failed) w =
      (Normal (if has_snapshot (provider w) symbol
               then (S processed, failed) else (processed, S failed)), w')
    /\ now w' = now w + 1000
    /\ provider w' = provider w
    /\ trace w' =
         trace w ++ EvHttpGet (daily_url symbol) :: later ++ [EvSleep 1000]
    /\ Forall (fun e => quiet e = true) later.
Proof.
  pose proof (getDailyPrices_cases symbol w) as Hc.
  pose proof (getDailyPrices_clock symbol w) as Hclock.
  assert (Hprov : provider (snd (getDailyPrices symbol w)) = provider w)
    by now apply (preserves_getDailyPrices _ (provider_invariant _)).
  destruct (getDailyPrices_trace symbol w) as (later & Htr & Hq).
  exists later.
  unfold daily_step, bind, try_catch, bind, has_snapshot.
  destruct (fetch_daily (provider w) symbol) as [pd|].
  - rewrite Hc in *. simpl in *. eexists. split; [reflexivity|].
    simpl. rewrite Hclock, Hprov, Htr, <- app_assoc. auto.
  - destruct Hc as (Hres & _).
    destruct (getDailyPrices symbol w) as [c w1]. simpl in *. subst c.
    simpl. eexists. split; [reflexivity|].
    simpl. rewrite Hclock, Hprov, Htr, <- app_assoc. auto.
Qed.

Lemma daily_loop_cons s symbols counters w :
  daily_loop (s :: symbols) counters w =
    match daily_step s counters w with
    | (Normal counters', w1) => daily_loop symbols counters' w1
    | (Abrupt e, w1) => (Abrupt e, w1)
    end.
Proof. reflexivity. Qed.

(** The whole loop: counters, clock and trace. *)
Lemma daily_loop_spec symbols : forall processed failed w,
  exists evs w',
    daily_loop symbols (processed, failed) w =
      (Normal ((processed + snapshots_available (provider w) symbols)%nat,
               (failed + (List.length symbols
                          - snapshots_available (provider w) symbols))%nat),
       w')
    /\ now w' = now w + 1000 * Z.of_nat (List.length symbols)
    /\ provider w' = provider w
    /\ trace w' = trace w ++ evs
    /\ requests evs = map daily_url symbols
    /\ pauses evs = map (fun _ => 1000) symbols
    /\ (forall slept rest,
          rested slept ->
          paced_from 1000 slept (evs ++ rest)
          = paced_from 1000 (match symbols with
                             | [] => slept
                             | _ :: _ => Some 1000
                             end) rest).
Proof.
  induction symbols as [|s symbols IH]; intros processed failed w.
  - exists [], w. simpl. unfold ret, snapshots_available. simpl.
    rewrite !Nat.add_0_r, app_nil_r, Z.add_0_r. repeat split.
  - destruct (daily_step_spec s processed failed w)
      as (later & w1 & Hstep & Hclock & Hprov & Htr & Hq).
    rewrite daily_loop_cons, Hstep.
    assert (Hle : (snapshots_available (provider w) symbols
                   <= List.length symbols)%nat)
      by apply filter_length_le.
    destruct (has_snapshot (provider w) s) eqn:Hs.
    + destruct (IH (S processed) failed w1)
        as (evs & w2 & Hloop & Hclock2 & Hprov2 & Htr2 & Hreq & Hpause & Hpaced).
      exists (EvHttpGet (daily_url s) :: later ++ [EvSleep 1000] ++ evs), w2.
      rewrite Hloop, Hprov. unfold snapshots_available. simpl filter.
      rewrite Hs. simpl List.length.
      split; [f_equal; f_equal; f_equal; lia|].
      split; [rewrite Hclock2, Hclock; lia|].
      split; [now rewrite Hprov2|].
      split; [rewrite Htr2, Htr, <- !app_assoc; simpl;
              rewrite <- ?app_assoc; reflexivity|].
      split; [simpl; rewrite requests_app, (requests_quiet _ Hq); simpl;
              now rewrite Hreq|].
      split; [simpl; rewrite pauses_app, (pauses_quiet _ Hq); simpl;
              now rewrite Hpause|].
      intros slept rest Hrest. simpl.
      assert (Hcheck : forall b : bool,
                 match slept with
                 | Some x => (1000 <=? x)%Z && b
                 | None => b
                 end = b).
      { intro b. destruct slept as [x|]; [|reflexivity].
        simpl in Hrest. apply Z.leb_le in Hrest. now rewrite Hrest. }
      rewrite Hcheck, <- app_assoc, (paced_from_quiet _ _ _ _ Hq). simpl.
      rewrite (Hpaced (Some 1000) rest); [|simpl; lia].
      destruct symbols; reflexivity.
    + destruct (IH processed (S failed) w1)
        as (evs & w2 & Hloop & Hclock2 & Hprov2 & Htr2 & Hreq & Hpause & Hpaced).
      exists (EvHttpGet (daily_url s) :: later ++ [EvSleep 1000] ++ evs), w2.
      rewrite Hloop, Hprov. unfold snapshots_available. simpl filter.
      rewrite Hs. simpl List.length.
      unfold snapshots_available in Hle.
      split; [f_equal; f_equal; f_equal; lia|].
      split; [rewrite Hclock2, Hclock; lia|].
      split; [now rewrite Hprov2|].
      split; [rewrite Htr2, Htr, <- !app_assoc; simpl;
              rewrite <- ?app_assoc; reflexivity|].
      split; [simpl; rewrite requests_app, (requests_quiet _ Hq); simpl;
              now rewrite Hreq|].
      split; [simpl; rewrite pauses_app, (pauses_quiet _ Hq); simpl;
              now rewrite Hpause|].
      intros slept rest Hrest. simpl.
      assert (Hcheck : forall b : bool,
                 match slept with
                 | Some x => (1000 <=? x)%Z && b
                 | None => b
                 end = b).
      { intro b. destruct slept as [x|]; [|reflexivity].
        simpl in Hrest. apply Z.leb_le in Hrest. now rewrite Hrest. }
      rewrite Hcheck, <- app_assoc, (paced_from_quiet _ _ _ _ Hq). simpl.
      rewrite (Hpaced (Some 1000) rest); [|simpl; lia].
      destruct symbols; reflexivity.
Qed.

(** The three ways a daily close can go. *)
Lemma executeDailyClose_on_fault w e :
  hd None (db_faults w) = Some e ->
  let w' := snd (executeDailyClose w) in
  trace w' = trace w ++ [EvDb AssetFindMany;
                         EvConsoleError "Error en executeDailyClose:"]
  /\ now w' = now w /\ assets w' = assets w /\ prices w' = prices w.
Proof.
  destruct w as [a p aseq pseq t pr f tr run cron]. simpl. intro Hf.
  unfold executeDailyClose, try_catch, bind, prisma_asset_findMany_symbols,
    bind, db_statement.
  simpl. rewrite Hf. simpl. rewrite <- app_assoc. auto.
Qed.

Lemma executeDailyClose_on_empty w :
  hd None (db_faults w) = None -> assets w = [] ->
  let w' := snd (executeDailyClose w) in
  trace w' = trace w ++ [EvDb AssetFindMany]
  /\ now w' = now w /\ assets w' = assets w /\ prices w' = prices w.
Proof.
  destruct w as [a p aseq pseq t pr f tr run cron]. simpl. intros Hf ->.
  unfold executeDailyClose, try_catch, bind, prisma_asset_findMany_symbols,
    bind, db_statement.
  simpl. rewrite Hf. simpl. auto.
Qed.

Lemma executeDailyClose_on_assets w :
  hd None (db_faults w) = None -> assets w <> [] ->
  let w' := snd (executeDailyClose w) in
  let symbols := map Asset.symbol (assets w) in
  let processed := snapshots_available (provider w) symbols in
  exists evs,
    trace w' =
      trace w ++ EvDb AssetFindMany :: evs
      ++ [EvDailySummary processed (List.length symbols - processed)]
    /\ requests evs = map daily_url symbols
    /\ pauses evs = map (fun _ => 1000) symbols
    /\ now w' = now w + 1000 * Z.of_nat (List.length symbols)
    /\ paced 1000
         (EvDb AssetFindMany :: evs
          ++ [EvDailySummary processed (List.length symbols - processed)])
       = true.
Proof.
  destruct w as [a p aseq pseq t pr f tr run cron]. simpl. intros Hf Ha.
  unfold executeDailyClose, try_catch, bind, prisma_asset_findMany_symbols,
    bind, db_statement.
  simpl. rewrite Hf. simpl.
  destruct (Nat.eqb (List.length (map Asset.symbol a)) 0) eqn:He.
  { apply Nat.eqb_eq in He. rewrite length_map in He.
    destruct a; [contradiction|discriminate]. }
  match goal with
  | |- context [daily_loop ?l _ ?W] =>
      destruct (daily_loop_spec l 0 0 W)
        as (evs & w2 & Hloop & Hclock & _ & Htr & Hreq & Hpause & Hpaced)
  end.
  rewrite Hloop. simpl in Hclock, Htr. simpl.
  exists evs. rewrite Htr, Hclock, <- !app_assoc. simpl.
  repeat split; auto.
  unfold paced. simpl.
  rewrite (Hpaced None _ I). destruct (map Asset.symbol a); reflexivity.
Qed.

(** ** The bulk loader *)

Lemma saveHistoricalPricesToDatabase_clock symbol historicalData w :
  now (snd (saveHistoricalPricesToDatabase symbol historicalData w)) = now w.
Proof.
  destruct w as [a p aseq pseq t pr f tr run cron].
  unfold saveHistoricalPricesToDatabase, try_catch, bind, ensureAssetExists,
    try_catch, bind, prisma_asset_upsert, bind, db_statement.
  simpl.
  destruct (hd None f); simpl; [reflexivity|].
  destruct (find_asset symbol a); simpl;
    (destruct (Nat.eqb (List.length historicalData) 0); simpl;
     [reflexivity|]);
    unfold prisma_price_createMany, bind, db_statement; simpl;
    (destruct (hd None (tl f)); simpl; [reflexivity|]);
    (destruct (insert_skipping t _ p pseq); reflexivity).
Qed.

Lemma getHistoricalPrices_clock symbol rangeKey w :
  now (snd (getHistoricalPrices symbol rangeKey w)) = now w.
Proof.
  pose proof (getHistoricalPrices_cases symbol rangeKey w) as Hc.
  destruct (fetch_historical (provider w) symbol rangeKey) as [hd|].
  - rewrite Hc. simpl. now rewrite saveHistoricalPricesToDatabase_clock.
  - now destruct Hc as (_ & _ & _ & -> & _).
Qed.

(** One turn of the bulk loop. *)
Lemma bulk_step_spec range symbol acc w :
  exists later w',
    bulk_step range symbol acc w =
      (Normal (acc ++ [outcome_of (provider w) range symbol]), w')
    /\ provider w' = provider w
    /\ now w' = now w + (if has_series (provider w) symbol (Some range)
                         then 1000 else 0)
    /\ trace w' =
         trace w ++ EvHttpGet (request_url symbol (Some range)) :: later
         ++ (if has_series (provider w) symbol (Some range)
             then [EvSleep 1000] else [])
    /\ Forall (fun e => quiet e = true) later.
Proof.
  pose proof (getHistoricalPrices_cases symbol (Some range) w) as Hc.
  pose proof (getHistoricalPrices_clock symbol (Some range) w) as Hclock.
  assert (Hprov : provider (snd (getHistoricalPrices symbol (Some range) w))
                  = provider w)
    by now apply (preserves_getHistoricalPrices _ (provider_invariant _)).
  destruct (getHistoricalPrices_trace symbol (Some range) w)
    as (later & Htr & Hq).
  unfold bulk_step, try_catch, bind, outcome_of, has_series.
  destruct (fetch_historical (provider w) symbol (Some range)) as [hd|].
  - exists later. rewrite Hc in *. simpl in *. eexists.
    split; [reflexivity|]. simpl.
    rewrite Hclock, Hprov, Htr, <- app_assoc. auto.
  - destruct Hc as (Hres & _).
    destruct (getHistoricalPrices symbol (Some range) w) as [c w1].
    simpl in *. subst c. simpl.
    exists (later ++ [EvConsoleError ("Error procesando " ++ symbol ++ ":")%string]).
    eexists. split; [reflexivity|]. simpl.
    rewrite Hclock, Hprov, Htr, <- !app_assoc, Z.add_0_r, app_nil_r. simpl.
    repeat split; auto.
    apply Forall_app. split; [exact Hq|repeat constructor].
Qed.

Lemma bulk_loop_cons range s symbols acc w :
  bulk_loop range (s :: symbols) acc w =
    match bulk_step range s acc w with
    | (Normal acc', w1) => bulk_loop range symbols acc' w1
    | (Abrupt e, w1) => (Abrupt e, w1)
    end.
Proof. reflexivity. Qed.

(** The whole loop: outcomes, clock and trace. *)
Lemma bulk_loop_spec range symbols : forall acc w,
  exists evs w',
    bulk_loop range symbols acc w =
      (Normal (acc ++ map (outcome_of (provider w) range) symbols), w')
    /\ provider w' = provider w
    /\ now w' = now w
                + 1000 * Z.of_nat (series_available (provider w) range symbols)
    /\ trace w' = trace w ++ evs
    /\ requests evs = map (fun s => request_url s (Some range)) symbols
    /\ pauses evs =
         map (fun _ => 1000)
             (filter (fun s => has_series (provider w) s (Some range)) symbols)
    /\ (Forall (fun s => has_series (provider w) s (Some range) = true) symbols ->
        forall slept rest,
          rested slept ->
          paced_from 1000 slept (evs ++ rest)
          = paced_from 1000 (match symbols with
                             | [] => slept
                             | _ :: _ => Some 1000
                             end) rest).
Proof.
  induction symbols as [|s symbols IH]; intros acc w.
  - exists [], w. simpl. unfold ret, series_available. simpl.
    rewrite !app_nil_r, Z.add_0_r. repeat split.
  - destruct (bulk_step_spec range s acc w)
      as (later & w1 & Hstep & Hprov & Hclock & Htr & Hq).
    rewrite bulk_loop_cons, Hstep.
    destruct (IH (acc ++ [outcome_of (provider w) range s]) w1)
      as (evs & w2 & Hloop & Hprov2 & Hclock2 & Htr2 & Hreq & Hpause & Hpaced).
    rewrite Hprov in *.
    exists (EvHttpGet (request_url s (Some range)) :: later
            ++ (if has_series (provider w) s (Some range)
                then [EvSleep 1000] else []) ++ evs), w2.
    rewrite Hloop.
    split; [simpl; now rewrite <- app_assoc|].
    split; [exact Hprov2|].
    split.
    { rewrite Hclock2, Hclock. unfold series_available. simpl filter.
      destruct (has_series (provider w) s (Some range)); simpl List.length; lia. }
    split.
    { rewrite Htr2, Htr, <- !app_assoc. simpl. rewrite <- ?app_assoc.
      reflexivity. }
    split.
    { simpl. rewrite requests_app, (requests_quiet _ Hq), requests_app, Hreq.
      destruct (has_series (provider w) s (Some range)); reflexivity. }
    split.
    { simpl. rewrite pauses_app, (pauses_quiet _ Hq), pauses_app, Hpause.
      destruct (has_series (provider w) s (Some range)); reflexivity. }
    intros Hall slept rest Hrest.
    inversion Hall as [|? ? Hs Hall']; subst. rewrite Hs. simpl.
    assert (Hcheck : forall b : bool,
               match slept with
               | Some x => (1000 <=? x)%Z && b
               | None => b
               end = b).
    { intro b. destruct slept as [x|]; [|reflexivity].
      simpl in Hrest. apply Z.leb_le in Hrest. now rewrite Hrest. }
    rewrite Hcheck, <- app_assoc, (paced_from_quiet _ _ _ _ Hq). simpl.
    rewrite (Hpaced Hall' (Some 1000) rest); [|simpl; lia].
    destruct symbols; reflexivity.
Qed.

(** ** Rows for every point *)

Lemma priceRecords_covered historicalData a keys :
  Forall (fun d => exists k, input_key d = Some k /\ In k keys)
         (priceRecords historicalData a)
  <-> Forall (fun item => In (Asset.id a, HistoricalItem.date item) keys)
             historicalData.
Proof.
  unfold priceRecords. rewrite Forall_map. split; intro H;
    eapply Forall_impl; try exact H; simpl; intros item Hi.
  - destruct Hi as (k & Hk & Hin). unfold input_key in Hk. simpl in Hk.
    now inversion Hk; subst.
  - eexists. split; [reflexivity|exact Hi].
Qed.

Lemma covered_persists symbol historicalData w w' :
  keeps_rows_of w w' ->
  covered symbol historicalData w -> covered symbol historicalData w'.
Proof.
  intros [(addedp & Hp) (addeda & Ha)] (a & Hf & Hall).
  exists a. rewrite Ha, Hp. split; [now apply find_asset_extends|].
  eapply Forall_impl; [|exact Hall]. simpl. intros item Hin.
  rewrite map_app, in_app_iff. now left.
Qed.

Lemma covered_same_tables symbol historicalData w w' :
  assets w' = assets w -> prices w' = prices w ->
  covered symbol historicalData w -> covered symbol historicalData w'.
Proof. intros Ha Hp (a & Hf & Hall). exists a. now rewrite Ha, Hp. Qed.

(** The Asset table after the historical storage step is the one the
    registration leaves. *)
Lemma saveHistoricalPricesToDatabase_assets symbol historicalData w :
  assets (snd (saveHistoricalPricesToDatabase symbol historicalData w))
    = assets (snd (ensureAssetExists symbol w)).
Proof.
  destruct w as [a p aseq pseq t pr f tr run cron].
  unfold saveHistoricalPricesToDatabase, try_catch, bind, ensureAssetExists,
    try_catch, bind, prisma_asset_upsert, bind, db_statement.
  simpl.
  destruct (hd None f); simpl; [reflexivity|].
  destruct (find_asset symbol a); simpl;
    (destruct (Nat.eqb (List.length historicalData) 0); simpl;
     [reflexivity|]);
    unfold prisma_price_createMany, bind, db_statement; simpl;
    (destruct (hd None (tl f)); simpl; [reflexivity|]);
    (destruct (insert_skipping t _ p pseq); reflexivity).
Qed.

Lemma ensureAssetExists_registered symbol a w :
  find_asset symbol (assets w) = Some a ->
  assets (snd (ensureAssetExists symbol w)) = assets w.
Proof.
  intro Hf.
  destruct (ensureAssetExists_cases symbol w) as (_ & _ & _ & _ & _ & H).
  destruct (hd None (db_faults w)).
  - now destruct H as (_ & -> & _).
  - destruct H as (_ & H). rewrite Hf in H. now destruct H as (_ & ->).
Qed.

(** With a database that answers, the storage step covers the series. *)
Lemma saveHistoricalPricesToDatabase_covers symbol historicalData w :
  db_faults w = [] ->
  covered symbol historicalData
          (snd (saveHistoricalPricesToDatabase symbol historicalData w)).
Proof.
  intro Hw.
  destruct (saveHistoricalPricesToDatabase_healthy symbol historicalData w Hw)
    as (a & Hf & _ & Hrows).
  exists a. split; [exact Hf|]. rewrite Hrows.
  destruct historicalData as [|item rest]; [constructor|].
  cbn [List.length Nat.eqb].
  apply priceRecords_covered.
  apply insert_skipping_covers, priceRecords_dated.
Qed.

(** On a covered series the storage step changes neither table. *)
Lemma saveHistoricalPricesToDatabase_on_covered symbol historicalData w :
  db_faults w = [] ->
  covered symbol historicalData w ->
  let w' := snd (saveHistoricalPricesToDatabase symbol historicalData w) in
  prices w' = prices w /\ assets w' = assets w.
Proof.
  intros Hw (a & Hf & Hall) w'.
  destruct (saveHistoricalPricesToDatabase_healthy symbol historicalData w Hw)
    as (a' & _ & Hsame & Hrows).
  specialize (Hsame a Hf). subst a'. fold w' in Hrows. split.
  - rewrite Hrows.
    destruct (Nat.eqb (List.length historicalData) 0); [reflexivity|].
    rewrite insert_skipping_all_taken; [reflexivity|].
    now apply priceRecords_covered.
  - unfold w'. rewrite saveHistoricalPricesToDatabase_assets.
    now apply (ensureAssetExists_registered symbol a).
Qed.

Lemma bulk_step_tables range symbol acc w :
  assets (snd (bulk_step range symbol acc w))
    = assets (snd (getHistoricalPrices symbol (Some range) w))
  /\ prices (snd (bulk_step range symbol acc w))
     = prices (snd (getHistoricalPrices symbol (Some range) w)).
Proof.
  unfold bulk_step, try_catch, bind.
  destruct (getHistoricalPrices symbol (Some range) w) as [[hd|e] w1];
    split; reflexivity.
Qed.

(** After one turn of the loop, on a database that answers, the series
    of the symbol is covered. *)
Lemma bulk_step_covers range symbol acc w :
  db_faults w = [] ->
  match fetch_historical (provider w) symbol (Some range) with
  | Some historicalData =>
      covered symbol historicalData (snd (bulk_step range symbol acc w))
  | None => True
  end.
Proof.
  intro Hw.
  pose proof (getHistoricalPrices_cases symbol (Some range) w) as Hc.
  destruct (bulk_step_tables range symbol acc w) as [Ha Hp].
  destruct (fetch_historical (provider w) symbol (Some range)) as [hd|];
    [|exact I].
  apply (covered_same_tables symbol hd
           (snd (getHistoricalPrices symbol (Some range) w))); auto.
  rewrite Hc. simpl. now apply saveHistoricalPricesToDatabase_covers.
Qed.

(** A turn of the loop on a symbol whose series is covered, or for which
    the provider has nothing, changes neither table. *)
Lemma bulk_step_on_covered range symbol acc w :
  db_faults w = [] ->
  match fetch_historical (provider w) symbol (Some range) with
  | Some historicalData => covered symbol historicalData w
  | None => True
  end ->
  assets (snd (bulk_step range symbol acc w)) = assets w
  /\ prices (snd (bulk_step range symbol acc w)) = prices w.
Proof.
  intros Hw Hcov.
  pose proof (getHistoricalPrices_cases symbol (Some range) w) as Hc.
  destruct (bulk_step_tables range symbol acc w) as [-> ->].
  destruct (fetch_historical (provider w) symbol (Some range)) as [hd|].
  - rewrite Hc. simpl.
    assert (Hcov' : covered symbol hd
                      (emit w (EvHttpGet (request_url symbol (Some range)))))
      by now apply (covered_same_tables symbol hd w).
    destruct (saveHistoricalPricesToDatabase_on_covered symbol hd
                (emit w (EvHttpGet (request_url symbol (Some range))))
                Hw Hcov') as [Hp Ha].
    split; [exact Ha|exact Hp].
  - destruct Hc as (_ & -> & -> & _). auto.
Qed.

Lemma all_covered_same_tables symbols range w w' :
  provider w' = provider w -> assets w' = assets w -> prices w' = prices w ->
  all_covered symbols range w -> all_covered symbols range w'.
Proof.
  intros Hpr Ha Hp H. unfold all_covered in *. rewrite Hpr.
  eapply Forall_impl; [|exact H]. simpl. intros s Hs.
  destruct (fetch_historical (provider w) s (Some range)); [|exact I].
  now apply (covered_same_tables s l w).
Qed.

Lemma all_covered_persists symbols range w w' :
  provider w' = provider w -> keeps_rows_of w w' ->
  all_covered symbols range w -> all_covered symbols range w'.
Proof.
  intros Hpr Hk H. unfold all_covered in *. rewrite Hpr.
  eapply Forall_impl; [|exact H]. simpl. intros s Hs.
  destruct (fetch_historical (provider w) s (Some range)); [|exact I].
  now apply (covered_persists s l w).
Qed.

Lemma bulk_loop_covers range symbols : forall acc w,
  db_faults w = [] ->
  all_covered symbols range (snd (bulk_loop range symbols acc w)).
Proof.
  induction symbols as [|s symbols IH]; intros acc w Hw; [constructor|].
  pose proof (bulk_step_covers range s acc w Hw) as Hs.
  assert (Hw1 : db_faults (snd (bulk_step range s acc w)) = [])
    by now apply (preserves_bulk_step _ healthy_invariant).
  assert (Hp1 : provider (snd (bulk_step range s acc w)) = provider w)
    by now apply (preserves_bulk_step _ (provider_invariant _)).
  rewrite bulk_loop_cons.
  destruct (bulk_step_pushes_one range s w) as (r & w1 & _ & _ & Hstep).
  rewrite (Hstep acc) in *. simpl in Hs, Hw1, Hp1.
  assert (Hp2 : provider (snd (bulk_loop range symbols (acc ++ [r]) w1))
                = provider w1)
    by now apply (preserves_bulk_loop _ (provider_invariant _)).
  constructor.
  - rewrite Hp2, Hp1.
    destruct (fetch_historical (provider w) s (Some range)) as [hd|];
      [|exact I].
    apply (covered_persists s hd w1); [|exact Hs].
    apply (preserves_bulk_loop _ (keeps_rows_invariant w1)), keeps_rows_refl.
  - now apply IH.
Qed.

Lemma bulk_loop_on_covered range symbols : forall acc w,
  db_faults w = [] ->
  all_covered symbols range w ->
  assets (snd (bulk_loop range symbols acc w)) = assets w
  /\ prices (snd (bulk_loop range symbols acc w)) = prices w.
Proof.
  induction symbols as [|s symbols IH]; intros acc w Hw Hall; [auto|].
  inversion Hall as [|? ? Hs Hrest]; subst.
  destruct (bulk_step_on_covered range s acc w Hw Hs) as [Ha Hp].
  assert (Hw1 : db_faults (snd (bulk_step range s acc w)) = [])
    by now apply (preserves_bulk_step _ healthy_invariant).
  assert (Hp1 : provider (snd (bulk_step range s acc w)) = provider w)
    by now apply (preserves_bulk_step _ (provider_invariant _)).
  rewrite bulk_loop_cons.
  destruct (bulk_step_pushes_one range s w) as (r & w1 & _ & _ & Hstep).
  rewrite (Hstep acc) in *. simpl in Ha, Hp, Hw1, Hp1.
  destruct (IH (acc ++ [r]) w1 Hw1) as [Ha2 Hp2].
  - now apply (all_covered_same_tables symbols range w).
  - now rewrite Ha2, Hp2.
Qed.

(** ** Uniqueness of (asset, date), and what a repeated ingestion writes *)

(** The row a first daily ingestion wrote, seen from any later state. *)
Lemma first_daily_row symbol w later first :
  keeps_rows_of (snd (getDailyPrices symbol w)) later ->
  In first (prices (snd (getDailyPrices symbol w))) ->
  ~ In first (prices w) ->
  exists a,
    find_asset (toUpperCase symbol) (assets later) = Some a
    /\ price_key first = (Asset.id a, now w)
    /\ In first (prices later).
Proof.
  intros [(rows & Hp) (more & Ha)] Hin Hnot.
  pose proof (getDailyPrices_cases symbol w) as Hc.
  destruct (fetch_daily (provider w) symbol) as [pd|] eqn:Hf.
  - rewrite Hc in Hin, Hp, Ha. simpl in Hin, Hp, Ha.
    destruct (saveDailyPriceToDatabase_new_row pd
                (emit w (EvHttpGet (daily_url symbol))) first Hin Hnot)
      as (a & Hfind & Hkey).
    rewrite (fetch_daily_symbol _ _ _ Hf) in Hfind.
    exists a. split; [|split].
    + rewrite Ha. now apply find_asset_extends.
    + exact Hkey.
    + rewrite Hp. apply in_app_iff. now left.
  - destruct Hc as (_ & _ & Hsame & _). rewrite Hsame in Hin. contradiction.
Qed.

(** C1 (as amended): no ingestion path ever leaves two Price rows with the
    same (asset, date), nor rewrites or removes a row that is there.  A
    historical load run again for the same symbol and range, at any later
    time and whatever the provider answers then, writes no duplicate: with
    a database that answers, every point of the series has its one row
    afterwards, the points stored before being skipped.  A daily-close
    ingestion run again creates no second row when it is dated the very
    instant the first row is dated; dated any other instant, it adds a
    second row for the asset. *)
Theorem C1_asset_date_unique symbol rangeKey w :
  unique_prices w ->
  let h := snd (getHistoricalPrices symbol rangeKey w) in
  let d := snd (getDailyPrices symbol w) in
  (unique_prices h /\ unique_prices d
   /\ (forall symbols range,
         unique_prices (snd (loadBulkHistoricalData symbols range w)))
   /\ unique_prices (snd (executeDailyClose w)))
  /\ (keeps_rows_of w h /\ keeps_rows_of w d)
  /\ (forall later,
        keeps_rows_of h later -> unique_prices later ->
        let h2 := snd (getHistoricalPrices symbol rangeKey later) in
        unique_prices h2 /\ keeps_rows_of h h2
        /\ (db_faults later = [] ->
            forall series,
              fetch_historical (provider later) symbol rangeKey = Some series ->
              covered symbol series h2
              /\ (covered symbol series later -> prices h2 = prices later)))
  /\ (forall later first,
        keeps_rows_of d later ->
        In first (prices d) -> ~ In first (prices w) ->
        now later = Price.date first ->
        prices (snd (getDailyPrices symbol later)) = prices later)
  /\ (forall later first,
        keeps_rows_of d later -> db_faults later = [] ->
        In first (prices d) -> ~ In first (prices w) ->
        fetch_daily (provider later) symbol <> None ->
        (forall p, In p (prices later) ->
                   Price.assetId p = Price.assetId first ->
                   Price.date p <> now later) ->
        exists second,
          prices (snd (getDailyPrices symbol later)) = prices later ++ [second]
          /\ Price.assetId second = Price.assetId first
          /\ Price.date second = now later).
Proof.
  intros Hu h d.
  pose proof unique_prices_invariant as Hinv.
  assert (Hkh : keeps_rows_of w h)
    by apply (preserves_getHistoricalPrices _ (keeps_rows_invariant w)),
         keeps_rows_refl.
  assert (Hkd : keeps_rows_of w d)
    by apply (preserves_getDailyPrices _ (keeps_rows_invariant w)),
         keeps_rows_refl.
  split; [|split; [|split; [|split]]].
  - repeat split.
    + now apply (preserves_getHistoricalPrices _ Hinv).
    + now apply (preserves_getDailyPrices _ Hinv).
    + intros symbols range.
      now apply (preserves_loadBulkHistoricalData _ Hinv).
    + now apply (preserves_executeDailyClose _ Hinv).
  - split; assumption.
  - intros later Hk Hul h2.
    split; [now apply (preserves_getHistoricalPrices _ Hinv)|].
    split.
    { apply (keeps_rows_trans h later h2 Hk).
      apply (preserves_getHistoricalPrices _ (keeps_rows_invariant later)),
        keeps_rows_refl. }
    intros Hdb series Hf.
    pose proof (getHistoricalPrices_cases symbol rangeKey later) as Hc.
    rewrite Hf in Hc.
    set (w1 := emit later (EvHttpGet (request_url symbol rangeKey))) in *.
    assert (E : h2 = snd (saveHistoricalPricesToDatabase symbol series w1))
      by (unfold h2; now rewrite Hc).
    rewrite E. split.
    + now apply saveHistoricalPricesToDatabase_covers.
    + intro Hcov.
      assert (Hcov1 : covered symbol series w1)
        by now apply (covered_same_tables symbol series later w1).
      now destruct (saveHistoricalPricesToDatabase_on_covered symbol series
                      w1 Hdb Hcov1).
  - intros later first Hk Hin Hnot Hsame.
    destruct (first_daily_row symbol w later first Hk Hin Hnot)
      as (a & Hfind & Hkey & Hlater).
    pose proof (getDailyPrices_cases symbol later) as Hc.
    destruct (fetch_daily (provider later) symbol) as [pd|] eqn:Hf.
    + rewrite Hc. simpl.
      rewrite (saveDailyPriceToDatabase_key_taken pd _ a); simpl; auto.
      * now rewrite (fetch_daily_symbol _ _ _ Hf).
      * apply key_taken_In, in_map_iff. exists first. split; [|exact Hlater].
        rewrite Hkey. unfold price_key in Hkey. injection Hkey as Hid Hdate.
        now rewrite Hsame, Hdate.
    + now destruct Hc as (_ & _ & -> & _).
  - intros later first Hk Hdb Hin Hnot Hsnap Hfree.
    destruct (first_daily_row symbol w later first Hk Hin Hnot)
      as (a & Hfind & Hkey & Hlater).
    pose proof (getDailyPrices_cases symbol later) as Hc.
    destruct (fetch_daily (provider later) symbol) as [pd|] eqn:Hf;
      [|contradiction].
    unfold price_key in Hkey. injection Hkey as Hid Hdate.
    set (w1 := emit later (EvHttpGet (daily_url symbol))) in *.
    assert (Hrow : prices (snd (saveDailyPriceToDatabase pd w1))
                   = prices w1 ++ [row_of_input (price_seq w1) (now w1)
                                                (daily_record pd a)]).
    { apply saveDailyPriceToDatabase_key_free; simpl; auto.
      - now rewrite (fetch_daily_symbol _ _ _ Hf).
      - apply key_free_not_In. intro Hk1. apply in_map_iff in Hk1.
        destruct Hk1 as (p & Hp & Hinp). unfold price_key in Hp.
        injection Hp as Hpid Hpdate.
        apply (Hfree p Hinp); congruence. }
    exists (row_of_input (price_seq w1) (now w1) (daily_record pd a)).
    rewrite Hc. simpl. split; [exact Hrow|]. split; [congruence|reflexivity].
Qed.

(** The amended statement on an empty database with AAPL known to the
    provider: a second daily ingestion at the instant of the first adds
    nothing; a second later, it adds a second row. *)
Lemma C1_witness :
  let w := fresh_world stub_provider 5000 in
  let d := snd (getDailyPrices "AAPL" w) in
  unique_prices w
  /\ List.length (prices d) = 1%nat
  /\ prices (snd (getDailyPrices "AAPL" d)) = prices d
  /\ List.length (prices (snd (getDailyPrices "AAPL" (snd (sleep 1000 d)))))
     = 2%nat.
Proof.
  intros w d.
  assert (Hu : unique_prices w) by constructor.
  destruct (C1_asset_date_unique "AAPL" (Some "5y") w Hu)
    as (_ & _ & _ & Hsame & Hother).
  fold d in Hsame, Hother.
  assert (E : exists first, prices d = [first])
    by (eexists; vm_compute; reflexivity).
  destruct E as (first & E).
  pose proof E as E0. vm_compute in E0. injection E0 as E0. subst first.
  match type of E with _ = [?r] => set (first := r) in * end.
  split; [exact Hu|]. split; [reflexivity|]. split.
  - apply (Hsame d first (keeps_rows_refl d)).
    + rewrite E. now left.
    + intros [].
    + reflexivity.
  - destruct (Hother (snd (sleep 1000 d)) first) as (second & -> & _).
    + split; exists []; reflexivity.
    + reflexivity.
    + rewrite E. now left.
    + intros [].
    + vm_compute. discriminate.
    + intros p Hp _. change (prices (snd (sleep 1000 d))) with (prices d) in Hp.
      rewrite E in Hp. destruct Hp as [<-|[]]. vm_compute. discriminate.
    + change (prices (snd (sleep 1000 d))) with (prices d). rewrite E.
      reflexivity.
Defined.

(** C1, as first stated, fails for the daily close: the manual driver run
    twice, one pacing delay apart, leaves two rows for AAPL dated the same
    day. *)
Lemma C1_counterexample_same_day :
  exists r1 r2,
    prices (snd ((runDailyCloseNow ;; runDailyCloseNow) registered_world))
      = [r1; r2]
    /\ Price.assetId r1 = Price.assetId r2
    /\ day_of (Price.date r1) = day_of (Price.date r2)
    /\ Price.date r1 <> Price.date r2.
Proof.
  eexists. eexists. split; [vm_compute; reflexivity|].
  split; [reflexivity|]. split; [reflexivity|]. discriminate.
Qed.

(** ** Range keys *)

Lemma lookup_config_missing key table :
  ~ In key (map fst table) -> lookup_config key table = None.
Proof.
  induction table as [|[k c] table IH]; intro H; [reflexivity|].
  simpl in *. destruct (String.eqb k key) eqn:E.
  - apply String.eqb_eq in E. exfalso. apply H. now left.
  - apply IH. intro Hin. apply H. now right.
Qed.

Lemma table_get_missing key :
  ~ In key getAvailableDateRanges -> ~ In key object_prototype_keys ->
  table_get key = None.
Proof.
  intros Hown Hproto. unfold table_get.
  rewrite (lookup_config_missing key dateRangeConfigs Hown).
  destruct (existsb (String.eqb key) object_prototype_keys) eqn:E;
    [|reflexivity].
  apply existsb_exists in E. destruct E as (k & Hin & Hk).
  apply String.eqb_eq in Hk. subst k. contradiction.
Qed.

Lemma table_get_inherited key :
  In key object_prototype_keys -> table_get key = Some (PrototypeMember key).
Proof.
  intro H. simpl in H.
  repeat (destruct H as [<-|H]; [reflexivity|]). contradiction.
Qed.

(** Every supported range key maps to the configuration of that very
    range, one of the table.  A key the table inherits from
    [Object.prototype] (such as ["constructor"]) is truthy too, so it maps
    to that member and not to a configuration.  Any other key maps to the
    configuration of ["1mo"]. *)
Theorem getDateRangeConfig_known_or_default rangeKey :
  (In rangeKey getAvailableDateRanges ->
   exists config,
     getDateRangeConfig rangeKey = Config config
     /\ DateRangeConfig.range config = rangeKey
     /\ In (rangeKey, config) dateRangeConfigs)
  /\ (In rangeKey object_prototype_keys ->
      getDateRangeConfig rangeKey = PrototypeMember rangeKey)
  /\ (~ In rangeKey getAvailableDateRanges ->
      ~ In rangeKey object_prototype_keys ->
      getDateRangeConfig rangeKey = Config (DateRangeConfig.mk "1mo" "1d")).
Proof.
  split; [|split].
  - intro H. simpl in H.
    repeat (destruct H as [<-|H];
            [eexists; split; [reflexivity|split; [reflexivity|]];
             vm_compute; tauto|]).
    contradiction.
  - intro H. unfold getDateRangeConfig.
    now rewrite (table_get_inherited rangeKey H).
  - intros Hown Hproto. unfold getDateRangeConfig.
    now rewrite (table_get_missing rangeKey Hown Hproto).
Qed.

Lemma getDateRangeConfig_known_or_default_witness :
  getDateRangeConfig "5y" = Config (DateRangeConfig.mk "5y" "1wk")
  /\ getDateRangeConfig "toString" = PrototypeMember "toString"
  /\ getDateRangeConfig "20y" = Config (DateRangeConfig.mk "1mo" "1d").
Proof.
  destruct (getDateRangeConfig_known_or_default "5y") as (H5 & _ & _).
  destruct (getDateRangeConfig_known_or_default "toString") as (_ & Hts & _).
  destruct (getDateRangeConfig_known_or_default "20y") as (_ & _ & H20).
  split; [|split].
  - destruct H5 as (config & Hc & _ & _); [vm_compute; tauto|].
    reflexivity.
  - apply Hts. vm_compute. tauto.
  - apply H20; vm_compute; intuition discriminate.
Defined.

(** A historical fetch with a range key that is neither in the table nor
    inherited from [Object.prototype] is the fetch with no range key at
    all: same request, same result, same effects.  With an inherited key
    there is no fallback: the one request of the fetch asks for
    [range=undefined&interval=undefined]. *)
Theorem getHistoricalPrices_unknown_range symbol rangeKey w :
  ~ In rangeKey getAvailableDateRanges ->
  (~ In rangeKey object_prototype_keys ->
   request_url symbol (Some rangeKey) = request_url symbol None
   /\ getHistoricalPrices symbol (Some rangeKey) w
      = getHistoricalPrices symbol None w)
  /\ (In rangeKey object_prototype_keys ->
      let url :=
        ("https://query1.finance.yahoo.com/v8/finance/chart/" ++ symbol
         ++ "?range=undefined&interval=undefined")%string in
      request_url symbol (Some rangeKey) = url
      /\ requests
           (events_since w
              (snd (getHistoricalPrices symbol (Some rangeKey) w)))
         = [url]).
Proof.
  intro Hown. split.
  - intro Hproto.
    assert (Hc : getDateRangeConfig rangeKey = getDateRangeConfig "1mo").
    { unfold getDateRangeConfig at 1.
      now rewrite (table_get_missing rangeKey Hown Hproto). }
    split.
    + unfold request_url. simpl. now rewrite Hc.
    + unfold getHistoricalPrices. simpl or_default. now rewrite Hc.
  - intros Hproto url.
    assert (Hurl : request_url symbol (Some rangeKey) = url).
    { unfold request_url, getDateRangeConfig. simpl or_default.
      now rewrite (table_get_inherited rangeKey Hproto). }
    split; [exact Hurl|].
    destruct (getHistoricalPrices_trace symbol (Some rangeKey) w)
      as (later & Htr & Hq).
    rewrite (events_since_app w _ _ Htr). simpl.
    rewrite (requests_quiet later Hq). now rewrite Hurl.
Qed.

Lemma getHistoricalPrices_unknown_range_witness :
  let w := fresh_world stub_provider 0 in
  fst (getHistoricalPrices "AAPL" (Some "20y") w)
    = fst (getHistoricalPrices "AAPL" None w)
  /\ request_url "AAPL" (Some "constructor")
     = "https://query1.finance.yahoo.com/v8/finance/chart/AAPL?range=undefined&interval=undefined".
Proof.
  intro w. split.
  - destruct (getHistoricalPrices_unknown_range "AAPL" "20y" w)
      as [H _]; [vm_compute; intuition discriminate|].
    destruct H as [_ H]; [vm_compute; intuition discriminate|].
    now rewrite H.
  - destruct (getHistoricalPrices_unknown_range "AAPL" "constructor" w)
      as [_ H]; [vm_compute; intuition discriminate|].
    destruct H as [H _]; [vm_compute; tauto|].
    exact H.
Defined.

(** ** Failures of the two fetches *)

(** When the provider rejects the request or has no result for the symbol,
    [getDailyPrices] throws its one message, whatever the provider's
    error was, after one request and one [console.error] line; nothing is
    sent to the database and the clock does not move. *)
Theorem getDailyPrices_failure symbol w :
  (exists e, provider w (daily_url symbol) = HttpRejected e)
  \/ (exists data, provider w (daily_url symbol) = HttpOk data
                   /\ first_result data = None) ->
  let w' := snd (getDailyPrices symbol w) in
  fst (getDailyPrices symbol w)
    = Abrupt (JsError ("Fallo al obtener precio diario para " ++ symbol)%string)
  /\ events_since w w' =
       [EvHttpGet (daily_url symbol);
        EvConsoleError ("Error extrayendo precio diario para "
                        ++ symbol ++ ":")%string]
  /\ assets w' = assets w /\ prices w' = prices w /\ now w' = now w.
Proof.
  intros H w'.
  assert (Hf : fetch_daily (provider w) symbol = None).
  { unfold fetch_daily. destruct H as [(e & ->)|(data & -> & ->)]; reflexivity. }
  pose proof (getDailyPrices_cases symbol w) as Hc. rewrite Hf in Hc.
  destruct Hc as (Hr & Ha & Hp & Ht & Htr). fold w' in Ha, Hp, Ht, Htr.
  repeat split; auto. now apply events_since_app.
Qed.

Lemma getDailyPrices_failure_witness :
  fst (getDailyPrices "ZZZZ" (fresh_world stub_provider 0))
  = Abrupt (JsError "Fallo al obtener precio diario para ZZZZ").
Proof.
  destruct (getDailyPrices_failure "ZZZZ" (fresh_world stub_provider 0))
    as (H & _).
  - right. exists (document []). split; reflexivity.
  - exact H.
Defined.

(** The storage step of the historical path on an empty series. *)
Lemma saveHistoricalPricesToDatabase_nil symbol w :
  let w' := snd (saveHistoricalPricesToDatabase symbol [] w) in
  prices w' = prices w
  /\ statements (events_since w w') = [AssetUpsert symbol].
Proof.
  destruct w as [a p aseq pseq t pr f tr run cron].
  unfold saveHistoricalPricesToDatabase, try_catch, bind, ensureAssetExists,
    try_catch, bind, prisma_asset_upsert, bind, db_statement.
  simpl.
  destruct (hd None f); simpl.
  - split; [reflexivity|].
    erewrite events_since_app; [|simpl; rewrite <- !app_assoc; reflexivity].
    reflexivity.
  - destruct (find_asset symbol a); simpl; (split; [reflexivity|]);
      (erewrite events_since_app; [|simpl; reflexivity]); reflexivity.
Qed.

(** A series of which the filter keeps nothing (the timestamp array is
    empty, or the open is null at every point) is a success with zero
    records: the symbol is still registered through the one upsert, but
    no insert is sent and the Price table is left as it was. *)
Theorem getHistoricalPrices_empty_series symbol rangeKey w data result :
  provider w (request_url symbol rangeKey) = HttpOk data ->
  first_result data = Some result ->
  normalize (YahooChartResult.timestamp result)
            (hd_error (YahooChartResult.quote result)) = Normal [] ->
  let w' := snd (getHistoricalPrices symbol rangeKey w) in
  fst (getHistoricalPrices symbol rangeKey w) = Normal []
  /\ statements (events_since w w') = [AssetUpsert symbol]
  /\ prices w' = prices w.
Proof.
  intros Hp Hr Hn w'.
  assert (Hf0 : fetch_historical (provider w) symbol rangeKey = Some []).
  { unfold fetch_historical. now rewrite Hp, Hr, Hn. }
  pose proof (getHistoricalPrices_cases symbol rangeKey w) as Hc.
  rewrite Hf0 in Hc.
  destruct (saveHistoricalPricesToDatabase_nil symbol
              (emit w (EvHttpGet (request_url symbol rangeKey))))
    as [Hprices Hst].
  unfold w'. rewrite Hc. simpl. split; [reflexivity|]. split.
  - set (w1 := snd (saveHistoricalPricesToDatabase symbol []
                      (emit w (EvHttpGet (request_url symbol rangeKey))))) in *.
    destruct (saveHistoricalPricesToDatabase_quiet symbol []
                (emit w (EvHttpGet (request_url symbol rangeKey))))
      as (later & Htr & _).
    fold w1 in Htr.
    rewrite (events_since_app
               (emit w (EvHttpGet (request_url symbol rangeKey))) w1 later Htr)
      in Hst.
    simpl in Htr. rewrite <- app_assoc in Htr.
    rewrite (events_since_app w w1 _ Htr). simpl. exact Hst.
  - exact Hprices.
Qed.

Lemma getHistoricalPrices_empty_series_witness :
  let closed := fun _ : string => HttpOk (document [closed_market_result]) in
  let empty := fun _ : string =>
                 HttpOk (document [YahooChartResult.mk aapl_meta [] []]) in
  let w := fresh_world closed 0 in
  let w0 := fresh_world empty 0 in
  (fst (getHistoricalPrices "AAPL" None w) = Normal []
   /\ map Asset.symbol (assets (snd (getHistoricalPrices "AAPL" None w)))
      = ["AAPL"]
   /\ statements (events_since w (snd (getHistoricalPrices "AAPL" None w)))
      = [AssetUpsert "AAPL"])
  /\ fst (getHistoricalPrices "AAPL" None w0) = Normal [].
Proof.
  intros closed empty w w0.
  destruct (getHistoricalPrices_empty_series "AAPL" None w
              (document [closed_market_result]) closed_market_result
              eq_refl eq_refl eq_refl)
    as (Hr & Hst & _).
  destruct (getHistoricalPrices_empty_series "AAPL" None w0
              (document [YahooChartResult.mk aapl_meta [] []])
              (YahooChartResult.mk aapl_meta [] []) eq_refl eq_refl eq_refl)
    as (Hr0 & _).
  split; [|exact Hr0].
  split; [exact Hr|]. split; [reflexivity|exact Hst].
Defined.

(** ** Storage failures on the historical path *)

Lemma saveHistoricalPricesToDatabase_fault symbol historicalData w e rest :
  db_faults w = Some e :: rest
  \/ (db_faults w = None :: Some e :: rest /\ historicalData <> []) ->
  let w' := snd (saveHistoricalPricesToDatabase symbol historicalData w) in
  prices w' = prices w
  /\ exists before,
       trace w' =
         trace w ++ before
         ++ [EvConsoleError ("Error guardando precios históricos para "
                             ++ symbol ++ ":")%string].
Proof.
  destruct w as [a p aseq pseq t pr f tr run cron]. simpl.
  unfold saveHistoricalPricesToDatabase, try_catch, bind, ensureAssetExists,
    try_catch, bind, prisma_asset_upsert, bind, db_statement.
  intros [->|[-> Hne]]; simpl.
  - split; [reflexivity|]. rewrite <- !app_assoc. simpl.
    eexists [_; _]. reflexivity.
  - destruct historicalData as [|item items]; [contradiction|].
    destruct (find_asset symbol a); simpl;
      unfold prisma_price_createMany, bind, db_statement; simpl;
      (split; [reflexivity|]); rewrite <- !app_assoc; simpl;
      eexists [_; _]; reflexivity.
Qed.

(** When the database fails on the upsert, or on the insert of a
    non-empty series, the historical fetch still returns the series and the
    bulk loader still reports a success with its record count; the failure
    is logged by the storage step and no row is written. *)
Theorem historical_write_failure_swallowed symbol range w data result
    historicalData e rest :
  provider w (request_url symbol (Some range)) = HttpOk data ->
  first_result data = Some result ->
  normalize (YahooChartResult.timestamp result)
            (hd_error (YahooChartResult.quote result)) = Normal historicalData ->
  db_faults w = Some e :: rest
  \/ (db_faults w = None :: Some e :: rest /\ historicalData <> []) ->
  let w' := snd (loadBulkHistoricalData [symbol] (Some range) w) in
  fst (getHistoricalPrices symbol (Some range) w) = Normal historicalData
  /\ fst (loadBulkHistoricalData [symbol] (Some range) w) =
       Normal [BulkLoadResult.mk symbol (Some (List.length historicalData))
                                 Status.success None]
  /\ prices w' = prices w
  /\ In ("Error guardando precios históricos para " ++ symbol ++ ":")%string
        (errors_logged (events_since w w')).
Proof.
  intros Hp Hr Hn Hfault w'.
  assert (Hf : fetch_historical (provider w) symbol (Some range)
               = Some historicalData).
  { unfold fetch_historical. now rewrite Hp, Hr, Hn. }
  pose proof (getHistoricalPrices_cases symbol (Some range) w) as Hc.
  rewrite Hf in Hc.
  destruct (saveHistoricalPricesToDatabase_fault symbol historicalData
              (emit w (EvHttpGet (request_url symbol (Some range)))) e rest
              Hfault) as (Hprices & before & Htr).
  assert (Hrun : loadBulkHistoricalData [symbol] (Some range) w =
                 bulk_step range symbol [] w).
  { rewrite loadBulkHistoricalData_is_loop. simpl. unfold bind.
    destruct (bulk_step_pushes_one range symbol w) as (r & w1 & _ & _ & Hs).
    now rewrite (Hs []). }
  unfold w'. rewrite Hrun.
  unfold bulk_step, try_catch, bind. rewrite Hc. simpl.
  split; [reflexivity|]. split; [reflexivity|]. split; [exact Hprices|].
  simpl in Htr.
  erewrite events_since_app;
    [|simpl; rewrite Htr, <- !app_assoc; reflexivity].
  unfold errors_logged. rewrite !flat_map_app, !in_app_iff.
  right. right. left. now left.
Qed.

Lemma historical_write_failure_swallowed_witness :
  fst (loadBulkHistoricalData ["AAPL"] (Some "5y") unreachable_world) =
    Normal [BulkLoadResult.mk "AAPL" (Some 2%nat) Status.success None]
  /\ prices (snd (loadBulkHistoricalData ["AAPL"] (Some "5y")
                    unreachable_world)) = [].
Proof.
  destruct (historical_write_failure_swallowed "AAPL" "5y" unreachable_world
              (document [aapl_result]) aapl_result
              (filter open_not_null
                 (map_with_index (zip_point aapl_quote) 0 [100; 200; 300]))
              (JsError "Can't reach database server") []
              eq_refl eq_refl eq_refl (or_introl eq_refl))
    as (_ & Hres & Hprices & _).
  split; [exact Hres|exact Hprices].
Defined.

(** ** What a bulk load returns and when it pauses *)

Lemma bulk_loop_outcomes range symbols w :
  fst (bulk_loop range symbols [] w) =
    Normal (map (outcome_of (provider w) range) symbols).
Proof.
  destruct (bulk_loop_spec range symbols [] w) as (evs & w' & -> & _).
  reflexivity.
Qed.

(** The outcomes of a bulk load are read off the provider's answers
    alone, symbol by symbol: success with the number of normalised points,
    or failed with the one message.  Neither the state of the database nor
    its failures change an outcome. *)
Theorem loadBulkHistoricalData_outcomes symbols range w :
  fst (loadBulkHistoricalData symbols range w) =
    Normal (map (outcome_of (provider w) (or_default range "5y")) symbols).
Proof.
  rewrite loadBulkHistoricalData_is_loop. apply bulk_loop_outcomes.
Qed.

(** A bulk load sends exactly one request per symbol, in input order, for
    the configured range and interval, and pauses one second after each
    symbol whose fetch succeeded and after no other: the clock advances by
    one second per such symbol. *)
Theorem loadBulkHistoricalData_requests_and_pauses symbols range w :
  let r := or_default range "5y" in
  let w' := snd (loadBulkHistoricalData symbols range w) in
  requests (events_since w w') = map (fun s => request_url s (Some r)) symbols
  /\ pauses (events_since w w') =
       map (fun _ => 1000)
           (filter (fun s => has_series (provider w) s (Some r)) symbols)
  /\ now w' = now w + 1000 * Z.of_nat (series_available (provider w) r symbols).
Proof.
  intros r w'. unfold w'. rewrite loadBulkHistoricalData_is_loop. fold r.
  destruct (bulk_loop_spec r symbols [] w)
    as (evs & w1 & -> & _ & Hclock & Htr & Hreq & Hpause & _).
  simpl. rewrite (events_since_app w w1 evs Htr). auto.
Qed.

(** When the provider has a series for every symbol, the run of a bulk
    load keeps at least a second of pause between consecutive requests. *)
Theorem loadBulkHistoricalData_paced_when_all_fetched symbols range w :
  Forall (fun s => has_series (provider w) s
                     (Some (or_default range "5y")) = true) symbols ->
  paced 1000 (events_since w (snd (loadBulkHistoricalData symbols range w)))
    = true.
Proof.
  intro Hall. rewrite loadBulkHistoricalData_is_loop.
  destruct (bulk_loop_spec (or_default range "5y") symbols [] w)
    as (evs & w1 & -> & _ & _ & Htr & _ & _ & Hpaced).
  simpl. rewrite (events_since_app w w1 evs Htr). unfold paced.
  specialize (Hpaced Hall None [] I). rewrite app_nil_r in Hpaced.
  rewrite Hpaced. destruct symbols; reflexivity.
Qed.

Lemma loadBulkHistoricalData_paced_when_all_fetched_witness :
  paced 1000
    (events_since (fresh_world stub_provider 0)
       (snd (loadBulkHistoricalData ["AAPL"; "aapl"; "AAPL"] None
               (fresh_world stub_provider 0)))) = true.
Proof.
  apply loadBulkHistoricalData_paced_when_all_fetched.
  repeat constructor.
Defined.

(** ** Bulk loads against a database that answers *)

(** After a bulk load against a database that answers, every symbol the
    provider has a series for is registered and every normalised point of
    its series has a Price row under (asset, date). *)
Theorem loadBulkHistoricalData_covers symbols range w :
  db_faults w = [] ->
  all_covered symbols (or_default range "5y")
              (snd (loadBulkHistoricalData symbols range w)).
Proof.
  intro Hw. rewrite loadBulkHistoricalData_is_loop.
  now apply bulk_loop_covers.
Qed.

Lemma loadBulkHistoricalData_covers_witness :
  all_covered ["AAPL"; "ZZZZ"] "5y"
    (snd (loadBulkHistoricalData ["AAPL"; "ZZZZ"] None
            (fresh_world stub_provider 0))).
Proof.
  apply (loadBulkHistoricalData_covers ["AAPL"; "ZZZZ"] None
           (fresh_world stub_provider 0)).
  reflexivity.
Defined.

(** Running the same bulk load a second time, against a database that
    answers, returns the same outcomes, record counts included, and
    leaves both tables exactly as the first run left them. *)
Theorem loadBulkHistoricalData_idempotent symbols range w :
  db_faults w = [] ->
  let w1 := snd (loadBulkHistoricalData symbols range w) in
  let w2 := snd (loadBulkHistoricalData symbols range w1) in
  fst (loadBulkHistoricalData symbols range w1)
    = fst (loadBulkHistoricalData symbols range w)
  /\ prices w2 = prices w1
  /\ assets w2 = assets w1.
Proof.
  intros Hw w1 w2.
  assert (Hp1 : provider w1 = provider w)
    by now apply (preserves_loadBulkHistoricalData _ (provider_invariant _)).
  assert (Hw1 : db_faults w1 = [])
    by now apply (preserves_loadBulkHistoricalData _ healthy_invariant).
  assert (Hcov : all_covered symbols (or_default range "5y") w1).
  { unfold w1. rewrite loadBulkHistoricalData_is_loop.
    now apply bulk_loop_covers. }
  split.
  - rewrite !loadBulkHistoricalData_is_loop, !bulk_loop_outcomes.
    now rewrite Hp1.
  - unfold w2. rewrite loadBulkHistoricalData_is_loop.
    destruct (bulk_loop_on_covered (or_default range "5y") symbols [] w1
                Hw1 Hcov) as [Ha Hp].
    auto.
Qed.

Lemma loadBulkHistoricalData_idempotent_witness :
  let w1 := snd (loadBulkHistoricalData ["AAPL"; "ZZZZ"] None
                   (fresh_world stub_provider 0)) in
  List.length (prices w1) = 2%nat
  /\ prices (snd (loadBulkHistoricalData ["AAPL"; "ZZZZ"] None w1)) = prices w1.
Proof.
  intro w1. split; [reflexivity|].
  destruct (loadBulkHistoricalData_idempotent ["AAPL"; "ZZZZ"] None
              (fresh_world stub_provider 0) eq_refl) as (_ & H & _).
  exact H.
Defined.

(** ** Registration failures *)

(** When the database rejects the upsert, [ensureAssetExists] logs the
    failure and throws the very error it got; the Asset table is as it
    was. *)
Theorem ensureAssetExists_failure symbol w e :
  hd None (db_faults w) = Some e ->
  let w' := snd (ensureAssetExists symbol w) in
  fst (ensureAssetExists symbol w) = Abrupt e
  /\ assets w' = assets w
  /\ events_since w w' =
       [EvDb (AssetUpsert symbol);
        EvConsoleError ("Error gestionando asset " ++ symbol ++ ":")%string].
Proof.
  intros Hf w'.
  destruct (ensureAssetExists_cases symbol w) as (_ & _ & _ & _ & _ & H).
  rewrite Hf in H. destruct H as (Hr & Ha & Htr).
  split; [exact Hr|]. split; [exact Ha|]. now apply events_since_app.
Qed.

Lemma ensureAssetExists_failure_witness :
  fst (ensureAssetExists "AAPL" unreachable_world)
    = Abrupt (JsError "Can't reach database server")
  /\ assets (snd (ensureAssetExists "AAPL" unreachable_world)) = [].
Proof.
  destruct (ensureAssetExists_failure "AAPL" unreachable_world
              (JsError "Can't reach database server") eq_refl)
    as (Hr & Ha & _).
  split; [exact Hr|exact Ha].
Defined.

(** ** Letter case on the daily path *)

Lemma toUpperCase_ascii_idempotent c :
  toUpperCase_ascii (toUpperCase_ascii c) = toUpperCase_ascii c.
Proof. destruct c as [[] [] [] [] [] [] [] []]; reflexivity. Qed.

Lemma toUpperCase_idempotent s : toUpperCase (toUpperCase s) = toUpperCase s.
Proof.
  induction s as [|c s IH]; [reflexivity|].
  simpl. now rewrite toUpperCase_ascii_idempotent, IH.
Qed.

(** The tables after the daily storage step. *)
Lemma saveDailyPriceToDatabase_assets priceData w :
  assets (snd (saveDailyPriceToDatabase priceData w))
    = assets (snd (ensureAssetExists (PriceData.symbol priceData) w)).
Proof.
  destruct w as [a p aseq pseq t pr f tr run cron].
  unfold saveDailyPriceToDatabase, try_catch, bind, ensureAssetExists,
    try_catch, bind, prisma_asset_upsert, bind, db_statement,
    prisma_price_create, bind, db_statement.
  simpl.
  destruct (hd None f); simpl; [reflexivity|].
  destruct (find_asset _ a); simpl;
    (destruct (hd None (tl f)); simpl; [reflexivity|]);
    (destruct (key_taken _ p); reflexivity).
Qed.

Lemma getDailyPrices_assets symbol w :
  let upper := toUpperCase symbol in
  let w' := snd (getDailyPrices symbol w) in
  assets w' = assets w
  \/ (find_asset upper (assets w) = None
      /\ assets w' = assets w ++ [Asset.mk (asset_seq w) upper upper "STOCK"]).
Proof.
  intros upper w'.
  pose proof (getDailyPrices_cases symbol w) as Hc.
  destruct (fetch_daily (provider w) symbol) as [pd|] eqn:Hf.
  - unfold w'. rewrite Hc. simpl.
    rewrite saveDailyPriceToDatabase_assets.
    rewrite (fetch_daily_symbol _ _ _ Hf). fold upper.
    destruct (ensureAssetExists_cases upper
                (emit w (EvHttpGet (daily_url symbol))))
      as (_ & _ & _ & _ & _ & H).
    simpl in H.
    destruct (hd None (db_faults w)).
    + destruct H as (_ & -> & _). now left.
    + destruct H as (_ & H).
      destruct (find_asset upper (assets w)).
      * destruct H as (_ & ->). now left.
      * destruct H as (_ & ->). right. split; reflexivity.
  - destruct Hc as (_ & Ha & _). now left.
Qed.

Lemma toUpperCase_ascii_below c :
  Nat.ltb (nat_of_ascii (toUpperCase_ascii c)) 128
  = Nat.ltb (nat_of_ascii c) 128.
Proof. destruct c as [[] [] [] [] [] [] [] []]; reflexivity. Qed.

Lemma toUpperCase_is_ascii s : is_ascii (toUpperCase s) = is_ascii s.
Proof.
  induction s as [|c s IH]; [reflexivity|].
  simpl. now rewrite toUpperCase_ascii_below, IH.
Qed.

(** For a symbol in ASCII, whatever its letter case, [getDailyPrices]
    adds at most one Asset, whose symbol and name are the symbol in upper
    case; so a registry whose symbols are all ASCII text in upper case
    stays so. *)
Theorem getDailyPrices_registers_upper_case symbol w :
  is_ascii symbol = true ->
  let upper := toUpperCase symbol in
  let w' := snd (getDailyPrices symbol w) in
  (is_ascii upper = true /\ toUpperCase upper = upper)
  /\ (assets w' = assets w
      \/ assets w' = assets w ++ [Asset.mk (asset_seq w) upper upper "STOCK"])
  /\ (all_upper w -> all_upper w').
Proof.
  intros Hascii upper w'.
  assert (Hupper : is_ascii upper = true /\ toUpperCase upper = upper).
  { split; [unfold upper; now rewrite toUpperCase_is_ascii|].
    apply toUpperCase_idempotent. }
  split; [exact Hupper|].
  destruct (getDailyPrices_assets symbol w) as [H|[_ H]]; fold w' in H.
  - split; [now left|]. unfold all_upper. now rewrite H.
  - split; [now right|]. unfold all_upper. rewrite H. intro Hall.
    apply Forall_app. split; [exact Hall|].
    constructor; [|constructor]. simpl. exact Hupper.
Qed.

Lemma getDailyPrices_registers_upper_case_witness :
  map Asset.symbol
    (assets (snd (getDailyPrices "aapl" (fresh_world stub_provider 0))))
    = ["AAPL"]
  /\ all_upper (snd (getDailyPrices "aapl" (fresh_world stub_provider 0))).
Proof.
  destruct (getDailyPrices_registers_upper_case "aapl"
              (fresh_world stub_provider 0) eq_refl) as (_ & _ & H).
  split; [reflexivity|]. apply H. constructor.
Defined.

(** ** The daily close as a whole *)

(** The daily close never throws, whatever the provider and the database
    do, so the [catch] of the market-close callback is never entered and
    the callback is the daily close itself; the scheduler's flag and the
    scheduled tasks are left as they are. *)
Theorem executeDailyClose_never_throws w :
  fst (executeDailyClose w) = Normal tt
  /\ market_close_callback w = executeDailyClose w
  /\ isRunning (snd (executeDailyClose w)) = isRunning w
  /\ cron_tasks (snd (executeDailyClose w)) = cron_tasks w.
Proof.
  assert (Hr : fst (executeDailyClose w) = Normal tt)
    by apply try_catch_console_error.
  split; [exact Hr|]. split.
  - unfold market_close_callback, try_catch, bind.
    destruct (executeDailyClose w) as [c w1]. simpl in Hr. subst c.
    reflexivity.
  - now apply (preserves_executeDailyClose _
                 (scheduler_state_invariant (isRunning w) (cron_tasks w))).
Qed.

(** With no registered asset the daily close only reads the Asset table;
    when that read fails it only logs.  Either way it sends no request,
    takes no pause and changes no table. *)
Theorem executeDailyClose_nothing_to_do w :
  (hd None (db_faults w) = None /\ assets w = [])
  \/ (exists e, hd None (db_faults w) = Some e) ->
  let w' := snd (executeDailyClose w) in
  requests (events_since w w') = []
  /\ pauses (events_since w w') = []
  /\ statements (events_since w w') = [AssetFindMany]
  /\ errors_logged (events_since w w') =
       match hd None (db_faults w) with
       | None => []
       | Some _ => ["Error en executeDailyClose:"]
       end
  /\ now w' = now w /\ assets w' = assets w /\ prices w' = prices w.
Proof.
  intros [[Hf Ha]|(e & Hf)] w'.
  - destruct (executeDailyClose_on_empty w Hf Ha) as (Htr & Hn & Has & Hp).
    fold w' in Htr, Hn, Has, Hp.
    rewrite (events_since_app w w' _ Htr), Hf. repeat split; auto.
  - destruct (executeDailyClose_on_fault w e Hf) as (Htr & Hn & Has & Hp).
    fold w' in Htr, Hn, Has, Hp.
    rewrite (events_since_app w w' _ Htr), Hf. repeat split; auto.
Qed.

Lemma executeDailyClose_nothing_to_do_witness :
  events_since (fresh_world stub_provider 0)
    (snd (executeDailyClose (fresh_world stub_provider 0)))
  = [EvDb AssetFindMany]
  /\ errors_logged
       (events_since unreachable_world (snd (executeDailyClose unreachable_world)))
     = ["Error en executeDailyClose:"].
Proof.
  split; [reflexivity|].
  destruct (executeDailyClose_nothing_to_do unreachable_world)
    as (_ & _ & _ & H & _).
  - right. eexists. reflexivity.
  - exact H.
Defined.

(** When the Asset table can be read and is not empty, the daily close
    requests each registered symbol once, in table order, and ends by
    reporting its counters: as many processed as symbols the provider has
    a snapshot for, the others failed, the two adding up to the number of
    registered symbols. *)
Theorem executeDailyClose_counters w :
  hd None (db_faults w) = None -> assets w <> [] ->
  let w' := snd (executeDailyClose w) in
  let symbols := map Asset.symbol (assets w) in
  exists processed failed,
    last (events_since w w') (EvDb AssetFindMany)
      = EvDailySummary processed failed
    /\ processed = snapshots_available (provider w) symbols
    /\ (processed + failed = List.length (assets w))%nat
    /\ requests (events_since w w') = map daily_url symbols.
Proof.
  intros Hf Ha w' symbols.
  destruct (executeDailyClose_on_assets w Hf Ha)
    as (evs & Htr & Hreq & _ & _ & _).
  fold w' in Htr. fold symbols in Htr, Hreq.
  assert (Hle : (snapshots_available (provider w) symbols
                 <= List.length symbols)%nat) by apply filter_length_le.
  exists (snapshots_available (provider w) symbols),
         (List.length symbols - snapshots_available (provider w) symbols)%nat.
  rewrite (events_since_app w w' _ Htr). split; [|split; [reflexivity|split]].
  - change (EvDb AssetFindMany :: evs ++ [EvDailySummary
              (snapshots_available (provider w) symbols)
              (List.length symbols - snapshots_available (provider w) symbols)])
      with ((EvDb AssetFindMany :: evs) ++ [EvDailySummary
              (snapshots_available (provider w) symbols)
              (List.length symbols - snapshots_available (provider w) symbols)]).
    apply last_last.
  - unfold symbols in *. rewrite length_map in *. lia.
  - simpl. rewrite requests_app, Hreq. simpl. now rewrite app_nil_r.
Qed.

Lemma executeDailyClose_counters_witness :
  last (events_since two_assets_world (snd (executeDailyClose two_assets_world)))
       (EvDb AssetFindMany)
  = EvDailySummary 1 1.
Proof.
  destruct (executeDailyClose_counters two_assets_world)
    as (processed & failed & Hlast & -> & Hsum & _).
  - reflexivity.
  - discriminate.
  - rewrite Hlast. f_equal.
    change (snapshots_available (provider two_assets_world)
              (map Asset.symbol (assets two_assets_world))) with 1%nat in Hsum.
    change (List.length (assets two_assets_world)) with 2%nat in Hsum. lia.
Defined.

(** Every run of the daily close keeps at least a second of pause between
    two consecutive requests, whether the earlier one succeeded or not, and
    when the Asset table can be read it takes exactly one second of pause
    per registered symbol. *)
Theorem executeDailyClose_paced w :
  let w' := snd (executeDailyClose w) in
  paced 1000 (events_since w w') = true
  /\ (hd None (db_faults w) = None ->
      pauses (events_since w w') = map (fun _ => 1000) (assets w)
      /\ now w' = now w + 1000 * Z.of_nat (List.length (assets w))).
Proof.
  intro w'.
  destruct (hd None (db_faults w)) as [e|] eqn:Hf.
  - destruct (executeDailyClose_on_fault w e Hf) as (Htr & _).
    fold w' in Htr. rewrite (events_since_app w w' _ Htr).
    split; [reflexivity|discriminate].
  - destruct (assets w) as [|a0 rest] eqn:Ha.
    + destruct (executeDailyClose_on_empty w Hf Ha) as (Htr & Hn & _).
      fold w' in Htr, Hn. rewrite (events_since_app w w' _ Htr).
      split; [reflexivity|]. intros _. split; [reflexivity|].
      rewrite Hn. simpl. lia.
    + assert (Hne : assets w <> []) by (rewrite Ha; discriminate).
      destruct (executeDailyClose_on_assets w Hf Hne)
        as (evs & Htr & _ & Hpause & Hn & Hpaced).
      fold w' in Htr, Hn. rewrite (events_since_app w w' _ Htr).
      rewrite Ha in *.
      split; [exact Hpaced|]. intros _. split.
      * simpl. rewrite pauses_app, Hpause. simpl.
        rewrite app_nil_r, map_map. reflexivity.
      * rewrite Hn, length_map. reflexivity.
Qed.

Lemma executeDailyClose_paced_witness :
  now (snd (executeDailyClose two_assets_world)) = 2000.
Proof.
  destruct (executeDailyClose_paced two_assets_world) as [_ H].
  destruct (H eq_refl) as [_ Hn]. exact Hn.
Defined.

(** ** What the daily close writes *)

Lemma daily_step_tables symbol counters w :
  assets (snd (daily_step symbol counters w))
    = assets (snd (getDailyPrices symbol w))
  /\ prices (snd (daily_step symbol counters w))
     = prices (snd (getDailyPrices symbol w)).
Proof.
  unfold daily_step. destruct counters as [processed failed].
  unfold bind, try_catch, bind.
  destruct (getDailyPrices symbol w) as [[pd|e] w1]; split; reflexivity.
Qed.

(** One turn of the daily loop against a database that answers, when
    every stored row is dated before the clock. *)
Lemma daily_step_rows symbol counters w :
  db_faults w = [] ->
  Forall (fun p => Price.date p < now w) (prices w) ->
  exists rows,
    prices (snd (daily_step symbol counters w)) = prices w ++ rows
    /\ List.length rows
       = (if has_snapshot (provider w) symbol then 1%nat else 0%nat)
    /\ Forall (fun p => Price.date p = now w) rows.
Proof.
  intros Hw Hold.
  destruct (daily_step_tables symbol counters w) as [_ ->].
  pose proof (getDailyPrices_cases symbol w) as Hc.
  unfold has_snapshot.
  destruct (fetch_daily (provider w) symbol) as [pd|].
  - rewrite Hc. simpl.
    destruct (saveDailyPriceToDatabase_healthy pd
                (emit w (EvHttpGet (daily_url symbol))) Hw)
      as (a & _ & _ & _ & Hrows & _).
    simpl in Hrows. rewrite Hrows.
    rewrite key_free_on_new_date.
    + eexists. split; [reflexivity|]. split; [reflexivity|].
      constructor; [reflexivity|constructor].
    + eapply Forall_impl; [|exact Hold]. simpl. intros p Hp. lia.
  - destruct Hc as (_ & _ & -> & _). exists []. rewrite app_nil_r.
    repeat split. constructor.
Qed.

Lemma daily_loop_rows symbols : forall counters w,
  db_faults w = [] ->
  Forall (fun p => Price.date p < now w) (prices w) ->
  exists rows,
    prices (snd (daily_loop symbols counters w)) = prices w ++ rows
    /\ List.length rows = snapshots_available (provider w) symbols
    /\ Forall (fun p => now w <= Price.date p
                        < now w + 1000 * Z.of_nat (List.length symbols)) rows.
Proof.
  induction symbols as [|s symbols IH]; intros [processed failed] w Hw Hold.
  - exists []. simpl. rewrite app_nil_r. repeat split. constructor.
  - destruct (daily_step_rows s (processed, failed) w Hw Hold)
      as (rows1 & Hp1 & Hlen1 & Hdates1).
    destruct (daily_step_spec s processed failed w)
      as (later & w1 & Hstep & Hclock & Hprov & _).
    assert (Hw1 : db_faults (snd (daily_step s (processed, failed) w)) = [])
      by now apply (preserves_daily_step _ healthy_invariant).
    rewrite daily_loop_cons. rewrite Hstep in *. simpl in Hp1, Hw1.
    destruct (IH (if has_snapshot (provider w) s
                  then (S processed, failed) else (processed, S failed))
                w1 Hw1) as (rows2 & Hp2 & Hlen2 & Hdates2).
    { rewrite Hp1, Hclock. apply Forall_app. split.
      - eapply Forall_impl; [|exact Hold]. cbv beta. intros p Hp. lia.
      - eapply Forall_impl; [|exact Hdates1]. cbv beta. intros p Hp. lia. }
    exists (rows1 ++ rows2).
    rewrite Hp2, Hp1, <- app_assoc. split; [reflexivity|]. split.
    + rewrite length_app, Hlen1, Hlen2, Hprov.
      unfold snapshots_available. simpl filter.
      destruct (has_snapshot (provider w) s); reflexivity.
    + apply Forall_app. split.
      * eapply Forall_impl; [|exact Hdates1]. cbv beta. intros p Hp.
        rewrite Hp. cbn [List.length]. lia.
      * eapply Forall_impl; [|exact Hdates2]. cbv beta. intros p Hp.
        rewrite Hclock in Hp. cbn [List.length]. lia.
Qed.

(** The tables and the clock of a daily close that finds assets are
    those its loop leaves. *)
Lemma executeDailyClose_is_loop w :
  hd None (db_faults w) = None -> assets w <> [] ->
  let w0 := set_db_faults (emit w (EvDb AssetFindMany)) (tl (db_faults w)) in
  let loop := snd (daily_loop (map Asset.symbol (assets w)) (0%nat, 0%nat) w0) in
  prices (snd (executeDailyClose w)) = prices loop
  /\ assets (snd (executeDailyClose w)) = assets loop
  /\ now (snd (executeDailyClose w)) = now loop.
Proof.
  destruct w as [a p aseq pseq t pr f tr run cron]. simpl. intros Hf Ha.
  unfold executeDailyClose, try_catch, bind, prisma_asset_findMany_symbols,
    bind, db_statement.
  simpl. rewrite Hf. simpl.
  destruct (Nat.eqb (List.length (map Asset.symbol a)) 0) eqn:He.
  { apply Nat.eqb_eq in He. rewrite length_map in He.
    destruct a; [contradiction|discriminate]. }
  match goal with
  | |- context [daily_loop ?l _ ?W] =>
      destruct (daily_loop_spec l 0 0 W) as (evs & w2 & Hloop & _)
  end.
  rewrite Hloop. simpl. auto.
Qed.

(** Against a database that answers and with every stored row dated
    before the clock, the daily close appends exactly one Price row per
    registered symbol the provider has a snapshot for, each dated within
    the run, and touches no row that was there. *)
Theorem executeDailyClose_rows w :
  db_faults w = [] ->
  Forall (fun p => Price.date p < now w) (prices w) ->
  let w' := snd (executeDailyClose w) in
  let symbols := map Asset.symbol (assets w) in
  exists rows,
    prices w' = prices w ++ rows
    /\ List.length rows = snapshots_available (provider w) symbols
    /\ Forall (fun p => now w <= Price.date p < now w') rows.
Proof.
  intros Hw Hold w' symbols.
  assert (Hhd : hd None (db_faults w) = None) by now rewrite Hw.
  destruct (assets w) as [|a0 rest] eqn:Ha.
  - destruct (executeDailyClose_on_empty w Hhd Ha) as (_ & _ & _ & Hp).
    fold w' in Hp. exists []. rewrite Hp, app_nil_r. repeat split.
    constructor.
  - assert (Hne : assets w <> []) by (rewrite Ha; discriminate).
    destruct (executeDailyClose_is_loop w Hhd Hne) as (Hp & _ & Hn).
    fold w' in Hp, Hn. rewrite Ha in Hp, Hn. fold symbols in Hp, Hn.
    set (w0 := set_db_faults (emit w (EvDb AssetFindMany)) (tl (db_faults w)))
      in *.
    assert (Hw0 : db_faults w0 = []) by (unfold w0; simpl; now rewrite Hw).
    destruct (daily_loop_rows symbols (0%nat, 0%nat) w0 Hw0 Hold)
      as (rows & Hrows & Hlen & Hdates).
    destruct (daily_loop_spec symbols 0 0 w0) as (evs & w2 & Hloop & Hclock & _).
    rewrite Hloop in *. simpl in Hrows, Hclock, Hp, Hn.
    exists rows. rewrite Hp, Hn, Hclock. split; [exact Hrows|].
    split; [exact Hlen|exact Hdates].
Qed.

Lemma executeDailyClose_rows_witness :
  List.length (prices (snd (executeDailyClose two_assets_world))) = 1%nat.
Proof.
  destruct (executeDailyClose_rows two_assets_world) as (rows & Hp & Hlen & _).
  - reflexivity.
  - constructor.
  - rewrite Hp, length_app, Hlen. reflexivity.
Defined.

(** ** What the daily close registers *)

Lemma find_asset_member a l :
  In a l -> exists a', find_asset (Asset.symbol a) l = Some a'.
Proof.
  unfold find_asset. induction l as [|x l IH]; intro H; [destruct H|].
  destruct H as [->|Hin]; simpl.
  - rewrite String.eqb_refl. eauto.
  - destruct (String.eqb (Asset.symbol x) (Asset.symbol a)); eauto.
Qed.

Lemma getDailyPrices_on_registered symbol w a :
  find_asset (toUpperCase symbol) (assets w) = Some a ->
  assets (snd (getDailyPrices symbol w)) = assets w.
Proof.
  intro Hf. destruct (getDailyPrices_assets symbol w) as [H|[Hnone _]];
    [exact H|]. rewrite Hf in Hnone. discriminate.
Qed.

Lemma daily_loop_on_registered symbols : forall counters w,
  Forall (fun s => exists a, find_asset (toUpperCase s) (assets w) = Some a)
         symbols ->
  assets (snd (daily_loop symbols counters w)) = assets w.
Proof.
  induction symbols as [|s symbols IH]; intros [processed failed] w Hall;
    [reflexivity|].
  inversion Hall as [|? ? (a & Hs) Hrest]; subst.
  destruct (daily_step_tables s (processed, failed) w) as [Ha _].
  rewrite (getDailyPrices_on_registered s w a Hs) in Ha.
  destruct (daily_step_spec s processed failed w) as (later & w1 & Hstep & _).
  rewrite daily_loop_cons. rewrite Hstep in *. simpl in Ha.
  rewrite IH; [exact Ha|]. now rewrite Ha.
Qed.

(** With every registered symbol ASCII text in upper case already, the
    daily close finds each symbol it fetches in the registry: it adds no
    Asset. *)
Theorem executeDailyClose_keeps_registry w :
  all_upper w ->
  assets (snd (executeDailyClose w)) = assets w.
Proof.
  intro Hup.
  destruct (hd None (db_faults w)) as [e|] eqn:Hf.
  { now destruct (executeDailyClose_on_fault w e Hf) as (_ & _ & -> & _). }
  destruct (assets w) as [|a0 rest] eqn:Ha.
  { destruct (executeDailyClose_on_empty w Hf Ha) as (_ & _ & -> & _).
    exact Ha. }
  assert (Hne : assets w <> []) by (rewrite Ha; discriminate).
  destruct (executeDailyClose_is_loop w Hf Hne) as (_ & -> & _).
  rewrite daily_loop_on_registered; [simpl; exact Ha|].
  change (assets (set_db_faults (emit w (EvDb AssetFindMany))
                                (tl (db_faults w)))) with (assets w).
  apply Forall_forall. intros s Hs. apply in_map_iff in Hs.
  destruct Hs as (a & <- & Hin).
  unfold all_upper in Hup. rewrite Forall_forall in Hup.
  rewrite (proj2 (Hup a Hin)). now apply find_asset_member.
Qed.

Lemma executeDailyClose_keeps_registry_witness :
  map Asset.symbol (assets (snd (executeDailyClose two_assets_world)))
    = ["ZZZZ"; "AAPL"].
Proof.
  rewrite (executeDailyClose_keeps_registry two_assets_world).
  - reflexivity.
  - repeat constructor.
Defined.

(** ** The liveness job *)

(** The liveness callback never throws and only reads: it counts the
    assets, then the prices, and stops at the first count that fails,
    which it logs; tables and clock are left as they are. *)
Theorem health_check_callback_only_reads w :
  let w' := snd (health_check_callback w) in
  fst (health_check_callback w) = Normal tt
  /\ assets w' = assets w /\ prices w' = prices w /\ now w' = now w
  /\ events_since w w' =
       match db_faults w with
       | Some _ :: _ => [EvDb AssetCount; EvConsoleError "Health check falló:"]
       | None :: Some _ :: _ =>
           [EvDb AssetCount; EvDb PriceCount;
            EvConsoleError "Health check falló:"]
       | _ => [EvDb AssetCount; EvDb PriceCount]
       end.
Proof.
  intro w'. split; [apply try_catch_console_error|].
  unfold w'. clear w'.
  destruct w as [a p aseq pseq t pr f tr run cron].
  unfold health_check_callback, try_catch, bind, prisma_asset_count,
    prisma_price_count, bind, db_statement.
  simpl.
  destruct f as [|[e|] [|[e2|] f]]; simpl; repeat split;
    (erewrite events_since_app; [reflexivity|]);
    simpl; rewrite <- ?app_assoc; reflexivity.
Qed.

(** ** Starting and stopping again and again *)

Lemma start_returns w : fst (start w) = Normal tt.
Proof. unfold start. destruct (isRunning w); reflexivity. Qed.

Lemma start_stop_cycles_tasks n : forall w,
  isRunning w = false ->
  isRunning (snd (start_stop_cycles n w)) = false
  /\ cron_tasks (snd (start_stop_cycles n w)) =
       cron_tasks w
       ++ List.concat (repeat [market_close_task; health_check_task] n).
Proof.
  induction n as [|n IH]; intros w Hw.
  - simpl. now rewrite app_nil_r.
  - destruct (start_when_stopped w Hw) as [Htasks _].
    destruct (stop_keeps_tasks (snd (start w))) as [Hkeep Hflag].
    destruct (IH (snd (stop (snd (start w)))) Hflag) as [Hrun H].
    assert (E : start_stop_cycles (S n) w
                = start_stop_cycles n (snd (stop (snd (start w))))).
    { cbn [start_stop_cycles]. unfold bind.
      pose proof (start_returns w) as Hs.
      destruct (start w) as [c w1]. simpl in Hs. subst c. reflexivity. }
    rewrite E. split; [exact Hrun|].
    rewrite H, Hkeep, Htasks, <- app_assoc. reflexivity.
Qed.

Lemma firings_of_pairs t n :
  List.length
    (filter is_market_close
       (map callback
          (filter (fun k => cron_matches (expression k) t)
             (List.concat (repeat [market_close_task; health_check_task] n)))))
  = (n * matching "30 21 * * 1-5" t)%nat
  /\ List.length
       (filter is_health_check
          (map callback
             (filter (fun k => cron_matches (expression k) t)
                (List.concat (repeat [market_close_task; health_check_task] n)))))
     = (n * matching "0 * * * *" t)%nat.
Proof.
  unfold matching. induction n as [|n [IH1 IH2]]; [split; reflexivity|].
  cbn [repeat List.concat]. rewrite !filter_app, !map_app, !filter_app, !length_app.
  rewrite IH1, IH2. simpl.
  destruct (cron_matches "30 21 * * 1-5" t);
    destruct (cron_matches "0 * * * *" t); simpl; split; lia.
Qed.

(** [stop] never cancels a task, so every round of [start(); stop()] on a
    stopped scheduler leaves one more market-close task and one more
    health-check task behind: after [n] rounds each tick fires [n] more
    callbacks of each kind than before. *)
Theorem start_stop_cycles_accumulate n t w :
  isRunning w = false ->
  let w' := snd (start_stop_cycles n w) in
  isRunning w' = false
  /\ List.length (cron_tasks w') = (List.length (cron_tasks w) + 2 * n)%nat
  /\ market_close_firings t w' =
       (market_close_firings t w + n * matching "30 21 * * 1-5" t)%nat
  /\ health_check_firings t w' =
       (health_check_firings t w + n * matching "0 * * * *" t)%nat.
Proof.
  intros Hw w'.
  destruct (start_stop_cycles_tasks n w Hw) as [Hrun Htasks].
  fold w' in Hrun, Htasks.
  destruct (firings_of_pairs t n) as [Hm Hh].
  split; [exact Hrun|]. split; [|split].
  - rewrite Htasks, length_app. f_equal.
    clear. induction n as [|n IH]; [reflexivity|].
    cbn [repeat List.concat]. rewrite length_app, IH. simpl. lia.
  - unfold market_close_firings, firing.
    rewrite Htasks, filter_app, map_app, filter_app, length_app, Hm.
    reflexivity.
  - unfold health_check_firings, firing.
    rewrite Htasks, filter_app, map_app, filter_app, length_app, Hh.
    reflexivity.
Qed.

Lemma start_stop_cycles_accumulate_witness :
  market_close_firings monday_close
    (snd (start_stop_cycles 3 (fresh_world stub_provider 0))) = 3%nat.
Proof.
  destruct (start_stop_cycles_accumulate 3 monday_close
              (fresh_world stub_provider 0) eq_refl) as (_ & _ & H & _).
  rewrite H. reflexivity.
Defined.

(** ** Batches *)

Lemma skipn_slice {A} (l : list A) i k :
  skipn i l = slice l i (i + k) ++ skipn (i + k) l.
Proof.
  unfold slice. replace (i + k - i)%nat with k by lia.
  rewrite (Nat.add_comm i k), <- skipn_skipn.
  now rewrite firstn_skipn.
Qed.

Lemma skipn_past_end {A} (l : list A) i :
  (List.length l <= i)%nat -> skipn i l = [].
Proof. apply skipn_all2. Qed.

Lemma gap_more n i k :
  (0 < k)%nat -> (i + k < n)%nat ->
  ((n - i - 1) / k = S ((n - (i + k) - 1) / k))%nat.
Proof.
  intros Hk H.
  replace (n - i - 1)%nat with ((n - (i + k) - 1) + 1 * k)%nat by lia.
  rewrite Nat.div_add by lia. lia.
Qed.

Lemma gap_last n i k :
  (0 < k)%nat -> (n <= i + k)%nat -> ((n - i - 1) / k = 0)%nat.
Proof. intros Hk H. apply Nat.div_small. lia. Qed.

(** The loop does not depend on its fuel once there is enough of it. *)
Lemma for_step_enough_fuel {T} bound step (body : nat -> T -> Async T) :
  (0 < step)%nat ->
  forall fuel fuel' i s w,
    (bound - i <= fuel)%nat -> (bound - i <= fuel')%nat ->
    for_step fuel i bound step body s w = for_step fuel' i bound step body s w.
Proof.
  intro Hstep. induction fuel as [|fuel IH]; intros fuel' i s w H H'.
  - destruct fuel' as [|fuel']; [reflexivity|]. simpl.
    destruct (Nat.ltb i bound) eqn:E; [|reflexivity].
    apply Nat.ltb_lt in E. lia.
  - simpl. destruct (Nat.ltb i bound) eqn:E.
    + apply Nat.ltb_lt in E.
      destruct fuel' as [|fuel']; [lia|]. simpl.
      apply Nat.ltb_lt in E. rewrite E. unfold bind.
      destruct (body i s w) as [[s'|e] w1]; [|reflexivity].
      apply IH; apply Nat.ltb_lt in E; lia.
    + destruct fuel' as [|fuel']; [reflexivity|]. simpl. now rewrite E.
Qed.

(** ** Step 1 of the bulk driver: registration *)

Lemma registered_persists symbol w w' :
  keeps_rows_of w w' -> registered symbol w -> registered symbol w'.
Proof.
  intros [_ (added & Ha)] (a & Hf). exists a. rewrite Ha.
  now apply find_asset_extends.
Qed.

(** One registration inside a batch. *)
Lemma register_one_spec symbol w :
  exists evs w',
    try_catch (_ <- ensureAssetExists symbol ;; ret tt) (fun _ => ret tt) w
      = (Normal tt, w')
    /\ trace w' = trace w ++ evs
    /\ requests evs = [] /\ pauses evs = []
    /\ statements evs = [AssetUpsert symbol]
    /\ now w' = now w /\ provider w' = provider w
    /\ keeps_rows_of w w' /\ prices w' = prices w
    /\ (db_faults w = [] -> db_faults w' = [] /\ registered symbol w').
Proof.
  destruct (ensureAssetExists_cases symbol w)
    as (Hp & _ & Hn & Hpr & Hf & H).
  assert (Hk : keeps_rows_of w (snd (ensureAssetExists symbol w)))
    by (apply (preserves_ensureAssetExists _ (keeps_rows_invariant w)),
          keeps_rows_refl).
  unfold try_catch, bind.
  destruct (ensureAssetExists symbol w) as [c w1]. simpl in *.
  destruct (hd None (db_faults w)) as [e|] eqn:Hhd.
  - destruct H as (-> & Ha & Htr).
    eexists. exists w1. split; [reflexivity|]. split; [exact Htr|].
    repeat (split; [auto; fail|]).
    intro Hw. rewrite Hw in Hhd. discriminate.
  - destruct H as (Htr & H).
    eexists. exists w1.
    destruct (find_asset symbol (assets w)) as [a|] eqn:Hfa.
    + destruct H as (-> & Ha). split; [reflexivity|]. split; [exact Htr|].
      repeat (split; [auto; fail|]).
      intro Hw. split; [rewrite Hf, Hw; reflexivity|].
      exists a. now rewrite Ha.
    + destruct H as (-> & Ha). split; [reflexivity|]. split; [exact Htr|].
      repeat (split; [auto; fail|]).
      intro Hw. split; [rewrite Hf, Hw; reflexivity|].
      eexists. rewrite Ha, find_asset_app, Hfa. simpl.
      rewrite String.eqb_refl. reflexivity.
Qed.

Lemma register_batch_cons symbol rest w :
  register_batch (symbol :: rest) w =
    match try_catch (_ <- ensureAssetExists symbol ;; ret tt)
                    (fun _ => ret tt) w with
    | (Normal _, w1) => register_batch rest w1
    | (Abrupt e, w1) => (Abrupt e, w1)
    end.
Proof. reflexivity. Qed.

(** A batch of registrations. *)
Lemma register_batch_spec batch : forall w,
  exists evs w',
    register_batch batch w = (Normal tt, w')
    /\ trace w' = trace w ++ evs
    /\ requests evs = [] /\ pauses evs = []
    /\ statements evs = map AssetUpsert batch
    /\ now w' = now w /\ provider w' = provider w
    /\ keeps_rows_of w w' /\ prices w' = prices w
    /\ (db_faults w = [] ->
        db_faults w' = [] /\ Forall (fun s => registered s w') batch).
Proof.
  induction batch as [|s batch IH]; intro w.
  - exists [], w. simpl. rewrite app_nil_r.
    repeat (split; [auto using keeps_rows_refl; fail|]).
    constructor.
  - destruct (register_one_spec s w)
      as (e1 & w1 & Hrun & Htr & Hreq & Hpa & Hst & Hn & Hpr & Hk & Hp & Hh).
    destruct (IH w1)
      as (e2 & w2 & Hrun2 & Htr2 & Hreq2 & Hpa2 & Hst2 & Hn2 & Hpr2 & Hk2
          & Hp2 & Hh2).
    exists (e1 ++ e2), w2. rewrite register_batch_cons, Hrun, Hrun2.
    split; [reflexivity|].
    split; [now rewrite Htr2, Htr, app_assoc|].
    split; [now rewrite requests_app, Hreq, Hreq2|].
    split; [now rewrite pauses_app, Hpa, Hpa2|].
    split; [now rewrite statements_app, Hst, Hst2|].
    split; [now rewrite Hn2|]. split; [now rewrite Hpr2|].
    split; [now apply (keeps_rows_trans w w1 w2)|].
    split; [now rewrite Hp2|].
    intro Hw. destruct (Hh Hw) as [Hw1 Hr1]. destruct (Hh2 Hw1) as [Hw2 Hr2].
    split; [exact Hw2|]. constructor; [|exact Hr2].
    now apply (registered_persists s w1 w2).
Qed.

(** The registration loop from index [i]. *)
Lemma register_loop_spec stocks : forall fuel i w,
  (List.length stocks - i <= fuel)%nat ->
  exists evs w',
    for_step fuel i (List.length stocks) 10
      (fun i _ =>
         register_batch (slice stocks i (i + 10)) ;;
         if Nat.ltb (i + 10) (List.length stocks) then sleep 1000 else ret tt)
      tt w = (Normal tt, w')
    /\ trace w' = trace w ++ evs
    /\ requests evs = []
    /\ statements evs = map AssetUpsert (skipn i stocks)
    /\ pauses evs = repeat 1000 ((List.length stocks - i - 1) / 10)
    /\ now w' = now w
                + 1000 * Z.of_nat ((List.length stocks - i - 1) / 10)
    /\ provider w' = provider w
    /\ keeps_rows_of w w' /\ prices w' = prices w
    /\ (db_faults w = [] ->
        db_faults w' = [] /\ Forall (fun s => registered s w') (skipn i stocks)).
Proof.
  induction fuel as [|fuel IH]; intros i w Hfuel.
  - exists [], w. simpl for_step.
    rewrite app_nil_r, skipn_past_end, gap_last by lia.
    rewrite Z.add_0_r.
    repeat (split; [auto using keeps_rows_refl; fail|]).
    constructor.
  - cbn [for_step]. destruct (Nat.ltb i (List.length stocks)) eqn:E.
    + apply Nat.ltb_lt in E.
      destruct (register_batch_spec (slice stocks i (i + 10)) w)
        as (e1 & w1 & Hrun & Htr & Hreq & Hpa & Hst & Hn & Hpr & Hk & Hp & Hh).
      set (pause := if Nat.ltb (i + 10) (List.length stocks)
                    then sleep 1000 else ret tt).
      assert (Hpause : exists e2 w2,
                 pause w1 = (Normal tt, w2)
                 /\ trace w2 = trace w1 ++ e2
                 /\ requests e2 = [] /\ statements e2 = []
                 /\ pauses e2 ++ repeat 1000
                                   ((List.length stocks - (i + 10) - 1) / 10)
                    = repeat 1000 ((List.length stocks - i - 1) / 10)
                 /\ now w2 + 1000 * Z.of_nat
                                     ((List.length stocks - (i + 10) - 1) / 10)
                    = now w1
                      + 1000 * Z.of_nat ((List.length stocks - i - 1) / 10)
                 /\ provider w2 = provider w1
                 /\ assets w2 = assets w1 /\ prices w2 = prices w1
                 /\ db_faults w2 = db_faults w1).
      { unfold pause.
        destruct (Nat.ltb (i + 10) (List.length stocks)) eqn:E2.
        - apply Nat.ltb_lt in E2.
          exists [EvSleep 1000]. eexists. split; [reflexivity|].
          rewrite (gap_more (List.length stocks) i 10) by lia.
          repeat split. simpl now. lia.
        - apply Nat.ltb_ge in E2.
          exists [], w1. unfold ret.
          rewrite app_nil_r, !gap_last by lia. repeat split. }
      destruct Hpause as (e2 & w2 & Hrun2 & Htr2 & Hreq2 & Hst2 & Hpa2 & Hn2
                          & Hpr2 & Ha2 & Hp2 & Hf2).
      destruct (IH (i + 10)%nat w2)
        as (e3 & w3 & Hrun3 & Htr3 & Hreq3 & Hst3 & Hpa3 & Hn3 & Hpr3 & Hk3
            & Hp3 & Hh3);
        [lia|].
      exists (e1 ++ e2 ++ e3), w3.
      unfold bind at 1. unfold bind at 1. rewrite Hrun. fold pause.
      rewrite Hrun2, Hrun3.
      assert (Hk2 : keeps_rows_of w1 w2).
      { split; [exists []|exists []]; rewrite app_nil_r; auto. }
      split; [reflexivity|].
      split; [now rewrite Htr3, Htr2, Htr, !app_assoc|].
      split; [now rewrite !requests_app, Hreq, Hreq2, Hreq3|].
      split.
      { rewrite !statements_app, Hst, Hst2, Hst3, (skipn_slice stocks i 10).
        now rewrite map_app. }
      split; [now rewrite !pauses_app, Hpa, Hpa3|].
      split; [rewrite Hn3, Hn2, Hn; reflexivity|].
      split; [now rewrite Hpr3, Hpr2|].
      split; [apply (keeps_rows_trans w w1 w3); auto;
              now apply (keeps_rows_trans w1 w2 w3)|].
      split; [now rewrite Hp3, Hp2|].
      intro Hw. destruct (Hh Hw) as [Hw1 Hr1].
      rewrite <- Hf2 in Hw1. destruct (Hh3 Hw1) as [Hw3 Hr3].
      split; [exact Hw3|]. rewrite (skipn_slice stocks i 10).
      apply Forall_app. split; [|exact Hr3].
      eapply Forall_impl; [|exact Hr1]. cbv beta. intros s Hs.
      apply (registered_persists s w1 w3); [|exact Hs].
      now apply (keeps_rows_trans w1 w2 w3).
    + apply Nat.ltb_ge in E.
      exists [], w. unfold ret.
      rewrite app_nil_r, skipn_past_end, gap_last by lia.
      rewrite Z.add_0_r.
      repeat (split; [auto using keeps_rows_refl; fail|]).
      constructor.
Qed.

(** ** Step 2 of the bulk driver: history *)

Lemma series_available_app p range l1 l2 :
  series_available p range (l1 ++ l2)
  = (series_available p range l1 + series_available p range l2)%nat.
Proof. unfold series_available. now rewrite filter_app, length_app. Qed.

(** The history loop from index [i], with [acc] pushed so far. *)
Lemma history_loop_spec stocks : forall fuel i acc w,
  (List.length stocks - i <= fuel)%nat ->
  exists evs w',
    for_step fuel i (List.length stocks) 5
      (fun i results =>
         try_catch
           (batchResults <- loadBulkHistoricalData
                              (slice stocks i (i + 5)) (Some "5y") ;;
            (if Nat.ltb (i + 5) (List.length stocks)
             then sleep 3000 else ret tt) ;;
            ret (results ++ batchResults))
           (fun error =>
              console_error ("      Error en lote: " ++ message_text error)%string ;;
              ret results))
      acc w
    = (Normal (acc ++ map (outcome_of (provider w) "5y") (skipn i stocks)), w')
    /\ trace w' = trace w ++ evs
    /\ requests evs = map (fun s => request_url s (Some "5y")) (skipn i stocks)
    /\ now w' = now w
                + 1000 * Z.of_nat (series_available (provider w) "5y"
                                                    (skipn i stocks))
                + 3000 * Z.of_nat ((List.length stocks - i - 1) / 5)
    /\ provider w' = provider w
    /\ keeps_rows_of w w'.
Proof.
  induction fuel as [|fuel IH]; intros i acc w Hfuel.
  - exists [], w. cbn [for_step]. unfold ret.
    rewrite !app_nil_r, skipn_past_end, gap_last by lia.
    unfold series_available. cbn [filter List.length map Z.of_nat].
    rewrite app_nil_r, !Z.mul_0_r, !Z.add_0_r.
    repeat (split; [auto using keeps_rows_refl; fail|]).
    apply keeps_rows_refl.
  - cbn [for_step]. destruct (Nat.ltb i (List.length stocks)) eqn:E.
    + apply Nat.ltb_lt in E.
      set (batch := slice stocks i (i + 5)).
      destruct (bulk_loop_spec "5y" batch [] w)
        as (e1 & w1 & Hrun & Hpr & Hn & Htr & Hreq & _).
      assert (Hk : keeps_rows_of w w1).
      { replace w1 with (snd (bulk_loop "5y" batch [] w))
          by now rewrite Hrun.
        apply (preserves_bulk_loop _ (keeps_rows_invariant w)),
          keeps_rows_refl. }
      set (pause := if Nat.ltb (i + 5) (List.length stocks)
                    then sleep 3000 else ret tt).
      assert (Hpause : exists e2 w2,
                 pause w1 = (Normal tt, w2)
                 /\ trace w2 = trace w1 ++ e2
                 /\ requests e2 = []
                 /\ now w2 + 3000 * Z.of_nat
                                     ((List.length stocks - (i + 5) - 1) / 5)
                    = now w1
                      + 3000 * Z.of_nat ((List.length stocks - i - 1) / 5)
                 /\ provider w2 = provider w1
                 /\ keeps_rows_of w1 w2).
      { unfold pause.
        destruct (Nat.ltb (i + 5) (List.length stocks)) eqn:E2.
        - apply Nat.ltb_lt in E2.
          exists [EvSleep 3000]. eexists. split; [reflexivity|].
          rewrite (gap_more (List.length stocks) i 5) by lia.
          repeat (split; [auto; fail|]).
          split; [cbn [now set_now]; lia|].
          split; [reflexivity|]. split; exists []; now rewrite app_nil_r.
        - apply Nat.ltb_ge in E2.
          exists [], w1. unfold ret.
          rewrite app_nil_r, !gap_last by lia.
          repeat (split; [auto using keeps_rows_refl; fail|]).
          apply keeps_rows_refl. }
      destruct Hpause as (e2 & w2 & Hrun2 & Htr2 & Hreq2 & Hn2 & Hpr2 & Hk2).
      destruct (IH (i + 5)%nat
                  (acc ++ map (outcome_of (provider w) "5y") batch) w2)
        as (e3 & w3 & Hrun3 & Htr3 & Hreq3 & Hn3 & Hpr3 & Hk3); [lia|].
      exists (e1 ++ e2 ++ e3), w3.
      unfold bind at 1. unfold try_catch at 1. unfold bind at 1.
      rewrite loadBulkHistoricalData_is_loop.
      change (or_default (Some "5y") "5y") with "5y".
      fold batch. rewrite Hrun. cbn [app].
      unfold bind at 1. fold pause. rewrite Hrun2. unfold ret at 1.
      rewrite Hrun3, Hpr2, Hpr.
      rewrite (skipn_slice stocks i 5). fold batch.
      split; [now rewrite map_app, app_assoc|].
      split; [now rewrite Htr3, Htr2, Htr, !app_assoc|].
      split; [now rewrite !requests_app, Hreq, Hreq2, Hreq3, map_app|].
      split.
      { rewrite series_available_app, Nat2Z.inj_add.
        rewrite Hpr2, Hpr in Hn3. lia. }
      split; [now rewrite Hpr3, Hpr2|].
      apply (keeps_rows_trans w w1 w3); auto.
      now apply (keeps_rows_trans w1 w2 w3).
    + apply Nat.ltb_ge in E.
      exists [], w. unfold ret.
      rewrite !app_nil_r, skipn_past_end, gap_last by lia.
      unfold series_available. cbn [filter List.length map Z.of_nat].
      rewrite app_nil_r, !Z.mul_0_r, !Z.add_0_r.
      repeat (split; [auto using keeps_rows_refl; fail|]).
      apply keeps_rows_refl.
Qed.

(** ** The bulk driver as a whole *)

(** Step 1 of the bulk driver never throws and never calls the provider:
    it sends one upsert per stock, in list order, pauses a second between
    batches of ten and after none of the last, and writes no Price row;
    against a database that answers, every stock has its Asset when the
    step ends. *)
Theorem register_assets_registers_all stocks w :
  let w' := snd (register_assets stocks w) in
  fst (register_assets stocks w) = Normal tt
  /\ requests (events_since w w') = []
  /\ statements (events_since w w') = map AssetUpsert stocks
  /\ pauses (events_since w w')
     = repeat 1000 (batches_after_first (List.length stocks) 10)
  /\ prices w' = prices w
  /\ (db_faults w = [] -> Forall (fun s => registered s w') stocks).
Proof.
  unfold register_assets. cbv zeta.
  destruct (register_loop_spec stocks (List.length stocks) 0 w)
    as (evs & w1 & Hrun & Htr & Hreq & Hst & Hpa & _ & _ & _ & Hp & Hh);
    [lia|].
  rewrite Hrun. cbn [fst snd]. rewrite (events_since_app w w1 evs Htr).
  rewrite Nat.sub_0_r in Hpa. cbn [skipn] in Hst, Hh.
  repeat (split; [auto; fail|]).
  intro Hw. now destruct (Hh Hw).
Qed.

Lemma register_assets_registers_all_witness :
  let w := fresh_world stub_provider 0 in
  Forall (fun s => registered s (snd (register_assets allStocks w))) allStocks
  /\ pauses (events_since w (snd (register_assets allStocks w)))
     = repeat 1000 6.
Proof.
  intro w.
  destruct (register_assets_registers_all allStocks w)
    as (_ & _ & _ & Hpa & _ & Hreg).
  split; [now apply Hreg|]. rewrite Hpa. reflexivity.
Defined.

Lemma successful_plus_failed results :
  (successful results + failed_count results = List.length results)%nat.
Proof.
  unfold successful, failed_count.
  induction results as [|r results IH]; [reflexivity|].
  simpl. destruct (BulkLoadResult.status r); simpl; lia.
Qed.

(** Step 2 of the bulk driver, batch by batch, collects exactly the
    outcomes a single bulk load of the whole list would return, one per
    stock in list order, so that the successes and the failures of the
    report add up to the number of stocks; the requests are those of the
    single load too. *)
Theorem load_history_outcomes stocks w :
  let w' := snd (load_history stocks w) in
  fst (load_history stocks w)
    = Normal (map (outcome_of (provider w) "5y") stocks)
  /\ fst (load_history stocks w)
     = fst (loadBulkHistoricalData stocks (Some "5y") w)
  /\ requests (events_since w w')
     = map (fun s => request_url s (Some "5y")) stocks
  /\ (successful (map (outcome_of (provider w) "5y") stocks)
      + failed_count (map (outcome_of (provider w) "5y") stocks)
      = List.length stocks)%nat.
Proof.
  unfold load_history. cbv zeta.
  destruct (history_loop_spec stocks (List.length stocks) 0 [] w)
    as (evs & w1 & Hrun & Htr & Hreq & _); [lia|].
  rewrite Hrun. cbn [fst snd app skipn] in *.
  rewrite (events_since_app w w1 evs Htr).
  split; [reflexivity|]. split; [|split; [exact Hreq|]].
  - rewrite loadBulkHistoricalData_is_loop.
    change (or_default (Some "5y") "5y") with "5y".
    now rewrite bulk_loop_outcomes.
  - now rewrite successful_plus_failed, length_map.
Qed.

(** Step 2 of the bulk driver pauses a second after every stock whose
    fetch succeeded and three seconds between batches of five, after none
    of the last: that is all the time it takes on the clock. *)
Theorem load_history_clock stocks w :
  now (snd (load_history stocks w))
  = now w
    + 1000 * Z.of_nat (series_available (provider w) "5y" stocks)
    + 3000 * Z.of_nat (batches_after_first (List.length stocks) 5).
Proof.
  unfold load_history. cbv zeta.
  destruct (history_loop_spec stocks (List.length stocks) 0 [] w)
    as (evs & w1 & Hrun & _ & _ & Hn & _); [lia|].
  rewrite Hrun. cbn [fst snd skipn] in *.
  rewrite Nat.sub_0_r in Hn. exact Hn.
Qed.

Lemma try_catch_bind_normal {A B} (m : Async A) (k : A -> Async B) h a w w1 :
  m w = (Normal a, w1) ->
  try_catch (bind m k) h w = try_catch (k a) h w1.
Proof. intro H. unfold try_catch, bind. now rewrite H. Qed.

(** The two counts that end the driver, under its outer [catch]. *)
Lemma final_counts_spec w :
  let r := try_catch
             (assetCount <- prisma_asset_count ;;
              priceCount <- prisma_price_count ;;
              ret tt)
             (fun error =>
                console_error (String (ascii_of_nat 10) "ERROR GENERAL:")) w in
  fst r = Normal tt
  /\ assets (snd r) = assets w /\ prices (snd r) = prices w
  /\ exists evs, trace (snd r) = trace w ++ evs /\ requests evs = [].
Proof.
  destruct w as [a p aseq pseq t pr f tr run cron].
  unfold try_catch, bind, prisma_asset_count, prisma_price_count, bind,
    db_statement.
  simpl.
  destruct f as [|[e|] [|[e2|] f]]; simpl; repeat split;
    rewrite <- ?app_assoc; eexists; split; reflexivity.
Qed.

(** The bulk driver never throws.  It registers before it fetches: its
    run starts with one upsert per stock and no request, and only then
    come the requests, one per stock; so against a database that answers
    every stock of the list has an Asset at the end, whether the provider
    had data for it or not. *)
Theorem loadAllStocks_registers_before_fetching stocks w :
  let w' := snd (loadAllStocks_on stocks w) in
  fst (loadAllStocks_on stocks w) = Normal tt
  /\ (exists registration rest,
        events_since w w' = registration ++ rest
        /\ requests registration = []
        /\ statements registration = map AssetUpsert stocks
        /\ requests rest = map (fun s => request_url s (Some "5y")) stocks)
  /\ (db_faults w = [] -> Forall (fun s => registered s w') stocks).
Proof.
  destruct (register_loop_spec stocks (List.length stocks) 0 w)
    as (e1 & w1 & Hrun1 & Htr1 & Hreq1 & Hst1 & _ & _ & _ & _ & _ & Hh1);
    [lia|].
  destruct (history_loop_spec stocks (List.length stocks) 0 [] w1)
    as (e2 & w2 & Hrun2 & Htr2 & Hreq2 & _ & _ & Hk2); [lia|].
  destruct (final_counts_spec w2) as (Hr & Ha & _ & e3 & Htr3 & Hreq3).
  unfold loadAllStocks_on.
  rewrite (try_catch_bind_normal _ _ _ _ _ _ Hrun1).
  rewrite (try_catch_bind_normal _ _ _ _ _ _ Hrun2).
  cbv zeta. cbn [skipn] in *.
  split; [exact Hr|]. split.
  - exists e1, (e2 ++ e3). split; [|split; [exact Hreq1|split]].
    + apply events_since_app. now rewrite Htr3, Htr2, Htr1, !app_assoc.
    + exact Hst1.
    + rewrite requests_app, Hreq2, Hreq3. now rewrite app_nil_r.
  - intro Hw. destruct (Hh1 Hw) as [_ Hreg].
    eapply Forall_impl; [|exact Hreg]. cbv beta. intros s (a & Hs).
    destruct Hk2 as [_ (added & Hadd)].
    exists a. rewrite Ha, Hadd. now apply find_asset_extends.
Qed.

Lemma loadAllStocks_registers_before_fetching_witness :
  let w := fresh_world stub_provider 0 in
  registered "ZZZZ" (snd (loadAllStocks_on ["AAPL"; "ZZZZ"] w))
  /\ prices (snd (loadAllStocks_on ["AAPL"; "ZZZZ"] w)) <> [].
Proof.
  intro w.
  destruct (loadAllStocks_registers_before_fetching ["AAPL"; "ZZZZ"] w)
    as (_ & _ & Hreg).
  specialize (Hreg eq_refl).
  split.
  - inversion Hreg as [|? ? _ Hz]; subst. now inversion Hz.
  - vm_compute. discriminate.
Defined.
